(** * PASTURE: a shallow embedding of the orchestration core

    The development follows [pasture_core.py] (and notes where [pasture.py]
    differs).  Python values are a small inductive type, Python dictionaries
    are insertion-ordered association lists, effectful code is written in
    explicit state-passing style, and exceptions are explicit results.

    Strings are Rocq strings: a character is an 8-bit code point (Latin-1). *)

From Stdlib Require Import ZArith List String Ascii Bool Lia DecimalString.
From stdpp Require Import gmap strings list fin_maps.

Set Warnings "-register-all,-clear-no-such-hyp".

(* ===================================================================== *)
(** * Part I: definitions                                                  *)
(* ===================================================================== *)

(** ** Python values and dictionaries *)

Module Py.

(** A Python object as far as the core manipulates it.  A float is carried
    by a decimal text that denotes it: its [repr], or, for a float that
    [json.loads] has read, the literal it was read from (floating-point
    arithmetic and the rounding of literals are not modelled). *)
Inductive value : Type :=
| VNone
| VBool (b : bool)
| VInt (z : Z)
| VFloat (repr : string)
| VStr (s : string)
| VList (l : list value)
| VDict (d : list (string * value)).

Abbreviation pydict := (list (string * value)).

Section Dict.
Context {V : Type}.

(** [d.get(k)] *)
Fixpoint dict_get (k : string) (d : list (string * V)) : option V :=
  match d with
  | [] => None
  | (k', v) :: d' => if String.eqb k' k then Some v else dict_get k d'
  end.

(** [k in d] *)
Definition dict_in (k : string) (d : list (string * V)) : bool :=
  match dict_get k d with Some _ => true | None => false end.

(** [d[k] = v]: an existing key keeps its position, a new key goes last. *)
Fixpoint dict_set (k : string) (v : V) (d : list (string * V))
  : list (string * V) :=
  match d with
  | [] => [(k, v)]
  | (k', v') :: d' =>
      if String.eqb k' k then (k', v) :: d' else (k', v') :: dict_set k v d'
  end.

(** [del d[k]] *)
Fixpoint dict_del (k : string) (d : list (string * V)) : list (string * V) :=
  match d with
  | [] => []
  | (k', v') :: d' =>
      if String.eqb k' k then d' else (k', v') :: dict_del k d'
  end.

Definition dict_keys (d : list (string * V)) : list string := map fst d.
End Dict.

(** [sep.join(parts)] *)
Fixpoint join (sep : string) (parts : list string) : string :=
  match parts with
  | [] => EmptyString
  | [p] => p
  | p :: rest => p +:+ sep +:+ join sep rest
  end.

(** Decimal rendering of an integer, as [str(int)]. *)
Definition str_of_Z (z : Z) : string := NilZero.string_of_int (Z.to_int z).

Definition hex_digit (n : N) : ascii :=
  match n with
  | 0 => "0" | 1 => "1" | 2 => "2" | 3 => "3" | 4 => "4" | 5 => "5"
  | 6 => "6" | 7 => "7" | 8 => "8" | 9 => "9" | 10 => "a" | 11 => "b"
  | 12 => "c" | 13 => "d" | 14 => "e" | _ => "f"
  end%N%char.

Definition hex2 (c : ascii) : string :=
  let n := N_of_ascii c in
  String (hex_digit (n / 16)) (String (hex_digit (n mod 16)) EmptyString).

Fixpoint str_contains_char (c : ascii) (s : string) : bool :=
  match s with
  | EmptyString => false
  | String c' s' => Ascii.eqb c c' || str_contains_char c s'
  end.

(** Code points below 256 that [str.isprintable] rejects. *)
Definition is_printable (c : ascii) : bool :=
  let n := N_of_ascii c in
  ((32 <=? n) && (n <? 127) || (161 <=? n) && negb (n =? 173))%N.

(** The double-quote character. *)
Definition dquote : ascii := "034".

(** Body of [repr(str)] for the chosen quote character. *)
Fixpoint repr_chars (quote : ascii) (s : string) : string :=
  match s with
  | EmptyString => EmptyString
  | String c s' =>
      (if Ascii.eqb c quote || Ascii.eqb c "\"
       then String "\" (String c EmptyString)
       else if Ascii.eqb c "009" then "\t"
       else if Ascii.eqb c "010" then "\n"
       else if Ascii.eqb c "013" then "\r"
       else if is_printable c then String c EmptyString
       else "\x" +:+ hex2 c) +:+ repr_chars quote s'
  end.

(** [repr(s)] for a string: single quotes unless the string has a single
    quote and no double quote. *)
Definition repr_str (s : string) : string :=
  let quote : ascii :=
    if str_contains_char "'" s && negb (str_contains_char dquote s)
    then dquote else "'"%char in
  String quote (repr_chars quote s) +:+ String quote EmptyString.

(** [repr(v)] *)
Fixpoint py_repr (v : value) : string :=
  match v with
  | VNone => "None"
  | VBool true => "True"
  | VBool false => "False"
  | VInt z => str_of_Z z
  | VFloat r => r
  | VStr s => repr_str s
  | VList l => "[" +:+ join ", " (map py_repr l) +:+ "]"
  | VDict d =>
      "{" +:+ join ", " (map (fun kv => repr_str (fst kv) +:+ ": " +:+ py_repr (snd kv)) d)
          +:+ "}"
  end.

(** [str(v)] *)
Definition py_str (v : value) : string :=
  match v with
  | VStr s => s
  | _ => py_repr v
  end.

End Py.


(** ** Exceptions *)

Module Exn.

(** The exception classes the core distinguishes in its handlers. *)
Inductive exn : Type :=
| JSONDecodeError
| ValueError (msg : string)
| ValidationError (details : string)
| KeyError (key : string)
| OtherException (msg : string).

(** The outcome of a call that may raise. *)
Inductive result (A : Type) : Type :=
| Ok (a : A)
| Raise (e : exn).
Arguments Ok {A}.
Arguments Raise {A}.

Definition is_ok {A} (r : result A) : bool :=
  match r with Ok _ => true | Raise _ => false end.

End Exn.

(** ** The [json] module: [json.loads] and [json.dumps] *)

Module Json.
Import Py Exn.

(** Result of a scanner: a value and the unread input, a decode error
    ([json.JSONDecodeError]), another exception raised while scanning, or an
    exhausted iteration budget of the model. *)
Inductive scan (A : Type) : Type :=
| Scanned (a : A) (rest : string)
| DecodeError
| Raised (e : exn)
| OutOfFuel.
Arguments Scanned {A}.
Arguments DecodeError {A}.
Arguments Raised {A}.
Arguments OutOfFuel {A}.

(** [sys.get_int_max_str_digits()]: the most digits [int] converts. *)
Definition int_max_str_digits : nat := 4300.

(** [sys.getrecursionlimit()]: how many arrays and objects the scanner may
    have open at once.  The frames of the callers, which lower what is left
    for the scanner, are not counted. *)
Definition recursion_limit : nat := 1000.

(** The [ValueError] of [int] on a literal of too many digits. *)
Definition int_too_long (digits : nat) : exn :=
  ValueError ("Exceeds the limit (" +:+ str_of_Z (Z.of_nat int_max_str_digits)
              +:+ " digits) for integer string conversion: value has "
              +:+ str_of_Z (Z.of_nat digits)
              +:+ " digits; use sys.set_int_max_str_digits() to increase the limit").

(** The [RecursionError] of the scanner on entering one array or object
    too many; [what] is [array] or [object]. *)
Definition too_deep (what : string) : exn :=
  OtherException ("maximum recursion depth exceeded while decoding a JSON "
                  +:+ what +:+ " from a unicode string").

(** [WHITESPACE = re.compile(r'[ \t\n\r]*')] *)
Definition is_json_ws (c : ascii) : bool :=
  Ascii.eqb c " " || Ascii.eqb c "009" || Ascii.eqb c "010" || Ascii.eqb c "013".

Fixpoint skip_ws (s : string) : string :=
  match s with
  | String c rest => if is_json_ws c then skip_ws rest else s
  | EmptyString => s
  end.

Definition is_digit (c : ascii) : bool :=
  let n := N_of_ascii c in ((48 <=? n) && (n <=? 57))%N.

Definition hex_value (c : ascii) : option N :=
  let n := N_of_ascii c in
  if ((48 <=? n) && (n <=? 57))%N then Some (n - 48)%N
  else if ((97 <=? n) && (n <=? 102))%N then Some (n - 87)%N
  else if ((65 <=? n) && (n <=? 70))%N then Some (n - 55)%N
  else None.

(** The four hex digits of a [\uXXXX] escape. *)
Definition decode_uXXXX (h1 h2 h3 h4 : ascii) : option N :=
  match hex_value h1, hex_value h2, hex_value h3, hex_value h4 with
  | Some a, Some b, Some c, Some d => Some (((a * 16 + b) * 16 + c) * 16 + d)%N
  | _, _, _, _ => None
  end.

(** The characters a [\uXXXX] escape contributes.  A code point below 256
    is the character itself; a larger one has no character in this model
    and is kept as the six characters of its escape. *)
Definition unicode_escape (h1 h2 h3 h4 : ascii) (n : N) : string :=
  if (n <? 256)%N then String (ascii_of_N n) EmptyString
  else String "\" (String "u" (String h1 (String h2 (String h3 (String h4 EmptyString))))).

(** [BACKSLASH]: the one-character escapes. *)
Definition backslash (esc : ascii) : option ascii :=
  if Ascii.eqb esc dquote then Some dquote
  else if Ascii.eqb esc "\" then Some "\"%char
  else if Ascii.eqb esc "/" then Some "/"%char
  else if Ascii.eqb esc "b" then Some "008"%char
  else if Ascii.eqb esc "f" then Some "012"%char
  else if Ascii.eqb esc "n" then Some "010"%char
  else if Ascii.eqb esc "r" then Some "013"%char
  else if Ascii.eqb esc "t" then Some "009"%char
  else None.

(** [scanstring] in strict mode, from just after the opening quote.
    [acc] holds the decoded characters so far. *)
Fixpoint scanstring (s : string) (acc : string) : scan string :=
  match s with
  | EmptyString => DecodeError
  | String c rest =>
      if Ascii.eqb c dquote then Scanned acc rest
      else if Ascii.eqb c "\" then
        match rest with
        | EmptyString => DecodeError
        | String esc rest' =>
            if Ascii.eqb esc "u" then
              match rest' with
              | String h1 (String h2 (String h3 (String h4 rest''))) =>
                  match decode_uXXXX h1 h2 h3 h4 with
                  | Some n => scanstring rest'' (acc +:+ unicode_escape h1 h2 h3 h4 n)
                  | None => DecodeError
                  end
              | _ => DecodeError
              end
            else
              match backslash esc with
              | Some ch => scanstring rest' (acc +:+ String ch EmptyString)
              | None => DecodeError
              end
        end
      else if (N_of_ascii c <? 32)%N then DecodeError
      else scanstring rest (acc +:+ String c EmptyString)
  end.

(** The longest prefix of decimal digits and what follows it. *)
Fixpoint span_digits (s : string) : string * string :=
  match s with
  | String c rest =>
      if is_digit c then
        let (ds, r) := span_digits rest in (String c ds, r)
      else (EmptyString, s)
  | EmptyString => (EmptyString, EmptyString)
  end.

(** [NUMBER_RE]: an optional minus sign and either a single zero or a
    nonzero digit with any further digits; then optionally a dot with at
    least one digit; then optionally [e] or [E], an optional sign and at least
    one digit.  The three groups are matched in turn (an absent group is
    empty). *)
Definition match_integer (s : string) : option (string * string) :=
  let (sign, s1) :=
    match s with
    | String c r => if Ascii.eqb c "-" then ("-"%string, r) else (EmptyString, s)
    | EmptyString => (EmptyString, s)
    end in
  match s1 with
  | String c r =>
      if Ascii.eqb c "0" then Some (sign +:+ "0", r)
      else if is_digit c then
        let (ds, r') := span_digits s1 in Some (sign +:+ ds, r')
      else None
  | EmptyString => None
  end.

Definition match_frac (s : string) : string * string :=
  match s with
  | String c r =>
      if Ascii.eqb c "." then
        match span_digits r with
        | (EmptyString, _) => (EmptyString, s)
        | (ds, r') => (String "." ds, r')
        end
      else (EmptyString, s)
  | EmptyString => (EmptyString, s)
  end.

Definition match_exp (s : string) : string * string :=
  match s with
  | String e r =>
      if Ascii.eqb e "e" || Ascii.eqb e "E" then
        let (sign, r1) :=
          match r with
          | String c r1 =>
              if Ascii.eqb c "-" then ("-"%string, r1)
              else if Ascii.eqb c "+" then ("+"%string, r1)
              else (EmptyString, r)
          | EmptyString => (EmptyString, r)
          end in
        match span_digits r1 with
        | (EmptyString, _) => (EmptyString, s)
        | (ds, r') => (String e (sign +:+ ds), r')
        end
      else (EmptyString, s)
  | EmptyString => (EmptyString, s)
  end.

Fixpoint Z_of_digits (s : string) (acc : Z) : Z :=
  match s with
  | String c rest => Z_of_digits rest (10 * acc + Z.of_N (N_of_ascii c - 48))
  | EmptyString => acc
  end.

(** [int(integer)] on the first group of [NUMBER_RE]: a literal of more
    than [int_max_str_digits] digits, the sign not counted, raises
    [ValueError]. *)
Definition parse_int (integer : string) : result Z :=
  let (negative, digits) :=
    match integer with
    | String c ds => if Ascii.eqb c "-" then (true, ds) else (false, integer)
    | EmptyString => (false, integer)
    end in
  if (int_max_str_digits <? String.length digits)%nat
  then Raise (int_too_long (String.length digits))
  else Ok (if negative then (- Z_of_digits digits 0)%Z else Z_of_digits digits 0).

(** [s.startswith(prefix)], returning what follows the prefix. *)
Fixpoint strip_prefix (prefix s : string) : option string :=
  match prefix with
  | EmptyString => Some s
  | String p prefix' =>
      match s with
      | String c rest => if Ascii.eqb p c then strip_prefix prefix' rest else None
      | EmptyString => None
      end
  end.

(** The scalar cases of [scan_once]: literals and numbers.  A number with
    a fraction or an exponent is a float, kept as the text of its literal. *)
Definition scan_scalar (s : string) : scan value :=
  match strip_prefix "null" s with
  | Some r => Scanned VNone r
  | None =>
  match strip_prefix "true" s with
  | Some r => Scanned (VBool true) r
  | None =>
  match strip_prefix "false" s with
  | Some r => Scanned (VBool false) r
  | None =>
  match match_integer s with
  | Some (integer, r) =>
      let (frac, r1) := match_frac r in
      let (exp, r2) := match_exp r1 in
      match frac, exp with
      | EmptyString, EmptyString =>
          match parse_int integer with
          | Ok z => Scanned (VInt z) r2
          | Raise e => Raised e
          end
      | _, _ => Scanned (VFloat (integer +:+ frac +:+ exp)) r2
      end
  | None =>
  match strip_prefix "NaN" s with
  | Some r => Scanned (VFloat "nan") r
  | None =>
  match strip_prefix "Infinity" s with
  | Some r => Scanned (VFloat "inf") r
  | None =>
  match strip_prefix "-Infinity" s with
  | Some r => Scanned (VFloat "-inf") r
  | None => DecodeError
  end end end end end end end.

(** [scan_once], [JSONObject] and [JSONArray].  [object_members] starts
    just after the opening quote of a key; [array_items] starts at a
    value.  Each call into a nested value or a further member spends one
    unit of [fuel].  [depth] is how many more arrays and objects may be
    entered: the scanner checks it on the opening bracket, before it looks at
    what follows. *)
Fixpoint scan_once (fuel depth : nat) (s : string) : scan value :=
  match fuel with
  | O => OutOfFuel
  | S fuel' =>
      match s with
      | EmptyString => DecodeError
      | String c rest =>
          if Ascii.eqb c dquote then
            match scanstring rest EmptyString with
            | Scanned str r => Scanned (VStr str) r
            | DecodeError => DecodeError
            | Raised e => Raised e
            | OutOfFuel => OutOfFuel
            end
          else if Ascii.eqb c "{" then
            match depth with
            | O => Raised (too_deep "object")
            | S depth' =>
                match skip_ws rest with
                | String q r =>
                    if Ascii.eqb q "}" then Scanned (VDict []) r
                    else if Ascii.eqb q dquote then
                      match object_members fuel' depth' r [] with
                      | Scanned pairs r' => Scanned (VDict pairs) r'
                      | DecodeError => DecodeError
                      | Raised e => Raised e
                      | OutOfFuel => OutOfFuel
                      end
                    else DecodeError
                | EmptyString => DecodeError
                end
            end
          else if Ascii.eqb c "[" then
            match depth with
            | O => Raised (too_deep "array")
            | S depth' =>
                match skip_ws rest with
                | String q r =>
                    if Ascii.eqb q "]" then Scanned (VList []) r
                    else
                      match array_items fuel' depth' (String q r) [] with
                      | Scanned items r' => Scanned (VList items) r'
                      | DecodeError => DecodeError
                      | Raised e => Raised e
                      | OutOfFuel => OutOfFuel
                      end
                | EmptyString => DecodeError
                end
            end
          else scan_scalar s
      end
  end
with object_members (fuel depth : nat) (s : string) (pairs : pydict) : scan pydict :=
  match fuel with
  | O => OutOfFuel
  | S fuel' =>
      match scanstring s EmptyString with
      | Scanned key r =>
          match skip_ws r with
          | String colon r1 =>
              if Ascii.eqb colon ":" then
                match scan_once fuel' depth (skip_ws r1) with
                | Scanned v r2 =>
                    let pairs' := dict_set key v pairs in
                    match skip_ws r2 with
                    | String d r3 =>
                        if Ascii.eqb d "}" then Scanned pairs' r3
                        else if Ascii.eqb d "," then
                          match skip_ws r3 with
                          | String q r4 =>
                              if Ascii.eqb q dquote
                              then object_members fuel' depth r4 pairs'
                              else DecodeError
                          | EmptyString => DecodeError
                          end
                        else DecodeError
                    | EmptyString => DecodeError
                    end
                | DecodeError => DecodeError
                | Raised e => Raised e
                | OutOfFuel => OutOfFuel
                end
              else DecodeError
          | EmptyString => DecodeError
          end
      | DecodeError => DecodeError
      | Raised e => Raised e
      | OutOfFuel => OutOfFuel
      end
  end
with array_items (fuel depth : nat) (s : string) (items : list value)
  : scan (list value) :=
  match fuel with
  | O => OutOfFuel
  | S fuel' =>
      match scan_once fuel' depth s with
      | Scanned v r =>
          match skip_ws r with
          | String d r1 =>
              if Ascii.eqb d "]" then Scanned (items ++ [v]) r1
              else if Ascii.eqb d ","
              then array_items fuel' depth (skip_ws r1) (items ++ [v])
              else DecodeError
          | EmptyString => DecodeError
          end
      | DecodeError => DecodeError
      | Raised e => Raised e
      | OutOfFuel => OutOfFuel
      end
  end.

(** [JSONDecoder.decode]: leading whitespace, one value, trailing
    whitespace, end of input.  The budget is more than twice the input
    length, which the scanners never use up. *)
Definition decode (s : string) : scan value :=
  match scan_once (S (2 * String.length s)) recursion_limit (skip_ws s) with
  | Scanned v r =>
      match skip_ws r with
      | EmptyString => Scanned v EmptyString
      | String _ _ => DecodeError
      end
  | DecodeError => DecodeError
  | Raised e => Raised e
  | OutOfFuel => OutOfFuel
  end.

(** [json.loads(s)] for a string [s]: the value, or
    [json.JSONDecodeError] for text that is not JSON, or the [ValueError] of
    an integer literal of too many digits, or the [RecursionError] of too
    deep a nesting, whichever the scanner meets first. *)
Definition loads (s : string) : result value :=
  match decode s with
  | Scanned v _ => Ok v
  | Raised e => Raise e
  | _ => Raise JSONDecodeError
  end.

End Json.

(** ** Python string methods and the regular expressions of the core *)

Module Str.
Import Py.

(** [str.isspace] on code points below 256; also the class [\s] of [re]
    on [str] patterns. *)
Definition is_space (c : ascii) : bool :=
  let n := N_of_ascii c in
  ((9 <=? n) && (n <=? 13) || (28 <=? n) && (n <=? 32) || (n =? 133) || (n =? 160))%N.

(** The class [\w] of [re] on [str] patterns, on code points below 256:
    alphanumeric characters and the underscore. *)
Definition is_word (c : ascii) : bool :=
  let n := N_of_ascii c in
  ((48 <=? n) && (n <=? 57) || (65 <=? n) && (n <=? 90) || (n =? 95)
   || (97 <=? n) && (n <=? 122)
   || (n =? 170) || (n =? 178) || (n =? 179) || (n =? 181) || (n =? 185)
   || (n =? 186) || (188 <=? n) && (n <=? 190)
   || (192 <=? n) && (n <=? 214) || (216 <=? n) && (n <=? 246) || (248 <=? n))%N.

(** [s.lstrip()] *)
Fixpoint lstrip (s : string) : string :=
  match s with
  | String c rest => if is_space c then lstrip rest else s
  | EmptyString => s
  end.

(** [s.rstrip()] *)
Fixpoint rstrip (s : string) : string :=
  match s with
  | String c rest =>
      match rstrip rest with
      | EmptyString => if is_space c then EmptyString else String c EmptyString
      | r => String c r
      end
  | EmptyString => s
  end.

(** [s.strip()] *)
Definition strip (s : string) : string := rstrip (lstrip s).

(** [s.startswith(prefix)] *)
Definition startswith (prefix s : string) : bool :=
  match Json.strip_prefix prefix s with Some _ => true | None => false end.

(** [s.endswith(suffix)] *)
Definition endswith (suffix s : string) : bool :=
  let n := String.length s in
  let m := String.length suffix in
  (m <=? n)%nat && String.eqb (String.substring (n - m) m s) suffix.

(** [s.replace(old, new)] for a one-character [old]. *)
Fixpoint replace_char (old : ascii) (new : string) (s : string) : string :=
  match s with
  | String c rest =>
      (if Ascii.eqb c old then new else String c EmptyString)
        +:+ replace_char old new rest
  | EmptyString => EmptyString
  end.

(** The longest prefix of characters of class [\w], and what follows. *)
Fixpoint span_word (s : string) : string * string :=
  match s with
  | String c rest =>
      if is_word c then
        let (w, r) := span_word rest in (String c w, r)
      else (EmptyString, s)
  | EmptyString => (EmptyString, EmptyString)
  end.

(** The lazy body of a fenced block: the characters up to the first
    closing brace that is followed by optional whitespace and a fence.
    Returns the body, brace included, and the input after the fence. *)
Fixpoint fenced_body (s : string) : option (string * string) :=
  match s with
  | EmptyString => None
  | String c rest =>
      match (if Ascii.eqb c "}" then Json.strip_prefix "```" (lstrip rest) else None) with
      | Some after => Some (String c EmptyString, after)
      | None =>
          match fenced_body rest with
          | Some (body, after) => Some (String c body, after)
          | None => None
          end
      end
  end.

(** One match of the fenced pattern: a fence, an optional [json] tag,
    optional whitespace, then group 1 (an opening brace and a lazy body
    closed by a brace), optional whitespace and a fence.  Returns group 1
    and the input after the match. *)
Definition match_fenced (s : string) : option (string * string) :=
  match Json.strip_prefix "```" s with
  | None => None
  | Some s1 =>
      let s2 := match Json.strip_prefix "json" s1 with Some r => r | None => s1 end in
      match lstrip s2 with
      | String "{" s3 =>
          match fenced_body s3 with
          | Some (body, after) => Some (String "{" body, after)
          | None => None
          end
      | _ => None
      end
  end.

(** The lazy body of a naked object: up to the first closing brace. *)
Fixpoint brace_body (s : string) : option (string * string) :=
  match s with
  | EmptyString => None
  | String c rest =>
      if Ascii.eqb c "}" then Some (String c EmptyString, rest)
      else match brace_body rest with
           | Some (body, after) => Some (String c body, after)
           | None => None
           end
  end.

(** One match of the naked pattern: an opening brace and a lazy body. *)
Definition match_naked (s : string) : option (string * string) :=
  match s with
  | String "{" s1 =>
      match brace_body s1 with
      | Some (body, after) => Some (String "{" body, after)
      | None => None
      end
  | _ => None
  end.

(** [re.findall(pattern, text)] for a pattern with one group that never
    matches the empty string: matches are sought left to right and do not
    overlap.  [skip] counts the characters of the last match still to pass. *)
Fixpoint findall (match_at : string -> option (string * string))
    (skip : nat) (text : string) : list string :=
  match skip with
  | S skip' =>
      match text with
      | String _ rest => findall match_at skip' rest
      | EmptyString => []
      end
  | O =>
      match text with
      | EmptyString => []
      | String _ rest =>
          match match_at text with
          | Some (group, after) =>
              group :: findall match_at
                         (String.length text - String.length after - 1) rest
          | None => findall match_at 0 rest
          end
      end
  end.

(** [re.sub] of a comma, optional whitespace and a closing bracket or
    brace by that bracket or brace. *)
Fixpoint sub_trailing_commas (skip : nat) (s : string) : string :=
  match s with
  | EmptyString => EmptyString
  | String c rest =>
      match skip with
      | S skip' => sub_trailing_commas skip' rest
      | O =>
          match (if Ascii.eqb c "," then lstrip rest else EmptyString) with
          | String b after =>
              if Ascii.eqb b "]" || Ascii.eqb b "}" then
                String b (sub_trailing_commas
                            (String.length rest - String.length after) rest)
              else String c (sub_trailing_commas 0 rest)
          | EmptyString => String c (sub_trailing_commas 0 rest)
          end
      end
  end.

(** [re.sub] of a run of word characters that is followed by optional
    whitespace and a colon (a lookahead) by the run in double quotes. *)
Fixpoint sub_quote_keys (skip : nat) (s : string) : string :=
  match s with
  | EmptyString => EmptyString
  | String c rest =>
      match skip with
      | S skip' => sub_quote_keys skip' rest
      | O =>
          let (w, after) := span_word s in
          match w, lstrip after with
          | String _ _, String ":" _ =>
              String dquote w +:+ String dquote EmptyString
                +:+ sub_quote_keys (String.length w - 1) rest
          | _, _ => String c (sub_quote_keys 0 rest)
          end
      end
  end.

End Str.

(** ** [class JSONProcessor] *)

Module JSONProcessor.
Import Py Exn Str.

(** [is_valid_json]: any exception of [json.loads] gives [False]. *)
Definition is_valid_json (json_str : string) : bool :=
  is_ok (Json.loads json_str).

(** [extract_json] *)
Definition extract_json (text : string) : option string :=
  match List.find is_valid_json (findall match_fenced 0 text) with
  | Some m => Some m
  | None => List.find is_valid_json (findall match_naked 0 text)
  end.

(** The textual fixes of [repair_json], up to the final validation. *)
Definition repair_text (json_str : string) : string :=
  let fixed := strip json_str in
  let fixed :=
    match extract_json fixed with
    | Some (String _ _ as extracted) => extracted
    | _ => fixed
    end in
  let fixed := replace_char "'" (String dquote EmptyString) fixed in
  let fixed := sub_trailing_commas 0 fixed in
  let fixed := sub_quote_keys 0 fixed in
  if negb (startswith "{" fixed && endswith "}" fixed) then
    let content :=
      replace_char "010" "\n"
        (replace_char dquote (String "\" (String dquote EmptyString)) fixed) in
    "{" +:+ String dquote "response" +:+ String dquote ": "
        +:+ String dquote content +:+ String dquote "}"
  else fixed.

(** [repair_json]: the repaired text, or what the final [json.loads]
    raised: its [JSONDecodeError] is raised again by the handler, and no
    handler is there for anything else. *)
Definition repair_json (json_str : string) : result string :=
  let fixed := repair_text json_str in
  match Json.loads fixed with
  | Ok _ => Ok fixed
  | Raise e => Raise e
  end.

(** [parse] of [pasture_core.py]: the handler around the strict
    [json.loads] catches [json.JSONDecodeError] only, so anything else that
    call raises leaves [parse]; the handler around the repair catches every
    [Exception]. *)
Definition parse (input_str : string) : result value :=
  match input_str, strip input_str with
  | EmptyString, _ | _, EmptyString =>
      Ok (VDict [("response", VStr EmptyString); ("error", VStr "empty_response")])
  | _, _ =>
      match Json.loads input_str with
      | Ok v => Ok v
      | Raise JSONDecodeError =>
          match repair_json input_str with
          | Ok fixed_json =>
              match Json.loads fixed_json with
              | Ok v => Ok v
              | Raise _ =>
                  Ok (VDict [("response", VStr input_str);
                             ("error", VStr "json_parsing_failed")])
              end
          | Raise _ =>
              Ok (VDict [("response", VStr input_str);
                         ("error", VStr "json_parsing_failed")])
          end
      | Raise e => Raise e
      end
  end.

(** Truth value of an object, as [if x:] and [not x] test it. *)
Definition truthy (v : value) : bool :=
  match v with
  | VNone => false
  | VBool b => b
  | VInt z => negb (z =? 0)%Z
  | VFloat r => negb (String.eqb r "0.0" || String.eqb r "-0.0")
  | VStr EmptyString => false
  | VStr _ => true
  | VList [] => false
  | VList _ => true
  | VDict [] => false
  | VDict _ => true
  end.

(** The name [type(v).__name__] shows in error messages. *)
Definition type_name (v : value) : string :=
  match v with
  | VNone => "NoneType" | VBool _ => "bool" | VInt _ => "int" | VFloat _ => "float"
  | VStr _ => "str" | VList _ => "list" | VDict _ => "dict"
  end.

(** The [AttributeError] of a method call on an object without it. *)
Definition attribute_error (v : value) (attr : string) : exn :=
  OtherException ("'" +:+ type_name v +:+ "' object has no attribute '" +:+ attr +:+ "'").

(** [wrap_text_as_json]: the argument is whatever the caller passes; a
    true value that is no string has no [strip]. *)
Definition wrap_text_as_json (text : value) : result pydict :=
  if negb (truthy text) then
    Ok [("response", VStr EmptyString); ("error", VStr "empty_response")]
  else
    match text with
    | VStr s => Ok [("response", VStr (strip s))]
    | _ => Raise (attribute_error text "strip")
    end.

(** The test [x.strip().startswith("{") and x.strip().endswith("}")]. *)
Definition looks_like_json_object (s : string) : bool :=
  startswith "{" (strip s) && endswith "}" (strip s).

End JSONProcessor.

(** ** Notions used to state the properties of the JSON functions *)

Module JsonSpec.
Import Py Exn Json.

(** A scanner result that is no budget failure and, when it succeeds, has
    read at least one character of [s]. *)
Definition progress {A} (s : string) (r : scan A) : Prop :=
  match r with
  | Scanned _ rest => String.length rest < String.length s
  | DecodeError => True
  | Raised _ => True
  | OutOfFuel => False
  end.

(** The object [parse] gives back for blank input. *)
Definition empty_response : value :=
  VDict [("response", VStr EmptyString); ("error", VStr "empty_response")].

(** The object [parse] gives back when repair fails. *)
Definition json_parsing_failed (input_str : string) : value :=
  VDict [("response", VStr input_str); ("error", VStr "json_parsing_failed")].

(** A string in double quotes, for writing JSON texts. *)
Definition quoted (s : string) : string :=
  String dquote s +:+ String dquote EmptyString.

(** The valid JSON text [{"a": "b:c"}]. *)
Definition colon_in_value : string :=
  "{" +:+ quoted "a" +:+ ": " +:+ quoted "b:c" +:+ "}".

(** The valid JSON text [{"a": {}, "b": {"c": 1}}]. *)
Definition nested_objects : string :=
  "{" +:+ quoted "a" +:+ ": {}, " +:+ quoted "b" +:+ ": {" +:+ quoted "c" +:+ ": 1}}".

(** An integer literal of 4301 digits, one more than [int] converts. *)
Definition long_integer : string :=
  string_of_list_ascii (repeat "1"%char 4301).

(** The JSON object [{"n": 111...1}] holding that integer. *)
Definition long_integer_object : string :=
  "{" +:+ quoted "n" +:+ ": " +:+ long_integer +:+ "}".

(** [n] empty arrays inside one another: [n] opening brackets, then [n]
    closing ones. *)
Definition nested_arrays (n : nat) : string :=
  string_of_list_ascii (repeat "["%char n ++ repeat "]"%char n).

End JsonSpec.

(** ** [json.dumps] *)

Module JsonDumps.
Import Py.

Definition hex4 (c : ascii) : string := "00" +:+ hex2 c.

(** [encode_basestring_ascii] without the surrounding quotes: the
    two-character escapes, and [\u00XX] for every other character outside
    the printable ASCII range. *)
Fixpoint escape_ascii (s : string) : string :=
  match s with
  | EmptyString => EmptyString
  | String c rest =>
      (if Ascii.eqb c "\" then "\\"
       else if Ascii.eqb c dquote then String "\" (String dquote EmptyString)
       else if Ascii.eqb c "008" then "\b"
       else if Ascii.eqb c "012" then "\f"
       else if Ascii.eqb c "010" then "\n"
       else if Ascii.eqb c "013" then "\r"
       else if Ascii.eqb c "009" then "\t"
       else if ((32 <=? N_of_ascii c) && (N_of_ascii c <=? 126))%N
            then String c EmptyString
       else "\u" +:+ hex4 c) +:+ escape_ascii rest
  end.

Definition encode_str (s : string) : string :=
  String dquote (escape_ascii s) +:+ String dquote EmptyString.

(** [float.__repr__] as [json.dumps] writes it. *)
Definition encode_float (repr : string) : string :=
  if String.eqb repr "nan" then "NaN"
  else if String.eqb repr "inf" then "Infinity"
  else if String.eqb repr "-inf" then "-Infinity"
  else repr.

(** [json.dumps(v)] with the default separators and no [sort_keys]: the
    items of a dictionary are written in its insertion order. *)
Fixpoint dumps (v : value) : string :=
  match v with
  | VNone => "null"
  | VBool true => "true"
  | VBool false => "false"
  | VInt z => str_of_Z z
  | VFloat r => encode_float r
  | VStr s => encode_str s
  | VList l => "[" +:+ join ", " (map dumps l) +:+ "]"
  | VDict d =>
      "{" +:+ join ", " (map (fun kv => encode_str (fst kv) +:+ ": " +:+ dumps (snd kv)) d)
          +:+ "}"
  end.

End JsonDumps.

(** ** [class ModelManager] *)

Module ModelManager.
Import Py Exn.

(** The fields of [Config] the manager reads. *)
Record Config : Type := {
  simulation_mode : bool;
  preload_models : bool;
  fallback_threshold : Z;
  max_retries : Z;
  min_response_length : Z
}.

(** [class ModelStatus] *)
Record ModelStatus : Type := {
  name : string;
  loaded : bool;
  healthy : bool;
  failure_count : Z;
  last_checked : option value;
  last_used : option value
}.

(** [ModelStatus(name=model_name)] *)
Definition new_status (model_name : string) : ModelStatus :=
  {| name := model_name; loaded := false; healthy := true; failure_count := 0;
     last_checked := None; last_used := None |}.

(** The mutable attributes of a [ModelManager]. *)
Record manager : Type := {
  config : Config;
  model_statuses : gmap string ModelStatus;
  active_model : option string;
  loaded_models : gset string
}.

Definition with_statuses (mm : manager) (statuses : gmap string ModelStatus) : manager :=
  {| config := config mm; model_statuses := statuses;
     active_model := active_model mm; loaded_models := loaded_models mm |}.

(** [_get_model_status]: the status object, created on first use. *)
Definition _get_model_status (mm : manager) (model_name : string)
  : ModelStatus * manager :=
  match model_statuses mm !! model_name with
  | Some status => (status, mm)
  | None =>
      (new_status model_name,
       with_statuses mm (<[model_name := new_status model_name]> (model_statuses mm)))
  end.

(** Write back a mutated status object. *)
Definition set_status (mm : manager) (model_name : string) (status : ModelStatus)
  : manager :=
  with_statuses mm (<[model_name := status]> (model_statuses mm)).

(** [_increment_failure_count] *)
Definition _increment_failure_count (mm : manager) (model_name : string) : manager :=
  let (status, mm) := _get_model_status mm model_name in
  let count := (failure_count status + 1)%Z in
  set_status mm model_name
    {| name := name status; loaded := loaded status;
       healthy := if (fallback_threshold (config mm) <=? count)%Z
                  then false else healthy status;
       failure_count := count;
       last_checked := last_checked status; last_used := last_used status |}.

(** The keyword arguments [_update_model_status] is called with. *)
Inductive status_update : Type :=
| set_loaded (b : bool)
| set_last_used (t : value).

(** [_update_model_status(model_name, **kwargs)] for one keyword. *)
Definition _update_model_status (mm : manager) (model_name : string)
    (kw : status_update) : manager :=
  let (status, mm) := _get_model_status mm model_name in
  set_status mm model_name
    match kw with
    | set_loaded b =>
        {| name := name status; loaded := b; healthy := healthy status;
           failure_count := failure_count status;
           last_checked := last_checked status; last_used := last_used status |}
    | set_last_used t =>
        {| name := name status; loaded := loaded status; healthy := healthy status;
           failure_count := failure_count status;
           last_checked := last_checked status; last_used := Some t |}
    end.

Section Backend.
(** The inference backend and the clock, as the manager sees them: a state
    [B], the exchange [_request] performs (endpoint, method, JSON body; it
    catches every exception and returns a dictionary), and [time.time()]. *)
Context {B : Type}.
Variable _request : string -> string -> option pydict -> B -> pydict * B.
Variable time_time : B -> value.

(** The body of the health probe. *)
Definition hello_probe (model_name : string) : pydict :=
  [("model", VStr model_name); ("prompt", VStr "Hello"); ("stream", VBool false)].

(** [check_model_health] of [pasture_core.py] (in [pasture.py] the same
    body sits under a retry decorator for client errors, which [_request]
    never lets through). *)
Definition check_model_health (mm : manager) (model_name : string) (b : B)
  : bool * manager * B :=
  if simulation_mode (config mm) then (true, mm, b)
  else
    let (status, mm) := _get_model_status mm model_name in
    if negb (healthy status) then (false, mm, b)
    else
      let (result, b) := _request "generate" "POST" (Some (hello_probe model_name)) b in
      let status :=
        {| name := name status; loaded := loaded status; healthy := healthy status;
           failure_count := failure_count status;
           last_checked := Some (time_time b); last_used := last_used status |} in
      let mm := set_status mm model_name status in
      if dict_in "error" result then
        (false, _increment_failure_count mm model_name, b)
      else if (0 <? failure_count status)%Z then
        (true,
         set_status mm model_name
           {| name := name status; loaded := loaded status; healthy := true;
              failure_count := 0;
              last_checked := last_checked status; last_used := last_used status |},
         b)
      else (true, mm, b).

(** [preload_model] *)
Definition preload_model (mm : manager) (model_name : string) (b : B)
  : bool * manager * B :=
  if simulation_mode (config mm) || bool_decide (model_name ∈ loaded_models mm)
  then (true, mm, b)
  else
    let (result, b) :=
      _request "generate" "POST"
               (Some [("model", VStr model_name); ("prompt", VStr EmptyString)]) b in
    if dict_in "error" result then
      (false, _increment_failure_count mm model_name, b)
    else
      let mm :=
        {| config := config mm; model_statuses := model_statuses mm;
           active_model := active_model mm;
           loaded_models := {[model_name]} ∪ loaded_models mm |} in
      (true, _update_model_status mm model_name (set_loaded true), b).

(** [unload_model] *)
Definition unload_model (mm : manager) (model_name : string) (b : B)
  : bool * manager * B :=
  if simulation_mode (config mm) then (true, mm, b)
  else
    let (result, b) :=
      _request "generate" "POST"
               (Some [("model", VStr model_name); ("prompt", VStr EmptyString);
                      ("keep_alive", VInt 0)]) b in
    if dict_in "error" result then (false, mm, b)
    else if bool_decide (model_name ∈ loaded_models mm) then
      let mm :=
        {| config := config mm; model_statuses := model_statuses mm;
           active_model := active_model mm;
           loaded_models := loaded_models mm ∖ {[model_name]} |} in
      (true, _update_model_status mm model_name (set_loaded false), b)
    else (true, mm, b).

(** The ways the manager changes its status table: a health check, a
    preload, an unload, and the two updates [generate_with_model] and
    [generate_with_chat] make (the time of use; one more failure). *)
Inductive manager_op : Type :=
| op_check_model_health (model_name : string)
| op_preload_model (model_name : string)
| op_unload_model (model_name : string)
| op_last_used (model_name : string)
| op_failure (model_name : string).

Definition apply_op (op : manager_op) (mm : manager) (b : B) : manager * B :=
  match op with
  | op_check_model_health m =>
      let '(_, mm, b) := check_model_health mm m b in (mm, b)
  | op_preload_model m => let '(_, mm, b) := preload_model mm m b in (mm, b)
  | op_unload_model m => let '(_, mm, b) := unload_model mm m b in (mm, b)
  | op_last_used m => (_update_model_status mm m (set_last_used (time_time b)), b)
  | op_failure m => (_increment_failure_count mm m, b)
  end.

Fixpoint apply_ops (ops : list manager_op) (mm : manager) (b : B) : manager * B :=
  match ops with
  | [] => (mm, b)
  | op :: ops' => let (mm, b) := apply_op op mm b in apply_ops ops' mm b
  end.
End Backend.

(** [_create_cache_key]: [json.dumps(options or {})] keeps the insertion
    order of [options]. *)
Definition _create_cache_key (model_name prompt : string) (options : option pydict)
  : string :=
  let options := match options with Some ((_ :: _) as o) => o | _ => [] end in
  model_name +:+ ":" +:+ prompt +:+ ":" +:+ JsonDumps.dumps (VDict options).

Section Cache.
(** [hashlib.md5(key.encode('utf-8')).hexdigest()] is left abstract. *)
Variable md5_hexdigest : string -> string.

(** [FileCache._hash_key] *)
Definition _hash_key (key : string) : string := md5_hexdigest key.

(** The file name of a cache entry, below the cache directory. *)
Definition cache_file_name (key : string) : string := _hash_key key +:+ ".json".
End Cache.

End ModelManager.

(** ** Steps ([ModelStep], [ChatModelStep]) *)

Module Steps.
Import Py Exn Str JSONProcessor.

(** An output schema: a Pydantic model class, through the methods the core
    calls.  [model_validate] stands for
    [schema.model_validate(data).model_dump()], which returns a dictionary or
    raises [ValidationError]; [schema_text] is
    [json.dumps(schema.model_json_schema(), indent=2)]. *)
Record Schema : Type := {
  model_validate : value -> result pydict;
  model_json_schema : pydict;
  schema_text : string
}.

(** The attributes of a [ModelStep]. *)
Record ModelStep : Type := {
  model_name : string;
  prompt_template : string;
  options : pydict;
  fallback_models : list string;
  output_schema : option Schema;
  use_patching : bool;
  max_patching_attempts : nat;
  patching_prompt : string;
  fallback_to_text : bool
}.

(** The attributes of a [ChatModelStep]. *)
Record ChatModelStep : Type := {
  chat_model_name : string;
  system_prompt : option string;
  chat_options : pydict;
  chat_fallback_models : list string;
  chat_output_schema : option Schema;
  chat_use_patching : bool;
  chat_max_patching_attempts : nat;
  chat_patching_prompt : string;
  chat_fallback_to_text : bool
}.

(** Coroutines of the core: they act on a world [W] (manager state,
    backend, clock) and return or raise. *)
Definition M (W A : Type) : Type := W -> result A * W.

Definition ret {W A} (a : A) : M W A := fun w => (Ok a, w).

Definition bind {W A C} (m : M W A) (k : A -> M W C) : M W C :=
  fun w => match m w with
           | (Ok a, w') => k a w'
           | (Raise e, w') => (Raise e, w')
           end.

(** [raise e] *)
Definition throw {W A} (e : exn) : M W A := fun w => (Raise e, w).

(** [try: body / except Exception as e: handler(e)] *)
Definition try_except {W A} (body : M W A) (handler : exn -> M W A) : M W A :=
  fun w => match body w with
           | (Ok a, w') => (Ok a, w')
           | (Raise e, w') => handler e w'
           end.

(** A pure computation that may raise, used as a coroutine step. *)
Definition lift {W A} (r : result A) : M W A := fun w => (r, w).

Declare Scope step_scope.
Delimit Scope step_scope with step.
Notation "x <- m ;; k" := (bind m (fun x => k))
  (at level 100, m at next level, right associativity) : step_scope.
Open Scope step_scope.

(** [str(e)] of a caught exception. *)
Definition str_of_exn (e : exn) : string :=
  match e with
  | JSONDecodeError => "Expecting value"
  | ValueError msg => msg
  | ValidationError details => details
  | KeyError key => repr_str key
  | OtherException msg => msg
  end.

(** [validate_with_schema]: only [ValidationError] is caught. *)
Definition validate_with_schema (data : value) (schema_model : Schema)
  : result (bool * pydict) :=
  match model_validate schema_model data with
  | Ok validated => Ok (true, validated)
  | Raise (ValidationError details) =>
      Ok (false, [("error", VStr "schema_validation_failed"); ("details", VStr details)])
  | Raise e => Raise e
  end.

Section Env.
Context {W : Type}.

(** The model manager, as a step uses it (the test suite replaces it by a
    mock with these three coroutines). *)
Variable check_model_health : string -> M W bool.
Variable generate_with_model : string -> string -> pydict -> M W pydict.
Variable generate_with_chat :
  string -> list value -> pydict -> option pydict -> M W pydict.

(** The Python runtime: [time.time()], the difference of two times,
    [template.format] applied to the entries of a dictionary as keyword
    arguments, [str.capitalize] and the number
    [min(t * 0.5, 0.3)] (which raises on a [t] that is no number). *)
Variable time_time : M W value.
Variable py_sub : value -> value -> value.
Variable str_format : string -> pydict -> result string.
Variable capitalize : string -> string.
Variable half_capped : value -> result value.

Definition newline : string := String "010" EmptyString.

(** The lines the fallback prompt and the chat context list for the
    earlier results: every entry of [data] that is a dictionary with a
    [response]. *)
Definition analysis_lines (suffix : string) (skip_query : bool) (data : pydict)
  : list string :=
  flat_map (fun kv =>
    if skip_query && String.eqb (fst kv) "query" then []
    else match snd kv with
         | VDict d =>
             match dict_get "response" d with
             | Some r => [capitalize (fst kv) +:+ suffix +:+ py_str r]
             | None => []
             end
         | _ => []
         end) data.

(** [ModelStep._format_prompt]: a [KeyError] of [format] leads to the
    fallback prompt; any other exception goes on. *)
Definition _format_prompt (self : ModelStep) (data : pydict) : result string :=
  match str_format (prompt_template self) data with
  | Ok prompt => Ok prompt
  | Raise (KeyError _) =>
      let prompt_parts :=
        (match dict_get "query" data with
         | Some q => ["Query: " +:+ py_str q]
         | None => []
         end) ++ analysis_lines " analysis: " false data in
      Ok (join (newline +:+ newline) prompt_parts +:+ newline +:+ newline
            +:+ "Please provide a detailed analysis.")
  | Raise e => Raise e
  end.

(** [JSONProcessor.patch_json_with_model], called with options and a
    schema.  The prompt is formatted before the [try].  The pair
    [(True, validated)] is [inl validated]; a pair [(False, obj)] is
    [inr obj]. *)
Definition patch_json_with_model (model_name : string) (input_text : value)
    (expected_schema : Schema) (patching_prompt : string) (options : pydict)
  : M W (pydict + value) :=
  head <- lift (str_format patching_prompt
                  [("schema", VStr (schema_text expected_schema))]) ;;
  let fix_prompt :=
    head +:+ newline +:+ newline +:+ "Previous output:" +:+ newline
         +:+ py_str input_text in
  try_except
    (result <- generate_with_model model_name fix_prompt options ;;
     if dict_in "error" result then
       ret (inr (VDict [("error", VStr "patching_failed"); ("response", input_text)]))
     else
       let fixed_text :=
         match dict_get "response" result with
         | Some t => t
         | None => VStr EmptyString
         end in
       match fixed_text with
       | VStr text =>
           let decoded :=
             match extract_json text with
             | Some (String _ _ as json_str) => Json.loads json_str
             | _ => Json.loads text
             end in
           match decoded with
           | Ok fixed_json =>
               checked <- lift (validate_with_schema fixed_json expected_schema) ;;
               let (is_valid, validated_data) := (checked : bool * pydict) in
               if is_valid then ret (inl validated_data)
               else ret (inr fixed_json)
           | Raise JSONDecodeError =>
               ret (inr (VDict [("response", fixed_text);
                                ("error", VStr "patching_failed")]))
           | Raise e => throw e
           end
       | _ => throw (OtherException "expected string or bytes-like object")
       end)
    (fun e =>
       ret (inr (VDict [("error", VStr "patching_exception");
                        ("response", input_text);
                        ("details", VStr (str_of_exn e))]))).

(** The loop of [_patch_json_output] over the remaining attempts. *)
Fixpoint patch_attempts (attempts : nat) (model_name : string)
    (schema : Schema) (patching_prompt : string) (patching_options : pydict)
    (output_text : value) : M W (option pydict) :=
  match attempts with
  | O => ret None
  | S attempts' =>
      attempt <- patch_json_with_model model_name output_text schema patching_prompt
                                       patching_options ;;
      match attempt with
      | inl patched_json => ret (Some patched_json)
      | inr patched_json =>
          let output_text :=
            match patched_json with
            | VDict d =>
                match dict_get "response" d with
                | Some r => r
                | None => output_text
                end
            | _ => output_text
            end in
          patch_attempts attempts' model_name schema patching_prompt patching_options
                         output_text
      end
  end.

(** [_patch_json_output], the same in both step classes. *)
Definition _patch_json_output (model_name : string) (options : pydict)
    (schema : Schema) (use_patching : bool) (max_patching_attempts : nat)
    (patching_prompt : string) (output_text : value) : M W (option pydict) :=
  if negb use_patching || (max_patching_attempts =? 0)%nat then ret None
  else
    temperature <- lift (half_capped
                           (match dict_get "temperature" options with
                            | Some t => t
                            | None => VFloat "0.7"
                            end)) ;;
    let patching_options := dict_set "temperature" temperature options in
    patch_attempts max_patching_attempts model_name schema patching_prompt
                   patching_options output_text.

(** A step result: the dictionary [execute] and [get_fallback] return. *)
Definition step_result (output : value) (time : value) (model : string)
    (status : string) (extra : pydict) : pydict :=
  [("output", output); ("time", time); ("model", VStr model);
   ("status", VStr status)] ++ extra.

Definition status_of (result : pydict) : string :=
  if dict_in "error" result then "error" else "success".

(** [ModelStep.get_fallback]: the loop over the fallback models, then the
    result for the case that none answered. *)
Fixpoint try_fallbacks (self : ModelStep) (data : pydict)
    (candidates : list string) : M W pydict :=
  match candidates with
  | [] =>
      ret (step_result
             (VDict [("response", VStr "All models failed to generate a response");
                     ("error", VStr "all_models_failed")])
             (VInt 0) (model_name self) "error" [("fallback", VBool true)])
  | fallback_model :: rest =>
      is_healthy <- check_model_health fallback_model ;;
      if negb is_healthy then try_fallbacks self data rest
      else
        prompt <- lift (_format_prompt self data) ;;
        start_time <- time_time ;;
        result <- generate_with_model fallback_model prompt (options self) ;;
        end_time <- time_time ;;
        if negb (dict_in "error" result) then
          ret (step_result (VDict result) (py_sub end_time start_time)
                           fallback_model "success"
                           [("prompt", VStr prompt); ("fallback", VBool true)])
        else try_fallbacks self data rest
  end.

Definition get_fallback (self : ModelStep) (data : pydict) : M W pydict :=
  try_fallbacks self data (fallback_models self).

(** The schema branch of [ModelStep.execute] once the response is a string
    that looks like a JSON object: what [result] becomes. *)
Definition completion_json_branch (self : ModelStep) (schema : Schema)
    (result : pydict) (response_obj : string) : M W pydict :=
  let patch_or_wrap : M W pydict :=
    if use_patching self then
      patched <- _patch_json_output (model_name self) (options self) schema
                   (use_patching self) (max_patching_attempts self)
                   (patching_prompt self) (VStr response_obj) ;;
      match patched with
      | Some ((_ :: _) as p) => ret p
      | _ =>
          if fallback_to_text self
          then lift (wrap_text_as_json (VStr response_obj))
          else ret result
      end
    else if fallback_to_text self
         then lift (wrap_text_as_json (VStr response_obj))
         else ret result in
  match Json.loads response_obj with
  | Ok parsed_json =>
      checked <- lift (validate_with_schema parsed_json schema) ;;
      let (is_valid, validated_data) := (checked : bool * pydict) in
      if is_valid then ret validated_data else patch_or_wrap
  | Raise JSONDecodeError => patch_or_wrap
  | Raise e => throw e
  end.

(** The block [if self.output_schema:] of [ModelStep.execute], with its
    own handler. *)
Definition completion_postprocess (self : ModelStep) (result : pydict)
  : M W pydict :=
  match output_schema self with
  | None => ret result
  | Some schema =>
      let response_obj :=
        match dict_get "response" result with
        | Some r => r
        | None => VStr EmptyString
        end in
      try_except
        (match response_obj with
         | VStr s =>
             if looks_like_json_object s
             then completion_json_branch self schema result s
             else if fallback_to_text self
                  then lift (wrap_text_as_json response_obj)
                  else ret result
         | _ =>
             if fallback_to_text self
             then lift (wrap_text_as_json response_obj)
             else ret result
         end)
        (fun _ =>
           if fallback_to_text self
           then lift (wrap_text_as_json response_obj)
           else ret result)
  end.

(** [ModelStep.execute] *)
Definition execute (self : ModelStep) (data : pydict) : M W pydict :=
  try_except
    (is_healthy <- check_model_health (model_name self) ;;
     if negb is_healthy && negb (bool_decide (fallback_models self = []))
     then get_fallback self data
     else
       prompt <- lift (_format_prompt self data) ;;
       start_time <- time_time ;;
       result <- generate_with_model (model_name self) prompt (options self) ;;
       end_time <- time_time ;;
       let execution_time := py_sub end_time start_time in
       if dict_in "error" result && negb (bool_decide (fallback_models self = []))
       then get_fallback self data
       else
         result <- completion_postprocess self result ;;
         ret (step_result (VDict result) execution_time (model_name self)
                          (status_of result) [("prompt", VStr prompt)]))
    (fun e =>
       if negb (bool_decide (fallback_models self = []))
       then get_fallback self data
       else
         ret (step_result
                (VDict [("response", VStr ("Error: " +:+ str_of_exn e));
                        ("error", VStr "execution_error")])
                (VInt 0) (model_name self) "error"
                [("error_details", VStr (str_of_exn e))])).

(** [ChatModelStep._prepare_messages] *)
Definition _prepare_messages (self : ChatModelStep) (data : pydict)
  : result (list value) :=
  let has_system :=
    match system_prompt self with
    | Some (String _ _) => true
    | _ => false
    end in
  let messages :=
    match system_prompt self with
    | Some (String _ _ as p) =>
        [VDict [("role", VStr "system"); ("content", VStr p)]]
    | _ => []
    end in
  match dict_get "messages" data with
  | Some (VList given) =>
      if has_system then
        (fix keep (ms : list value) (acc : list value) : result (list value) :=
           match ms with
           | [] => Ok (messages ++ acc)
           | (VDict d as m) :: ms' =>
               match dict_get "role" d with
               | Some (VStr "system") => keep ms' acc
               | _ => keep ms' (acc ++ [m])
               end
           | m :: _ => Raise (attribute_error m "get")
           end) given []
      else Ok (messages ++ given)
  | _ =>
      let messages :=
        messages ++
        match dict_get "query" data with
        | Some q => [VDict [("role", VStr "user"); ("content", q)]]
        | None => []
        end in
      match analysis_lines " analysis: " true data with
      | (_ :: _) as context_parts =>
          if has_system then Ok messages
          else Ok (VDict [("role", VStr "system");
                          ("content", VStr ("Context:" +:+ newline +:+
                             join (newline +:+ newline) context_parts))]
                     :: messages)
      | [] => Ok messages
      end
  end.

(** [format_options]: the JSON schema of the output schema, if any. *)
Definition format_options_of (self : ChatModelStep) : option pydict :=
  match chat_output_schema self with
  | Some schema => Some (model_json_schema schema)
  | None => None
  end.

(** [ChatModelStep.get_fallback] *)
Fixpoint chat_try_fallbacks (self : ChatModelStep) (data : pydict)
    (candidates : list string) : M W pydict :=
  match candidates with
  | [] =>
      ret (step_result
             (VDict [("message",
                      VDict [("content", VStr "All models failed to generate a response")]);
                     ("error", VStr "all_models_failed")])
             (VInt 0) (chat_model_name self) "error" [("fallback", VBool true)])
  | fallback_model :: rest =>
      is_healthy <- check_model_health fallback_model ;;
      if negb is_healthy then chat_try_fallbacks self data rest
      else
        messages <- lift (_prepare_messages self data) ;;
        start_time <- time_time ;;
        result <- generate_with_chat fallback_model messages (chat_options self)
                                     (format_options_of self) ;;
        end_time <- time_time ;;
        if negb (dict_in "error" result) then
          ret (step_result (VDict result) (py_sub end_time start_time)
                           fallback_model "success"
                           [("messages", VList messages); ("fallback", VBool true)])
        else chat_try_fallbacks self data rest
  end.

Definition chat_get_fallback (self : ChatModelStep) (data : pydict) : M W pydict :=
  chat_try_fallbacks self data (chat_fallback_models self).

(** The schema branch of [ChatModelStep.execute] once the response is a
    string that looks like a JSON object: what [result] becomes.  The
    validated or patched object is stored under [parsed_output]. *)
Definition chat_json_branch (self : ChatModelStep) (schema : Schema)
    (result : pydict) (response_text : string) : M W pydict :=
  let patch : M W pydict :=
    if chat_use_patching self then
      patched <- _patch_json_output (chat_model_name self) (chat_options self) schema
                   (chat_use_patching self) (chat_max_patching_attempts self)
                   (chat_patching_prompt self) (VStr response_text) ;;
      match patched with
      | Some ((_ :: _) as p) => ret (dict_set "parsed_output" (VDict p) result)
      | _ => ret result
      end
    else ret result in
  match Json.loads response_text with
  | Ok parsed_json =>
      checked <- lift (validate_with_schema parsed_json schema) ;;
      let (is_valid, validated_data) := (checked : bool * pydict) in
      if is_valid then ret (dict_set "parsed_output" (VDict validated_data) result)
      else patch
  | Raise JSONDecodeError => patch
  | Raise e => throw e
  end.

(** The block [if self.output_schema and "response" in result:] of
    [ChatModelStep.execute]. *)
Definition chat_postprocess (self : ChatModelStep) (result : pydict)
  : M W pydict :=
  match chat_output_schema self, dict_get "response" result with
  | Some schema, Some (VStr response_text) =>
      if looks_like_json_object response_text
      then chat_json_branch self schema result response_text
      else ret result
  | _, _ => ret result
  end.

(** [ChatModelStep.execute] of [pasture_core.py]. *)
Definition chat_execute (self : ChatModelStep) (data : pydict) : M W pydict :=
  try_except
    (is_healthy <- check_model_health (chat_model_name self) ;;
     if negb is_healthy && negb (bool_decide (chat_fallback_models self = []))
     then chat_get_fallback self data
     else
       messages <- lift (_prepare_messages self data) ;;
       start_time <- time_time ;;
       result <- generate_with_chat (chat_model_name self) messages
                   (chat_options self) (format_options_of self) ;;
       end_time <- time_time ;;
       let execution_time := py_sub end_time start_time in
       if dict_in "error" result && negb (bool_decide (chat_fallback_models self = []))
       then chat_get_fallback self data
       else
         result <- chat_postprocess self result ;;
         ret (step_result (VDict result) execution_time (chat_model_name self)
                          (status_of result) [("messages", VList messages)]))
    (fun e =>
       if negb (bool_decide (chat_fallback_models self = []))
       then chat_get_fallback self data
       else
         ret (step_result
                (VDict [("message", VDict [("content", VStr ("Error: " +:+ str_of_exn e))]);
                        ("error", VStr "execution_error")])
                (VInt 0) (chat_model_name self) "error"
                [("error_details", VStr (str_of_exn e))])).

End Env.
End Steps.
(** ** Pipeline ([class Pipeline]) *)

Module Pipeline.
Import Py Exn.

(** What awaiting [step.execute(robust_data)] under [asyncio.wait_for] can
    do: return a dictionary, run into [asyncio.TimeoutError], or raise
    another [Exception] (carried by its [str]). *)
Inductive outcome : Type :=
| Returned (result : pydict)
| TimedOut
| Raised (msg : string).

(** An [AnalysisStep] object over a world [W] (model manager, backend,
    clock): its [execute] coroutine and its optional [model_name]
    attribute. *)
Record AnalysisStep (W : Type) : Type := {
  execute : pydict -> W -> outcome * W;
  model_name : option string
}.
Arguments execute {W}.
Arguments model_name {W}.


(** *** Cycle detection ([Pipeline._validate_steps]) *)

(** What a call of the nested [dfs] does: return with the [visited] set it
    leaves behind, or raise [ValueError] for a cycle; [NoFuel] stands for an
    exhausted recursion budget. *)
Inductive dfs_result : Type :=
| Done (visited : gset string)
| Cycle (cycle : list string)
| NoFuel.

(** [path[path.index(node):]] *)
Fixpoint from_first (node : string) (path : list string) : list string :=
  match path with
  | [] => []
  | x :: path' => if String.eqb x node then path else from_first node path'
  end.

(** The loop [for dep in graph.get(node, []):] in the body of [dfs];
    [rec] is the recursive call [dfs(dep)] on the current [visited] set.  A
    dependency that is no key of the graph is only logged. *)
Definition visit (rec : gset string -> string -> dfs_result)
    (graph : list (string * list string))
  : list string -> gset string -> dfs_result :=
  fix visit (deps : list string) (visited : gset string) : dfs_result :=
    match deps with
    | [] => Done visited
    | dep :: deps' =>
        if dict_in dep graph then
          match rec visited dep with
          | Done visited' => visit deps' visited'
          | r => r
          end
        else visit deps' visited
    end.

(** The nested function [dfs(node)].  [path] is the list the code appends
    to and pops from; it is passed down and so restored on return. *)
Fixpoint dfs (fuel : nat) (graph : list (string * list string))
    (path : list string) (visited : gset string) (node : string) : dfs_result :=
  match fuel with
  | O => NoFuel
  | S fuel' =>
      if bool_decide (node ∈ path) then Cycle (from_first node path ++ [node])
      else if bool_decide (node ∈ visited) then Done visited
      else
        visit (dfs fuel' graph (path ++ [node])) graph
              (match dict_get node graph with Some deps => deps | None => [] end)
              ({[node]} ∪ visited)
  end.

(** [for node in graph: dfs(node)] *)
Fixpoint dfs_all (fuel : nat) (graph : list (string * list string))
    (nodes : list string) (visited : gset string) : dfs_result :=
  match nodes with
  | [] => Done visited
  | node :: nodes' =>
      match dfs fuel graph [] visited node with
      | Done visited' => dfs_all fuel graph nodes' visited'
      | r => r
      end
  end.

(** [_validate_steps] on a dependency graph.  The recursion of [dfs] is
    at most as deep as the graph has nodes, plus the call that returns. *)
Definition validate_graph (graph : list (string * list string)) : dfs_result :=
  dfs_all (S (length graph)) graph (dict_keys graph) ∅.

(** The message of the [ValueError]. *)
Definition circular_dependency (cycle : list string) : exn :=
  ValueError ("Circular dependency detected: " +:+ join " -> " cycle).

Section Run.
Context {W : Type}.

(** [self.steps]: a list of [(name, step, dependencies)]. *)
Definition steps_t : Type := list (string * AnalysisStep W * list string).

(** [results]: step name to result dictionary. *)
Definition results_t : Type := list (string * pydict).

(** The state of [run]'s locals, with the list of [execute] calls made
    so far ([calls] is ghost state: step name and the data passed). *)
Record run_state : Type := {
  results : results_t;
  data : pydict;
  calls : list (string * pydict);
  world : W
}.

(** The dependency graph of [_validate_steps]:
    [for name, _, deps in self.steps: graph[name] = deps]. *)
Definition graph_of (steps : steps_t) : list (string * list string) :=
  fold_left (fun graph s => dict_set (fst (fst s)) (snd s) graph) steps [].

(** A constructed [Pipeline] object. *)
Record pipeline : Type := { pipeline_steps : steps_t }.

(** [Pipeline.__init__]: store the steps and validate them.  [None] marks
    an exhausted recursion budget of the model. *)
Definition init (steps : steps_t) : option (result pipeline) :=
  match validate_graph (graph_of steps) with
  | Done _ => Some (Ok {| pipeline_steps := steps |})
  | Cycle cycle => Some (Raise (circular_dependency cycle))
  | NoFuel => None
  end.

(** [{name: deps for name, _, deps in self.steps}] *)
Definition remaining_of (steps : steps_t) : list (string * list string) :=
  fold_left (fun acc s => dict_set (fst (fst s)) (snd s) acc) steps [].

(** [[name for name, deps in remaining_steps.items()
      if all(dep in results for dep in deps)]] *)
Definition ready_steps (results : results_t)
    (remaining_steps : list (string * list string)) : list string :=
  map fst
    (List.filter (fun nd => forallb (fun dep => dict_in dep results) (snd nd))
            remaining_steps).

(** The [while remaining_steps:] loop of [run].  [results] is the
    dictionary of [run], which is still empty while the plan is built.
    [None] stands for an exhausted iteration budget. *)
Fixpoint plan_loop (fuel : nat) (results : results_t)
    (remaining_steps : list (string * list string))
    (execution_plan : list string) : option (list string) :=
  match remaining_steps with
  | [] => Some execution_plan
  | _ :: _ =>
      match ready_steps results remaining_steps with
      | [] => Some execution_plan
      | (_ :: _) as ready =>
          match fuel with
          | O => None
          | S fuel' =>
              plan_loop fuel' results
                (fold_left (fun rem name => dict_del name rem) ready remaining_steps)
                (execution_plan ++ ready)
          end
      end
  end.

Definition execution_plan_of (steps : steps_t) (results : results_t)
  : option (list string) :=
  let remaining_steps := remaining_of steps in
  plan_loop (length remaining_steps) results remaining_steps [].

(** [next((s for s in self.steps if s[0] == step_name), None)] *)
Definition find_step (steps : steps_t) (step_name : string)
  : option (string * AnalysisStep W * list string) :=
  List.find (fun s => String.eqb (fst (fst s)) step_name) steps.

(** [getattr(step, "model_name", "unknown")] *)
Definition model_name_or_unknown (step : AnalysisStep W) : value :=
  VStr (match model_name step with Some m => m | None => "unknown" end).

(** The output a previous result contributes to the data of a later
    step: [prev_result.get("output", {})], wrapped when not a dict. *)
Definition prev_output_of (prev_result : pydict) : value :=
  match dict_get "output" prev_result with
  | None => VDict []
  | Some (VDict d) => VDict d
  | Some v => VDict [("response", VStr (py_str v))]
  end.

(** [robust_data = input_data.copy()] followed by the loop over
    [results.items()]. *)
Definition robust_data_of (input_data : pydict) (results : results_t) : pydict :=
  fold_left (fun rd pr => dict_set (fst pr) (prev_output_of (snd pr)) rd)
            results input_data.

Definition missing_dependencies_result (step : AnalysisStep W)
    (missing_deps : list string) : pydict :=
  [("output", VDict [("response", VStr ("Missing dependencies: " +:+
                                          py_str (VList (map VStr missing_deps))));
                     ("error", VStr "missing_dependencies")]);
   ("time", VInt 0);
   ("status", VStr "error");
   ("model", model_name_or_unknown step)].

Definition timeout_result (step : AnalysisStep W) : pydict :=
  [("output", VDict [("response", VStr "Execution timed out after 300s");
                     ("error", VStr "timeout")]);
   ("time", VInt 300);
   ("model", model_name_or_unknown step);
   ("status", VStr "error")].

Definition execution_error_result (msg : string) : pydict :=
  [("output", VDict [("response", VStr ("Error: " +:+ msg));
                     ("error", VStr "execution_error")]);
   ("time", VInt 0);
   ("status", VStr "error")].

(** The placeholder written to [data] for a failed step. *)
Definition step_failed_placeholder (name : string) : value :=
  VDict [("response", VStr ("Step " +:+ name +:+ " failed"));
         ("error", VStr "step_failed")].

(** The part of the loop body after [result] is known:
    [results[name] = result] and the update of [data]; a success without
    an [output] key raises [KeyError('output')] into the outer handler. *)
Definition record_result (name : string) (result : pydict)
    (calls' : list (string * pydict)) (w' : W) (st : run_state) : run_state :=
  let results' := dict_set name result (results st) in
  match dict_get "status" result with
  | Some (VStr "success") =>
      match dict_get "output" result with
      | Some out =>
          {| results := results'; data := dict_set name out (data st);
             calls := calls'; world := w' |}
      | None =>
          {| results := dict_set name (execution_error_result (repr_str "output"))
                                 results';
             data := data st; calls := calls'; world := w' |}
      end
  | _ =>
      {| results := results';
         data := dict_set name (step_failed_placeholder name) (data st);
         calls := calls'; world := w' |}
  end.

(** One iteration of [for step_name in execution_plan:]. *)
Definition run_step (steps : steps_t) (input_data : pydict)
    (st : run_state) (step_name : string) : run_state :=
  match find_step steps step_name with
  | None => st
  | Some (name, step, dependencies) =>
      match List.filter (fun dep => negb (dict_in dep (results st))) dependencies with
      | (_ :: _) as missing_deps =>
          {| results := dict_set name (missing_dependencies_result step missing_deps)
                                 (results st);
             data := data st; calls := calls st; world := world st |}
      | [] =>
          let robust_data := robust_data_of input_data (results st) in
          let calls' := calls st ++ [(name, robust_data)] in
          match execute step robust_data (world st) with
          | (Returned result, w') => record_result name result calls' w' st
          | (TimedOut, w') => record_result name (timeout_result step) calls' w' st
          | (Raised msg, w') =>
              {| results := dict_set name (execution_error_result msg) (results st);
                 data := data st; calls := calls'; world := w' |}
          end
      end
  end.

(** [sum(1 for r in results.values() if r.get("status") == "success")] *)
Definition success_count_of (results : results_t) : nat :=
  length (List.filter (fun nr => match dict_get "status" (snd nr) with
                            | Some (VStr "success") => true
                            | _ => false
                            end) results).

(** What [run] returns (without the wall-clock [total_time] and the
    derived [success_rate] string), together with the final state. *)
Record run_result : Type := {
  final : run_state;
  success_count : nat;
  total_count : nat
}.

(** [Pipeline.run(self, input_data)]; [None] marks an exhausted
    iteration budget of the planning loop. *)
Definition run (self : pipeline) (input_data : pydict) (w : W)
  : option run_result :=
  let steps := pipeline_steps self in
  let start := {| results := []; data := input_data; calls := []; world := w |} in
  match execution_plan_of steps (results start) with
  | None => None
  | Some execution_plan =>
      let st := fold_left (run_step steps input_data) execution_plan start in
      Some {| final := st;
              success_count := success_count_of (results st);
              total_count := length (results st) |}
  end.
End Run.

Arguments steps_t : clear implicits.
Arguments pipeline : clear implicits.
Arguments run_state : clear implicits.
Arguments run_result : clear implicits.

End Pipeline.

(** ** Notions used to state the properties of the pipeline *)

Module PipelineSpec.
Import Py Exn Pipeline.

Section Graph.
Variable graph : list (string * list string).

(** [v] is a dependency of the step [u], and both are steps of the graph. *)
Definition edge (u v : string) : Prop :=
  exists deps, dict_get u graph = Some deps /\ v ∈ deps /\ dict_in v graph = true.

(** Consecutive names are joined by edges. *)
Fixpoint is_walk (l : list string) : Prop :=
  match l with
  | x :: l' =>
      match l' with
      | y :: _ => edge x y /\ is_walk l'
      | [] => True
      end
  | [] => True
  end.

(** A walk that ends where it starts, as [a -> b -> a]. *)
Definition closed_walk (c : list string) : Prop :=
  exists x mid, c = x :: mid ++ [x] /\ is_walk c.

(** The graph has a cycle among its defined steps. *)
Definition cyclic : Prop := exists u, tc edge u u.

(** A step is finished when visited and no longer on the path. *)
Definition black (visited : gset string) (path : list string) (u : string) : Prop :=
  u ∈ visited /\ u ∉ path.

Definition closed (visited : gset string) (path : list string) : Prop :=
  forall u v, black visited path u -> edge u v -> black visited path v.

Definition nocyc (visited : gset string) (path : list string) : Prop :=
  forall u, black visited path u -> ~ tc edge u u.

(** What [dfs] and the loop [visit] need on entry. *)
Definition dfs_pre (path : list string) (visited : gset string) : Prop :=
  (forall x, x ∈ path -> x ∈ visited) /\ closed visited path /\ nocyc visited path.

(** The number of steps of the graph not yet visited. *)
Definition unvisited (visited : gset string) : nat :=
  size ((list_to_set (dict_keys graph) : gset string) ∖ visited).

(** What a call [dfs(node)] guarantees. *)
Definition dfs_post (path : list string) (visited : gset string) (node : string)
    (r : dfs_result) : Prop :=
  match r with
  | NoFuel => False
  | Cycle c => closed_walk c
  | Done visited' =>
      visited ⊆ visited' /\ black visited' path node /\
      closed visited' path /\ nocyc visited' path
  end.

(** What the loop over the dependencies guarantees. *)
Definition visit_post (path : list string) (visited : gset string)
    (deps : list string) (r : dfs_result) : Prop :=
  match r with
  | NoFuel => False
  | Cycle c => closed_walk c
  | Done visited' =>
      visited ⊆ visited' /\ closed visited' path /\ nocyc visited' path /\
      (forall d, d ∈ deps -> dict_in d graph = true -> black visited' path d)
  end.
End Graph.

Section Run.
Context {W : Type}.

(** Removing a list of names from a dictionary, one by one. *)
Definition del_all (names : list string) (rem : list (string * list string)) :=
  fold_left (fun r name => dict_del name r) names rem.

(** [p] is bound in [d] to the output recorded for it in [res]. *)
Definition bound_to_recorded (res : @results_t) (d : pydict) (p : string) : Prop :=
  exists r, dict_get p res = Some r /\ dict_get p d = Some (prev_output_of r).

(** The invariant of the loop of [run] over the steps [done] so far. *)
Record inv (st : run_state W) (done : list string) : Prop := {
  inv_nodup : NoDup (dict_keys (results st));
  inv_done : forall x, x ∈ dict_keys (results st) -> x ∈ done;
  inv_called : forall n d, (n, d) ∈ calls st -> n ∈ dict_keys (results st);
  inv_calls : forall l1 n d l2, calls st = l1 ++ (n, d) :: l2 ->
              forall p dp, (p, dp) ∈ l1 -> bound_to_recorded (results st) d p
}.
End Run.

(** *** Steps used in examples *)

(** A step whose [execute] returns an error result, as the mock step of
    the test suite does. *)
Definition failing_step (name : string) : AnalysisStep unit :=
  {| execute := fun _ w =>
       (Returned [("output", VDict [("response", VStr ("Error from " +:+ name));
                                    ("error", VStr "mock_error")]);
                  ("time", VInt 0);
                  ("model", VStr name);
                  ("status", VStr "error")], w);
     model_name := Some name |}.

(** A step whose [execute] does not return within the step timeout. *)
Definition hanging_step (name : string) : AnalysisStep unit :=
  {| execute := fun _ w => (TimedOut, w); model_name := Some name |}.

Definition succeeding_step (name : string) : AnalysisStep unit :=
  {| execute := fun _ w =>
       (Returned [("output", VDict [("response", VStr ("Response from " +:+ name))]);
                  ("time", VInt 0);
                  ("model", VStr name);
                  ("status", VStr "success")], w);
     model_name := Some name |}.

Definition failing_pipeline : steps_t unit :=
  [("A", hanging_step "A", []); ("B", failing_step "B", []);
   ("C", succeeding_step "C", [])].

End PipelineSpec.

(** ** Notions used to state the properties of the model manager *)

Module ModelManagerSpec.
Import Py Exn ModelManager.

(** The model has a status entry and is marked unhealthy. *)
Definition unhealthy (mm : manager) (model_name : string) : Prop :=
  exists status, model_statuses mm !! model_name = Some status /\
                 healthy status = false.

(** Two option dictionaries hold the same key-value pairs. *)
Definition same_items (o1 o2 : pydict) : Prop :=
  forall k, dict_get k o1 = dict_get k o2.

(** The text [json.dumps] writes between the braces of a dictionary. *)
Definition dumps_items (d : pydict) : string :=
  join ", " (map (fun kv => JsonDumps.encode_str (fst kv) +:+ ": " +:+
                            JsonDumps.dumps (snd kv)) d).

(** Two option dictionaries list their keys in the same insertion order. *)
Definition same_order (o1 o2 : pydict) : Prop := dict_keys o1 = dict_keys o2.

(** A backend for examples: its state counts the requests received; the
    first [failures] requests are answered with HTTP 500, later ones with a
    generated response. *)
Definition flaky_backend (failures : nat)
    (endpoint method : string) (json_data : option pydict) (n : nat)
  : pydict * nat :=
  (if (n <? failures)%nat
   then [("error", VStr "HTTP 500"); ("details", VStr "Internal Server Error")]
   else [("model", VStr "M"); ("response", VStr "Hello! How can I help?")],
   S n).

Definition example_config : Config :=
  {| simulation_mode := false; preload_models := true; fallback_threshold := 2;
     max_retries := 2; min_response_length := 10 |}.

Definition fresh_manager : manager :=
  {| config := example_config; model_statuses := ∅; active_model := None;
     loaded_models := ∅ |}.

(** The manager after two failed health checks of model [M]. *)
Definition manager_after_two_failures : manager * nat :=
  apply_ops (flaky_backend 2) (fun _ => VNone)
            [op_check_model_health "M"; op_check_model_health "M"] fresh_manager 0%nat.

(** The manager after one failed health check of model [M]. *)
Definition manager_after_one_failure : manager * nat :=
  apply_ops (flaky_backend 1) (fun _ => VNone)
            [op_check_model_health "M"] fresh_manager 0%nat.

(** Two option dictionaries with the same items in different insertion
    order. *)
Definition options_a : pydict := [("temperature", VFloat "0.7"); ("top_p", VFloat "0.9")].
Definition options_b : pydict := [("top_p", VFloat "0.9"); ("temperature", VFloat "0.7")].

End ModelManagerSpec.

(** ** Notions used to state the properties of the steps *)

Module StepsSpec.
Import Py Exn Str JSONProcessor Steps.

(** Every result the coroutine [m] can return satisfies [P]. *)
Definition returns {W A : Type} (P : A -> Prop) (m : M W A) : Prop :=
  forall w a w', m w = (Ok a, w') -> P a.

(** What a step result with [fallback = True] looks like: a success whose
    [output] is the answer [res] of one of the [candidates] and whose [model]
    names that candidate, or the report that no candidate answered, which
    names the step's own model.  [answered m res] says that the candidate [m]
    answered with [res]. *)
Definition fallback_shape (answered : string -> pydict -> Prop)
    (own_model : string) (candidates : list string) (r : pydict) : Prop :=
  dict_get "fallback" r = Some (VBool true) /\
  ((dict_get "status" r = Some (VStr "success") /\
    exists m res, m ∈ candidates /\ answered m res /\
                  dict_get "model" r = Some (VStr m) /\
                  dict_get "output" r = Some (VDict res)) \/
   (dict_get "status" r = Some (VStr "error") /\
    dict_get "model" r = Some (VStr own_model) /\
    exists out, dict_get "output" r = Some (VDict out) /\
                dict_get "error" out = Some (VStr "all_models_failed"))).

(** A step result either carries no [fallback] key or has the shape
    above. *)
Definition fallback_or_plain (answered : string -> pydict -> Prop)
    (own_model : string) (candidates : list string) (r : pydict) : Prop :=
  dict_get "fallback" r = None \/ fallback_shape answered own_model candidates r.

Section Answered.
Context {W : Type}.
Variable check_model_health : string -> M W bool.
Variable generate_with_model : string -> string -> pydict -> M W pydict.
Variable generate_with_chat :
  string -> list value -> pydict -> option pydict -> M W pydict.

(** A health check of the model [m] returned [True]. *)
Definition passed_health_check (m : string) : Prop :=
  exists w w', check_model_health m w = (Ok true, w').

(** The candidate [m] answered a completion step with [res]: its health
    check passed and a generation by [m] with the step's options returned
    [res], which has no [error] key. *)
Definition completion_answered (self : ModelStep) (m : string) (res : pydict)
  : Prop :=
  passed_health_check m /\ dict_in "error" res = false /\
  exists prompt w w', generate_with_model m prompt (options self) w = (Ok res, w').

(** The candidate [m] answered a chat step with [res]: its health check
    passed and a chat with [m], with the step's options and format, returned
    [res], which has no [error] key. *)
Definition chat_answered (self : ChatModelStep) (m : string) (res : pydict)
  : Prop :=
  passed_health_check m /\ dict_in "error" res = false /\
  exists messages w w',
    generate_with_chat m messages (chat_options self) (format_options_of self) w
    = (Ok res, w').
End Answered.

(** The completion step with the configuration of a chat step. *)
Definition as_completion (c : ChatModelStep) (template : string) : ModelStep :=
  {| model_name := chat_model_name c; prompt_template := template;
     options := chat_options c; fallback_models := chat_fallback_models c;
     output_schema := chat_output_schema c; use_patching := chat_use_patching c;
     max_patching_attempts := chat_max_patching_attempts c;
     patching_prompt := chat_patching_prompt c;
     fallback_to_text := chat_fallback_to_text c |}.

Section Env.
Context {W : Type}.
Variable generate_with_model : string -> string -> pydict -> M W pydict.
Variable str_format : string -> pydict -> result string.
Variable half_capped : value -> result value.

(** The object both step classes derive from a response that looks like a
    JSON object: the validated object, else the first non-empty object the
    patch loop yields, else nothing. *)
Definition schema_object (model : string) (opts : pydict) (schema : Schema)
    (patching : bool) (attempts : nat) (prompt : string) (text : string)
  : M W (option pydict) :=
  let patch : M W (option pydict) :=
    if patching then
      patched <- _patch_json_output generate_with_model str_format half_capped
                   model opts schema patching attempts prompt (VStr text) ;;
      match patched with
      | Some ((_ :: _) as p) => ret (Some p)
      | _ => ret None
      end
    else ret None in
  match Json.loads text with
  | Ok parsed_json =>
      checked <- lift (validate_with_schema parsed_json schema) ;;
      let (is_valid, validated_data) := (checked : bool * pydict) in
      if is_valid then ret (Some validated_data) else patch
  | Raise JSONDecodeError => patch
  | Raise e => throw e
  end.
End Env.

(** *** A manager and a runtime for examples *)

(** The world counts the calls of [check_model_health]. *)
Definition toy_health (healthy_from : nat) (model : string) : M nat bool :=
  fun n => (Ok (healthy_from <=? n)%nat, S n).

Definition toy_generate (response : value) (model prompt : string) (opts : pydict)
  : M nat pydict :=
  fun n => (Ok [("response", response)], n).

Definition toy_chat (response : value) (model : string) (messages : list value)
    (opts : pydict) (format : option pydict) : M nat pydict :=
  fun n => (Ok [("message", VDict [("role", VStr "assistant"); ("content", response)]);
                ("response", response)], n).

Definition toy_time : M nat value := fun n => (Ok (VInt 0), n).
Definition toy_sub (a b : value) : value := VInt 0.
Definition toy_format (template : string) (data : pydict) : result string := Ok template.
Definition toy_capitalize (s : string) : string := s.
Definition toy_half_capped (t : value) : result value := Ok (VFloat "0.3").

(** A schema with one integer field [x]: it accepts the object
    [{"x": 3}] only. *)
Definition toy_schema : Schema :=
  {| model_validate := fun v =>
       match v with
       | VDict [("x", VInt 3)] => Ok [("x", VInt 3)]
       | _ => Raise (ValidationError "1 validation error")
       end;
     model_json_schema := [("type", VStr "object")];
     schema_text := "{}" |}.

Definition toy_step (fallbacks : list string) : ModelStep :=
  {| model_name := "m"; prompt_template := "Answer: {query}";
     options := [("temperature", VFloat "0.7")]; fallback_models := fallbacks;
     output_schema := None; use_patching := true; max_patching_attempts := 3;
     patching_prompt := "Fix it: {schema}"; fallback_to_text := true |}.

Definition toy_chat_step : ChatModelStep :=
  {| chat_model_name := "m"; system_prompt := None;
     chat_options := [("temperature", VFloat "0.7")]; chat_fallback_models := [];
     chat_output_schema := Some toy_schema; chat_use_patching := false;
     chat_max_patching_attempts := 3;
     chat_patching_prompt := "Fix it: {schema}"; chat_fallback_to_text := true |}.

(** The text [{"x": 3}]. *)
Definition x3_text : string :=
  "{" +:+ String dquote "x" +:+ String dquote ": 3}".

(** A chat result whose response is [{"x": 3}]. *)
Definition x3_result : pydict :=
  [("message", VDict [("role", VStr "assistant"); ("content", VStr x3_text)]);
   ("response", VStr x3_text)].

(** A chat result whose response is plain text. *)
Definition text_result : pydict :=
  [("message", VDict [("role", VStr "assistant"); ("content", VStr "plain text")]);
   ("response", VStr "plain text")].

End StepsSpec.

(** ** Notions used to state further properties of [Pipeline.run] *)

Module RunSpec.
Import Py Exn Pipeline.

Section Run.
Context {W : Type}.

(** A dependency list is empty. *)
Definition no_deps (deps : list string) : bool :=
  match deps with [] => true | _ :: _ => false end.

(** The names [remaining_steps] binds to an empty dependency list, in the
    order of the dictionary. *)
Definition dependency_free (steps : steps_t W) : list string :=
  map fst (List.filter (fun nd => no_deps (snd nd)) (remaining_of steps)).

(** The step names of a pipeline, as declared. *)
Definition step_names (steps : steps_t W) : list string :=
  map (fun s => fst (fst s)) steps.

(** What [run] stores in [results] for a step whose [execute] call had the
    outcome [o]: the returned dictionary (replaced by the handler's error
    result when it reports success without an [output]), the timeout result,
    or the error result built from the exception. *)
Definition recorded_for (step : AnalysisStep W) (o : outcome) : pydict :=
  match o with
  | Returned result =>
      match dict_get "status" result, dict_get "output" result with
      | Some (VStr "success"), None => execution_error_result (repr_str "output")
      | _, _ => result
      end
  | TimedOut => timeout_result step
  | Raised msg => execution_error_result msg
  end.

(** The call of [execute] logged as [(n, d)] was made on the step declared
    under [n], and [results] holds what its outcome gives. *)
Definition call_recorded (steps : steps_t W) (res : results_t)
    (n : string) (d : pydict) : Prop :=
  exists step deps w w' o,
    find_step steps n = Some (n, step, deps) /\
    execute step d w = (o, w') /\
    dict_get n res = Some (recorded_for step o).

(** The loop invariant for a pipeline with distinct step names: the steps
    done so far are the keys of [results] and the calls made, and every call
    is recorded. *)
Definition recorded_inv (steps : steps_t W) (st : run_state W)
    (done : list string) : Prop :=
  dict_keys (results st) = done /\
  map fst (calls st) = done /\
  forall n d, (n, d) ∈ calls st -> call_recorded steps (results st) n d.

(** Every call so far received the input's binding for each key that names
    no result. *)
Definition passes_input (input : pydict) (st : run_state W) : Prop :=
  forall n d, (n, d) ∈ calls st ->
  forall k, k ∉ dict_keys (results st) -> dict_get k d = dict_get k input.
End Run.

(** A step that raises, between two steps that answer. *)
Definition raising_step (msg : string) : AnalysisStep unit :=
  {| execute := fun _ w => (Raised msg, w); model_name := None |}.

Definition mixed_pipeline : steps_t unit :=
  [("first", PipelineSpec.succeeding_step "first", []);
   ("boom", raising_step "boom", []);
   ("late", PipelineSpec.succeeding_step "late", ["first"]);
   ("last", PipelineSpec.succeeding_step "last", [])].

End RunSpec.

(** ** Notions used to state further properties of [JSONProcessor] *)

Module ExtractSpec.
Import Py Exn.

(** [m] occurs in [text] as a contiguous piece. *)
Definition occurs_in (m text : string) : Prop :=
  exists before after, text = before +:+ m +:+ after.

(** A group of either pattern of [extract_json] is a piece of the text it
    was matched in, from an opening to a closing brace. *)
Definition braced_piece (s group : string) : Prop :=
  occurs_in group s /\ exists x, group = String "{" (x +:+ "}").

(** The value is a dictionary. *)
Definition is_dict (v : value) : Prop := exists d, v = VDict d.

(** A model answer that wraps an object in a fenced block. *)
Definition fenced_answer : string :=
  "Here you go: ```json {" +:+ JsonSpec.quoted "x" +:+ ": 3} ``` Done.".
End ExtractSpec.

(** ** [class ModelManager]: model lists and fallback selection *)

Module ModelSelection.
Import Py Exn ModelManager.

(** [c.lower()] on code points below 256: the ASCII capitals and the
    Latin-1 capitals (all but the multiplication sign) move up by 32. *)
Definition lower_char (c : ascii) : ascii :=
  let n := N_of_ascii c in
  if ((65 <=? n) && (n <=? 90) || (192 <=? n) && (n <=? 214)
      || (216 <=? n) && (n <=? 222))%N
  then ascii_of_N (n + 32) else c.

(** [s.lower()] *)
Fixpoint lower (s : string) : string :=
  match s with
  | EmptyString => EmptyString
  | String c rest => String (lower_char c) (lower rest)
  end.

(** [t in s] for strings: [t] occurs in [s]. *)
Fixpoint contains (t s : string) : bool :=
  match Json.strip_prefix t s with
  | Some _ => true
  | None =>
      match s with
      | EmptyString => false
      | String _ rest => contains t rest
      end
  end.

(** [any(t in m.lower() for t in {"embed", "whisper"})] *)
Definition excluded (m : string) : bool :=
  contains "embed" (lower m) || contains "whisper" (lower m).

(** [[model["name"] for model in models]]; [None] stands for the
    exception raised at an element that is no dictionary or has no [name]. *)
Fixpoint model_names (models : list value) : option (list value) :=
  match models with
  | [] => Some []
  | VDict model :: rest =>
      match dict_get "name" model with
      | Some n =>
          match model_names rest with
          | Some ns => Some (n :: ns)
          | None => None
          end
      | None => None
      end
  | _ :: _ => None
  end.

(** [[m for m in models if not any(...)]]; [None] stands for the
    exception raised at a name that is no string. *)
Fixpoint filter_models (names : list value) : option (list string) :=
  match names with
  | [] => Some []
  | VStr m :: rest =>
      if excluded m then filter_models rest
      else match filter_models rest with
           | Some ms => Some (m :: ms)
           | None => None
           end
  | _ :: _ => None
  end.

(** ["tiny" in m.lower() or "mini" in m.lower() or "small" in m.lower()] *)
Definition lightweight (m : string) : bool :=
  contains "tiny" (lower m) || contains "mini" (lower m) || contains "small" (lower m).

Section Backend.
Context {B : Type}.
Variable _request : string -> string -> option pydict -> B -> pydict * B.
Variable time_time : B -> value.

(** [get_available_models]: every exception while the answer is read
    gives the empty list. *)
Definition get_available_models (mm : manager) (b : B) : list string * B :=
  if simulation_mode (config mm) then (["llama3"; "mistral"; "phi3"; "gemma"], b)
  else
    let (result, b) := _request "tags" "GET" None b in
    if dict_in "error" result then ([], b)
    else
      match dict_get "models" result with
      | Some (VList models) =>
          match model_names models with
          | Some names =>
              match filter_models names with
              | Some filtered_models => (filtered_models, b)
              | None => ([], b)
              end
          | None => ([], b)
          end
      | _ => ([], b)
      end.

(** The loop [for model in candidates:] of [get_fallback_model], which
    collects [healthy_models]. *)
Fixpoint healthy_models (candidates : list string) (mm : manager) (b : B)
  : list string * manager * B :=
  match candidates with
  | [] => ([], mm, b)
  | model :: rest =>
      let '(ok, mm, b) := check_model_health _request time_time mm model b in
      let '(hs, mm, b) := healthy_models rest mm b in
      (if ok then model :: hs else hs, mm, b)
  end.

(** [get_fallback_model] of [pasture_core.py]. *)
Definition get_fallback_model (mm : manager) (failed_model : string)
    (available_models : list string) (b : B) : option string * manager * B :=
  match List.filter (fun m => negb (String.eqb m failed_model)) available_models with
  | [] => (None, mm, b)
  | (_ :: _) as candidates =>
      let '(hs, mm, b) := healthy_models candidates mm b in
      match hs with
      | [] => (None, mm, b)
      | first :: _ =>
          (Some (match List.find lightweight hs with
                 | Some model => model
                 | None => first
                 end), mm, b)
      end
  end.
End Backend.

End ModelSelection.

(** ** Notions used to state further properties of the model manager *)

Module ManagerSpec.
Import Py Exn ModelManager ModelSelection.

(** The set [loaded_models] and the [loaded] flags of the status table
    agree. *)
Definition loaded_consistent (mm : manager) : Prop :=
  forall m, m ∈ loaded_models mm <->
            exists status, model_statuses mm !! m = Some status /\ loaded status = true.

(** [n] errors in a row on [model_name]. *)
Fixpoint fail_times (n : nat) (mm : manager) (model_name : string) : manager :=
  match n with
  | O => mm
  | S n' => fail_times n' (_increment_failure_count mm model_name) model_name
  end.

(** A backend whose model list names an embedding model. *)
Definition tags_backend (endpoint method : string) (json_data : option pydict) (n : nat)
  : pydict * nat :=
  ([("models", VList [VDict [("name", VStr "llama3:8b")];
                      VDict [("name", VStr "Nomic-Embed-text")];
                      VDict [("name", VStr "phi3:mini")]])], S n).

(** A backend that answers every request. *)
Definition good_backend (endpoint method : string) (json_data : option pydict) (n : nat)
  : pydict * nat :=
  ([("response", VStr "Hello! How can I help?")], S n).
End ManagerSpec.

(** ** Notions used to state further properties of the steps *)

Module StepsMoreSpec.
Import Py Exn Steps.

(** A step result is consistent: [output] is a dictionary, and [status]
    is [error] exactly when the output has an [error] key. *)
Definition consistent_result (r : pydict) : Prop :=
  exists out,
    dict_get "output" r = Some (VDict out) /\
    dict_get "status" r =
      Some (VStr (if dict_in "error" out then "error" else "success")).

(** The dictionary is what the schema's validation returned for some
    object. *)
Definition schema_valid (schema : Schema) (d : pydict) : Prop :=
  exists v, model_validate schema v = Ok d.

(** The dictionary is what [wrap_text_as_json] returns: a text under
    [response], or the [empty_response] object. *)
Definition text_wrapper (d : pydict) : Prop :=
  (exists s, d = [("response", VStr s)]) \/
  d = [("response", VStr EmptyString); ("error", VStr "empty_response")].

(** The message has the role [system]. *)
Definition is_system (m : value) : bool :=
  match m with
  | VDict d =>
      match dict_get "role" d with
      | Some (VStr "system") => true
      | _ => false
      end
  | _ => false
  end.

(** *** Counting the requests a coroutine makes

    The world is paired with a counter.  [uncounted] runs a coroutine and
    leaves the counter alone; [counted] adds one for the call. *)
Definition uncounted {W A} (m : M W A) : M (W * nat) A :=
  fun wn => let (r, w') := m (fst wn) in (r, (w', snd wn)).

Definition counted {W A} (m : M W A) : M (W * nat) A :=
  fun wn => let (r, w') := m (fst wn) in (r, (w', S (snd wn))).

(** The manager with its generate and chat requests counted. *)
Definition counting_check {W} (check_model_health : string -> M W bool)
    (m : string) : M (W * nat) bool := uncounted (check_model_health m).
Definition counting_generate {W}
    (generate_with_model : string -> string -> pydict -> M W pydict)
    (m p : string) (o : pydict) : M (W * nat) pydict :=
  counted (generate_with_model m p o).
Definition counting_chat {W}
    (generate_with_chat : string -> list value -> pydict -> option pydict -> M W pydict)
    (m : string) (ms : list value) (o : pydict) (f : option pydict)
  : M (W * nat) pydict := counted (generate_with_chat m ms o f).

(** Running [m] raises the counter by at most [k]. *)
Definition costs {W A} (k : nat) (m : M (W * nat) A) : Prop :=
  forall w n r w' n', m (w, n) = (r, (w', n')) -> n <= n' <= n + k.

(** The coroutine returns and does not raise, whatever the world. *)
Definition never_raises {W A} (m : M W A) : Prop :=
  forall w, exists a w', m w = (Ok a, w').

End StepsMoreSpec.

(** ** [ModelManager.generate_with_model] *)

Module Generate.
Import Py Exn Str JSONProcessor ModelManager Steps.

(** What [asyncio.sleep] is called with: [0.5], or the backoff
    [config.retry_delay * 2 ** (retry_count - 1)]. *)
Inductive delay : Type :=
| HalfSecond
| Backoff (retry_count : Z).

(** [TypeError] of [len] on an object without a length. *)
Definition len_error (v : value) : exn :=
  OtherException ("object of type '" +:+ type_name v +:+ "' has no len()").

(** [TypeError] of [output[key] = x] on an object that is no dictionary. *)
Definition item_assignment_error (v : value) : exn :=
  match v with
  | VList _ => OtherException "list indices must be integers or slices, not str"
  | _ => OtherException ("'" +:+ type_name v +:+ "' object does not support item assignment")
  end.

(** The response as the string the checks need: [len(response_text)] and
    [response_text.strip()] are evaluated for the log lines and the length
    test, and raise on anything but a string. *)
Definition response_str (response_text : value) : result string :=
  match response_text with
  | VStr s => Ok s
  | VList _ | VDict _ => Raise (attribute_error response_text "strip")
  | _ => Raise (len_error response_text)
  end.

(** [output] before the metadata are added: the parsed response when the
    text looks like a JSON object, else the text under [response]. *)
Definition processed_output (response_text : string) : result pydict :=
  if looks_like_json_object response_text then
    match parse response_text with
    | Ok (VDict d) => Ok d
    | Ok v => Raise (item_assignment_error v)
    | Raise _ => Ok [("response", VStr response_text)]
    end
  else Ok [("response", VStr response_text)].

(** The loop that copies the backend's counters into [output]. *)
Definition add_metadata (result output : pydict) : pydict :=
  fold_left (fun out key =>
               match dict_get key result with
               | Some v => dict_set key v out
               | None => out
               end)
            ["eval_count"; "eval_duration"; "total_duration"] output.

(** [self.active_model = model_name] *)
Definition set_active (model_name : string) (mm : manager) : manager :=
  {| config := config mm; model_statuses := model_statuses mm;
     active_model := Some model_name; loaded_models := loaded_models mm |}.

(** The request body of a generation. *)
Definition generate_payload (model_name prompt : string) (options : option pydict)
  : pydict :=
  [("model", VStr model_name); ("prompt", VStr prompt); ("stream", VBool false)]
  ++ match options with
     | Some ((_ :: _) as o) => [("options", VDict o)]
     | _ => []
     end.

Section Backend.
(** The backend, the clock, the cache and the event loop's [sleep], on a
    state [B]; [cache_get] gives [None] for a miss. *)
Context {B : Type}.
Variable _request : string -> string -> option pydict -> B -> pydict * B.
Variable time_time : B -> value.
Variable py_sub : value -> value -> value.
Variable cache_get : string -> B -> value * B.
Variable cache_set : string -> value -> Z -> B -> B.
Variable asyncio_sleep : delay -> B -> B.

(** The manager's coroutines act on the manager and on [B]. *)
Definition world : Type := (manager * B)%type.

Definition request (endpoint method : string) (json_data : option pydict)
  : M world pydict :=
  fun w => let (r, b) := _request endpoint method json_data (snd w) in (Ok r, (fst w, b)).

Definition now : M world value := fun w => (Ok (time_time (snd w)), w).

Definition sleep (d : delay) : M world unit :=
  fun w => (Ok tt, (fst w, asyncio_sleep d (snd w))).

Definition cache_lookup (key : string) : M world value :=
  fun w => let (v, b) := cache_get key (snd w) in (Ok v, (fst w, b)).

Definition cache_store (key : string) (v : value) (ttl : Z) : M world unit :=
  fun w => (Ok tt, (fst w, cache_set key v ttl (snd w))).

Definition update (f : manager -> manager) : M world unit :=
  fun w => (Ok tt, (f (fst w), snd w)).

Definition the_manager : M world manager := fun w => (Ok (fst w), w).

Definition call (f : manager -> B -> bool * manager * B) : M world bool :=
  fun w => let '(ok, mm, b) := f (fst w) (snd w) in (Ok ok, (mm, b)).

(** The loop [while retry_count <= max_retries:].  [Some None] is the
    implicit [return None] after the loop; [None] marks an exhausted
    iteration budget of the model. *)
Fixpoint generate_loop (fuel : nat) (cfg : Config) (model_name prompt : string)
    (options : option pydict) (cache_key : string) (retry_count : Z)
  : M world (option value) :=
  if (retry_count <=? max_retries cfg)%Z then
    match fuel with
    | O => ret None
    | S fuel' =>
        start_time <- now ;;
        result <- request "generate" "POST"
                    (Some (generate_payload model_name prompt options)) ;;
        end_time <- now ;;
        let execution_time := py_sub end_time start_time in
        let retry_count := (retry_count + 1)%Z in
        let retry_or_return (final : pydict) : M world (option value) :=
          if (retry_count <=? max_retries cfg)%Z then
            _ <- sleep (Backoff retry_count) ;;
            generate_loop fuel' cfg model_name prompt options cache_key retry_count
          else ret (Some (VDict final)) in
        if dict_in "error" result then
          _ <- update (fun mm => _increment_failure_count mm model_name) ;;
          retry_or_return
            [("error", match dict_get "error" result with Some e => e | None => VNone end);
             ("response",
              VStr ("Error after " +:+ str_of_Z (max_retries cfg + 1) +:+ " attempts: "
                    +:+ py_str (match dict_get "details" result with
                                | Some d => d
                                | None => VStr "No details provided"
                                end)));
             ("execution_time", execution_time)]
        else
          match dict_get "response" result with
          | Some response_text =>
              text <- lift (response_str response_text) ;;
              if String.eqb text EmptyString
                 || (Z.of_nat (String.length (strip text)) <? min_response_length cfg)%Z
              then
                retry_or_return
                  [("error", VStr "response_too_short");
                   ("response", VStr (if String.eqb text EmptyString
                                      then "Empty response from model" else text));
                   ("execution_time", execution_time)]
              else
                output <- lift (processed_output text) ;;
                let output :=
                  add_metadata result (dict_set "execution_time" execution_time output) in
                _ <- cache_store cache_key (VDict output) 3600 ;;
                ret (Some (VDict output))
          | None =>
              retry_or_return
                [("error", VStr "unexpected_format");
                 ("response", VStr "Received unexpected response format from model");
                 ("execution_time", execution_time)]
          end
    end
  else ret (Some VNone).

(** The block that loads the model under the lock: [false] when the
    preload fails. *)
Definition ensure_loaded (model_name : string) : M world bool :=
  mm <- the_manager ;;
  if preload_models (config mm)
     && negb (match active_model mm with
              | Some a => String.eqb a model_name
              | None => false
              end)
  then
    _ <- match active_model mm with
         | Some (String _ _ as a) => call (fun mm b => unload_model _request mm a b)
         | _ => ret true
         end ;;
    preload_success <- call (fun mm b => preload_model _request mm model_name b) ;;
    if preload_success then _ <- update (set_active model_name) ;; ret true
    else ret false
  else ret true.

(** [generate_with_model] of [pasture_core.py]. *)
Definition generate_with_model (model_name prompt : string) (options : option pydict)
  : M world (option value) :=
  let cache_key := _create_cache_key model_name prompt options in
  cached_result <- cache_lookup cache_key ;;
  if truthy cached_result then ret (Some cached_result)
  else
    mm <- the_manager ;;
    if simulation_mode (config mm) then
      _ <- sleep HalfSecond ;;
      let response :=
        [("response", VStr ("Simulated response from " +:+ model_name +:+ " to: "
                            +:+ substring 0 50 prompt +:+ "..."))] in
      _ <- cache_store cache_key (VDict response) 3600 ;;
      ret (Some (VDict response))
    else
      t <- now ;;
      _ <- update (fun mm => _update_model_status mm model_name (set_last_used t)) ;;
      loaded <- ensure_loaded model_name ;;
      if loaded then
        generate_loop (Z.to_nat (max_retries (config mm) + 1)) (config mm)
                      model_name prompt options cache_key 0
      else
        ret (Some (VDict [("error", VStr "model_load_failed");
                          ("response", VStr ("Failed to load model " +:+ model_name))])).
End Backend.

End Generate.

(** ** Notions used to state the properties of [generate_with_model] *)

Module GenerateSpec.
Import Py Exn ModelManager Steps Generate.

(** What [generate_with_model] hands back after a cache miss: an error
    report, a processed answer (which carries [execution_time]), or the
    simulated response. *)
Definition generated_shape (v : value) : Prop :=
  exists d, v = VDict d /\
    (dict_in "error" d = true \/ dict_in "execution_time" d = true \/
     dict_in "response" d = true).

(** Whenever the coroutine returns [a] in the world [w'], [Q a w']
    holds. *)
Definition ensures {W A : Type} (Q : A -> W -> Prop) (m : M W A) : Prop :=
  forall w a w', m w = (Ok a, w') -> Q a w'.

(** The dictionary [v] has been written to the cache under [key], with the
    default time to live, as the last change of the backend state [b']. *)
Definition just_cached {B : Type} (cache_set : string -> value -> Z -> B -> B)
    (key : string) (o : option value) (b' : B) : Prop :=
  forall d, o = Some (VDict d) -> dict_in "error" d = false ->
            exists b0, b' = cache_set key (VDict d) 3600%Z b0.

(** A backend that answers every request with the same text. *)
Definition chatty_backend (endpoint method : string) (json_data : option pydict) (n : nat)
  : pydict * nat :=
  ([("response", VStr "Paris is the capital of France."); ("eval_count", VInt 7)], S n).

(** The same backend on a state that also holds the last cache write. *)
Definition chatty_with_cache (endpoint method : string) (json_data : option pydict)
    (b : nat * option (string * value)) : pydict * (nat * option (string * value)) :=
  (fst (chatty_backend endpoint method json_data (fst b)), (S (fst b), snd b)).

(** The processed answer to that text. *)
Definition paris_answer : pydict :=
  [("response", VStr "Paris is the capital of France.");
   ("execution_time", VInt 0); ("eval_count", VInt 7)].

(** A cache that remembers the last value written. *)
Definition last_cache_set (key : string) (v : value) (ttl : Z)
    (b : nat * option (string * value)) : nat * option (string * value) :=
  (fst b, Some (key, v)).

(** Every request is answered with an error. *)
Definition backend_down {B : Type}
    (_request : string -> string -> option pydict -> B -> pydict * B) : Prop :=
  forall endpoint method json_data b,
    dict_in "error" (fst (_request endpoint method json_data b)) = true.

(** A cache that holds nothing and keeps nothing. *)
Definition no_cache_get (key : string) (b : nat) : value * nat := (VNone, b).
Definition no_cache_set (key : string) (v : value) (ttl : Z) (b : nat) : nat := b.
Definition no_sleep (d : delay) (b : nat) : nat := b.

(** A backend that answers every request with an error. *)
Definition dead_backend (endpoint method : string) (json_data : option pydict) (n : nat)
  : pydict * nat :=
  ([("error", VStr "connection_error"); ("details", VStr "refused")], S n).

Definition no_preload_config : Config :=
  {| simulation_mode := false; preload_models := false; fallback_threshold := 2;
     max_retries := 2; min_response_length := 10 |}.

Definition no_preload_manager : manager :=
  {| config := no_preload_config; model_statuses := ∅; active_model := None;
     loaded_models := ∅ |}.
End GenerateSpec.

(** ** [ModelManager.generate_with_chat] *)

Module GenerateChat.
Import Py Exn Str JSONProcessor ModelManager Steps Generate.

(** [d or {}] for an optional dictionary. *)
Definition or_empty (d : option pydict) : pydict :=
  match d with
  | Some d => d
  | None => []
  end.

(** The cache key: the model, then [json.dumps] of the messages, of
    [options or {}] and of [format or {}], after the tag [chat]. *)
Definition chat_cache_key (model_name : string) (messages : list value)
    (options format : option pydict) : string :=
  "chat:" +:+ model_name +:+ ":" +:+ JsonDumps.dumps (VList messages)
    +:+ ":" +:+ JsonDumps.dumps (VDict (or_empty options))
    +:+ ":" +:+ JsonDumps.dumps (VDict (or_empty format)).

(** [next((m for m in reversed(messages) if m.get("role") == "user"), None)]
    on the reversed list: the generator stops at the first user message, and
    a message before it that is no dictionary has no [get]. *)
Fixpoint last_user_message (reversed_messages : list value) : result (option pydict) :=
  match reversed_messages with
  | [] => Ok None
  | VDict d :: rest =>
      match dict_get "role" d with
      | Some (VStr "user") => Ok (Some d)
      | _ => last_user_message rest
      end
  | m :: _ => Raise (attribute_error m "get")
  end.

(** [TypeError] of [content[:50]] on an object that cannot be sliced. *)
Definition subscript_error (v : value) : exn :=
  match v with
  | VDict _ => OtherException "unhashable type: 'slice'"
  | _ => OtherException ("'" +:+ type_name v +:+ "' object is not subscriptable")
  end.

(** [f"{content[:50]}"] *)
Definition first_50 (content : value) : result string :=
  match content with
  | VStr s => Ok (substring 0 50 s)
  | VList l => Ok (py_str (VList (firstn 50 l)))
  | _ => Raise (subscript_error content)
  end.

(** The simulated response. *)
Definition simulated_chat (model_name : string) (messages : list value)
  : result pydict :=
  match last_user_message (rev messages) with
  | Raise e => Raise e
  | Ok last_user_msg =>
      let content :=
        match last_user_msg with
        | Some ((_ :: _) as m) =>
            match dict_get "content" m with
            | Some c => c
            | None => VStr EmptyString
            end
        | _ => VStr EmptyString
        end in
      match first_50 content with
      | Raise e => Raise e
      | Ok shown =>
          Ok [("message",
               VDict [("role", VStr "assistant");
                      ("content", VStr ("Simulated chat response from " +:+ model_name
                                        +:+ " to: " +:+ shown +:+ "..."))])]
      end
  end.

(** The request body of a chat. *)
Definition chat_payload (model_name : string) (messages : list value)
    (options format : option pydict) : pydict :=
  [("model", VStr model_name); ("messages", VList messages); ("stream", VBool false)]
  ++ match options with
     | Some ((_ :: _) as o) => [("options", VDict o)]
     | _ => []
     end
  ++ match format with
     | Some ((_ :: _) as f) => [("format", VDict f)]
     | _ => []
     end.

(** [message.get("content", "")]: a message that is no dictionary has no
    [get]. *)
Definition message_content (message : value) : result value :=
  match message with
  | VDict m =>
      Ok (match dict_get "content" m with
          | Some c => c
          | None => VStr EmptyString
          end)
  | _ => Raise (attribute_error message "get")
  end.

(** The error reports of the chat loop carry their text under
    [message.content]. *)
Definition chat_error (error : value) (text : string) (execution_time : value)
  : pydict :=
  [("error", error);
   ("message", VDict [("content", VStr text)]);
   ("execution_time", execution_time)].

Section Backend.
Context {B : Type}.
Variable _request : string -> string -> option pydict -> B -> pydict * B.
Variable time_time : B -> value.
Variable py_sub : value -> value -> value.
Variable cache_get : string -> B -> value * B.
Variable cache_set : string -> value -> Z -> B -> B.
Variable asyncio_sleep : delay -> B -> B.

(** The loop [while retry_count <= max_retries:] of [generate_with_chat];
    results as for [generate_loop]. *)
Fixpoint chat_loop (fuel : nat) (cfg : Config) (model_name : string)
    (messages : list value) (options format : option pydict) (cache_key : string)
    (retry_count : Z) : M (@world B) (option value) :=
  if (retry_count <=? max_retries cfg)%Z then
    match fuel with
    | O => ret None
    | S fuel' =>
        start_time <- now time_time ;;
        result <- request _request "chat" "POST"
                    (Some (chat_payload model_name messages options format)) ;;
        end_time <- now time_time ;;
        let execution_time := py_sub end_time start_time in
        let retry_count := (retry_count + 1)%Z in
        let retry_or_return (final : pydict) : M (@world B) (option value) :=
          if (retry_count <=? max_retries cfg)%Z then
            _ <- sleep asyncio_sleep (Backoff retry_count) ;;
            chat_loop fuel' cfg model_name messages options format cache_key retry_count
          else ret (Some (VDict final)) in
        if dict_in "error" result then
          _ <- update (fun mm => _increment_failure_count mm model_name) ;;
          retry_or_return
            (chat_error
               (match dict_get "error" result with Some e => e | None => VNone end)
               ("Error after " +:+ str_of_Z (max_retries cfg + 1) +:+ " attempts: "
                +:+ py_str (match dict_get "details" result with
                            | Some d => d
                            | None => VStr "No details provided"
                            end))
               execution_time)
        else
          match dict_get "message" result with
          | Some message =>
              content <- lift (message_content message) ;;
              text <- lift (response_str content) ;;
              if String.eqb text EmptyString
                 || (Z.of_nat (String.length (strip text)) <? min_response_length cfg)%Z
              then
                retry_or_return
                  (chat_error (VStr "response_too_short")
                     (if String.eqb text EmptyString
                      then "Empty response from model" else text)
                     execution_time)
              else
                let result :=
                  dict_set "response" content
                    (dict_set "execution_time" execution_time result) in
                _ <- cache_store cache_set cache_key (VDict result) 3600 ;;
                ret (Some (VDict result))
          | None =>
              retry_or_return
                (chat_error (VStr "unexpected_format")
                   "Received unexpected response format from model" execution_time)
          end
    end
  else ret (Some VNone).

(** [generate_with_chat] *)
Definition generate_with_chat (model_name : string) (messages : list value)
    (options format : option pydict) : M (@world B) (option value) :=
  let cache_key := chat_cache_key model_name messages options format in
  cached_result <- cache_lookup cache_get cache_key ;;
  if truthy cached_result then ret (Some cached_result)
  else
    mm <- the_manager ;;
    if simulation_mode (config mm) then
      _ <- sleep asyncio_sleep HalfSecond ;;
      response <- lift (simulated_chat model_name messages) ;;
      _ <- cache_store cache_set cache_key (VDict response) 3600 ;;
      ret (Some (VDict response))
    else
      t <- now time_time ;;
      _ <- update (fun mm => _update_model_status mm model_name (set_last_used t)) ;;
      loaded <- ensure_loaded _request model_name ;;
      if loaded then
        chat_loop (Z.to_nat (max_retries (config mm) + 1)) (config mm)
                  model_name messages options format cache_key 0
      else
        ret (Some (VDict [("error", VStr "model_load_failed");
                          ("message",
                           VDict [("content",
                                   VStr ("Failed to load model " +:+ model_name))])])).
End Backend.

End GenerateChat.

(** ** Notions used to state the properties of [generate_with_chat] *)

Module GenerateChatSpec.
Import Py Exn Str ModelManager Steps Generate GenerateChat.

(** The dictionary carries a [message] whose [content] is the string
    [content]. *)
Definition has_content (d : pydict) (content : string) : Prop :=
  exists message, dict_get "message" d = Some (VDict message) /\
                  dict_get "content" message = Some (VStr content).

(** What [generate_with_chat] hands back after a cache miss: an error
    report with its text in [message.content], or the simulated message, or
    the backend's answer with the content of its message copied to
    [response], long enough for the configuration. *)
Definition chat_shape (cfg : Config) (v : value) : Prop :=
  exists d content, v = VDict d /\ has_content d content /\
    (dict_in "error" d = true \/
     simulation_mode cfg = true \/
     (dict_get "response" d = Some (VStr content) /\
      dict_in "execution_time" d = true /\
      (min_response_length cfg <= Z.of_nat (String.length (strip content)))%Z /\
      content <> EmptyString)).

(** A backend that answers every chat with the same message. *)
Definition chat_backend (endpoint method : string) (json_data : option pydict) (n : nat)
  : pydict * nat :=
  ([("message", VDict [("role", VStr "assistant");
                       ("content", VStr "Paris is the capital of France.")]);
    ("done", VBool true)], S n).
End GenerateChatSpec.

(* ===================================================================== *)
(** * Part II: lemmas and theorems                                         *)
(* ===================================================================== *)

(** ** Dictionaries *)

Module PyFacts.
Import Py.

Section DictFacts.
Context {V : Type}.
Implicit Types (d : list (string * V)) (k : string) (v : V).

Lemma eqb_true k k' : String.eqb k k' = true -> k = k'.
Proof. apply String.eqb_eq. Qed.

Lemma dict_get_set_same k v d : dict_get k (dict_set k v d) = Some v.
Proof.
  induction d as [|[k' v'] d IH]; simpl.
  - now rewrite String.eqb_refl.
  - destruct (String.eqb k' k) eqn:E; simpl; rewrite E; auto.
Qed.

Lemma dict_get_set_other k k' v d :
  k <> k' -> dict_get k' (dict_set k v d) = dict_get k' d.
Proof.
  intros Hne. induction d as [|[k0 v0] d IH]; simpl.
  - destruct (String.eqb k k') eqn:E; auto.
    apply String.eqb_eq in E. contradiction.
  - destruct (String.eqb k0 k) eqn:E; simpl.
    + apply String.eqb_eq in E. subst k0.
      destruct (String.eqb k k') eqn:E'; auto.
      apply String.eqb_eq in E'. contradiction.
    + now rewrite IH.
Qed.

Lemma dict_in_set_same k v d : dict_in k (dict_set k v d) = true.
Proof. unfold dict_in. now rewrite dict_get_set_same. Qed.

Lemma dict_in_set_other k k' v d :
  k <> k' -> dict_in k' (dict_set k v d) = dict_in k' d.
Proof. intros. unfold dict_in. now rewrite dict_get_set_other. Qed.

Lemma dict_in_keys k d : dict_in k d = true <-> k ∈ dict_keys d.
Proof.
  unfold dict_in, dict_keys. induction d as [|[k' v'] d IH]; simpl.
  - rewrite elem_of_nil. split; [discriminate | tauto].
  - rewrite elem_of_cons. destruct (String.eqb k' k) eqn:E.
    + apply String.eqb_eq in E. subst. tauto.
    + rewrite IH. split; [tauto|]. intros [->|?]; auto.
      rewrite String.eqb_refl in E. discriminate.
Qed.

Lemma dict_not_in_keys k d : dict_in k d = false <-> k ∉ dict_keys d.
Proof.
  rewrite <- dict_in_keys. destruct (dict_in k d); split; congruence.
Qed.

Lemma dict_get_in k d v : dict_get k d = Some v -> k ∈ dict_keys d.
Proof. intros H. apply dict_in_keys. unfold dict_in. now rewrite H. Qed.

Lemma dict_keys_set k v d :
  dict_keys (dict_set k v d) =
  if dict_in k d then dict_keys d else dict_keys d ++ [k].
Proof.
  unfold dict_in, dict_keys. induction d as [|[k' v'] d IH]; simpl; auto.
  destruct (String.eqb k' k) eqn:E; simpl; auto.
  rewrite IH. destruct (dict_get k d); auto.
Qed.

Lemma dict_keys_set_elem k v d x :
  x ∈ dict_keys (dict_set k v d) <-> x = k \/ x ∈ dict_keys d.
Proof.
  rewrite dict_keys_set. destruct (dict_in k d) eqn:E.
  - apply dict_in_keys in E. split; [tauto|]. intros [->|?]; auto.
  - rewrite elem_of_app, list_elem_of_singleton. tauto.
Qed.

Lemma dict_keys_set_NoDup k v d :
  NoDup (dict_keys d) -> NoDup (dict_keys (dict_set k v d)).
Proof.
  intros Hnd. rewrite dict_keys_set.
  destruct (dict_in k d) eqn:E; auto.
  apply NoDup_app. repeat split; auto.
  - intros x Hx ->%list_elem_of_singleton.
    apply dict_in_keys in Hx. congruence.
  - apply NoDup_singleton.
Qed.

Lemma dict_del_length k d : length (dict_del k d) <= length d.
Proof.
  induction d as [|[k' v'] d IH]; simpl; auto.
  destruct (String.eqb k' k); simpl; lia.
Qed.

Lemma dict_del_length_in k d :
  dict_in k d = true -> length (dict_del k d) < length d.
Proof.
  unfold dict_in. induction d as [|[k' v'] d IH]; simpl; [discriminate|].
  destruct (String.eqb k' k); simpl; [lia|].
  intros H. specialize (IH H). lia.
Qed.

Lemma dict_keys_del_incl k d x :
  x ∈ dict_keys (dict_del k d) -> x ∈ dict_keys d.
Proof.
  unfold dict_keys. induction d as [|[k' v'] d IH]; simpl; auto.
  destruct (String.eqb k' k); simpl; rewrite !elem_of_cons; tauto.
Qed.

Lemma dict_keys_del_NoDup k d :
  NoDup (dict_keys d) -> NoDup (dict_keys (dict_del k d)).
Proof.
  unfold dict_keys. induction d as [|[k' v'] d IH]; simpl; auto.
  intros Hnd. apply NoDup_cons in Hnd as [Hn Hnd].
  destruct (String.eqb k' k); simpl; auto.
  apply NoDup_cons. split; auto.
  intros Hin. apply Hn. now apply (dict_keys_del_incl k).
Qed.

Lemma dict_keys_del_not_in k d :
  NoDup (dict_keys d) -> k ∉ dict_keys (dict_del k d).
Proof.
  unfold dict_keys. induction d as [|[k' v'] d IH]; simpl.
  - intros _. apply not_elem_of_nil.
  - intros Hnd. apply NoDup_cons in Hnd as [Hn Hnd].
    destruct (String.eqb k' k) eqn:E; simpl.
    + apply String.eqb_eq in E. now subst.
    + rewrite elem_of_cons. intros [->|Hin].
      * rewrite String.eqb_refl in E. discriminate.
      * now apply IH.
Qed.
End DictFacts.

(** *** Concatenation of strings *)

Lemma append_cons c (a b : string) : String c a +:+ b = String c (a +:+ b).
Proof. reflexivity. Qed.

Lemma append_nil_l (b : string) : EmptyString +:+ b = b.
Proof. reflexivity. Qed.

Lemma append_nil_r (s : string) : s +:+ EmptyString = s.
Proof. induction s as [|c s IH]; [reflexivity | now rewrite append_cons, IH]. Qed.

Lemma append_assoc (a b c : string) : (a +:+ b) +:+ c = a +:+ (b +:+ c).
Proof. induction a as [|x a IH]; [reflexivity | now rewrite !append_cons, IH]. Qed.

Lemma length_append (a b : string) :
  String.length (a +:+ b) = String.length a + String.length b.
Proof. induction a as [|x a IH]; [reflexivity | rewrite append_cons; simpl; auto]. Qed.

Lemma append_inv_head (a x y : string) : a +:+ x = a +:+ y -> x = y.
Proof.
  induction a as [|c a IH]; [auto|]. rewrite !append_cons. intros [= H]. auto.
Qed.

End PyFacts.

(** ** The JSON scanner never uses up its budget *)

Module JsonFacts.
Import Py Exn Json JsonSpec.

Abbreviation len := String.length.

Lemma skip_ws_length s : len (skip_ws s) <= len s.
Proof.
  induction s as [|c s IH]; simpl; [lia|].
  destruct (is_json_ws c); simpl; lia.
Qed.

Lemma scanstring_progress s acc : progress s (scanstring s acc).
Proof.
  assert (forall n s acc, len s < n -> progress s (scanstring s acc)) as H;
    [|apply (H (S (len s))); lia].
  clear s acc. induction n as [|n IHn]; intros s acc Hn; [lia|].
  assert (forall t, len t < len s -> forall acc, progress t (scanstring t acc)) as IH
    by (intros t Ht acc'; apply IHn; lia).
  clear IHn Hn. destruct s as [|c rest]; [exact I|].
  cbn [scanstring].
  destruct (Ascii.eqb c dquote); [simpl; lia|].
  destruct (Ascii.eqb c "\").
  - destruct rest as [|esc rest']; [exact I|].
    destruct (Ascii.eqb esc "u").
    + destruct rest' as [|h1 [|h2 [|h3 [|h4 r]]]]; try exact I.
      destruct (decode_uXXXX h1 h2 h3 h4) as [code|]; [|exact I].
      specialize (IH r ltac:(simpl; lia) (acc +:+ unicode_escape h1 h2 h3 h4 code)).
      destruct (scanstring r _); simpl in *; auto; lia.
    + destruct (backslash esc) as [ch|]; [|exact I].
      specialize (IH rest' ltac:(simpl; lia) (acc +:+ String ch EmptyString)).
      destruct (scanstring rest' _); simpl in *; auto; lia.
  - destruct (N_of_ascii c <? 32)%N; [exact I|].
    specialize (IH rest ltac:(simpl; lia) (acc +:+ String c EmptyString)).
    destruct (scanstring rest _); simpl in *; auto; lia.
Qed.

Lemma strip_prefix_length p s r :
  strip_prefix p s = Some r -> len r + len p = len s.
Proof.
  revert s. induction p as [|a p IH]; intros s; simpl.
  - intros [= ->]. lia.
  - destruct s as [|c s]; [discriminate|].
    destruct (Ascii.eqb a c); [|discriminate].
    intros H%IH. simpl. lia.
Qed.

Lemma span_digits_length s : len (snd (span_digits s)) <= len s.
Proof.
  induction s as [|c s IH]; simpl; [lia|].
  destruct (is_digit c); [|simpl; lia].
  destruct (span_digits s). simpl in *. lia.
Qed.

Lemma span_digits_digit c t :
  is_digit c = true -> len (snd (span_digits (String c t))) < len (String c t).
Proof.
  intros H. simpl. rewrite H. pose proof (span_digits_length t).
  destruct (span_digits t). simpl in *. lia.
Qed.

Lemma match_integer_length s i r : match_integer s = Some (i, r) -> len r < len s.
Proof.
  unfold match_integer.
  assert (forall s1 sign,
    match s1 with
    | String c t =>
        if Ascii.eqb c "0" then Some (sign +:+ "0", t)
        else if is_digit c
             then let (ds, r') := span_digits s1 in Some (sign +:+ ds, r')
             else None
    | EmptyString => None
    end = Some (i, r) -> len r < len s1) as Hbody.
  { intros [|c t] sign; [discriminate|].
    destruct (Ascii.eqb c "0"); [intros [= _ <-]; simpl; lia|].
    destruct (is_digit c) eqn:Ed; [|discriminate].
    pose proof (span_digits_digit c t Ed) as Hs.
    destruct (span_digits (String c t)). intros [= _ <-]. exact Hs. }
  destruct s as [|c t]; [discriminate|].
  destruct (Ascii.eqb c "-"); intros H;
    [apply (Hbody t "-"%string) in H | apply (Hbody (String c t) EmptyString) in H];
    simpl in *; lia.
Qed.

Lemma match_frac_length s : len (snd (match_frac s)) <= len s.
Proof.
  unfold match_frac. destruct s as [|c t]; [simpl; lia|].
  destruct (Ascii.eqb c "."); [|simpl; lia].
  pose proof (span_digits_length t).
  destruct (span_digits t) as [[|d ds] r]; simpl in *; lia.
Qed.

Lemma match_exp_length s : len (snd (match_exp s)) <= len s.
Proof.
  unfold match_exp. destruct s as [|e r]; [simpl; lia|].
  destruct (Ascii.eqb e "e" || Ascii.eqb e "E"); [|simpl; lia].
  assert (forall sign r1, len r1 <= len r ->
    len (snd (match span_digits r1 with
              | (EmptyString, _) => (EmptyString, String e r)
              | (ds, r') => (String e (sign +:+ ds), r')
              end)) <= len (String e r)) as H.
  { intros sign r1 Hr1. pose proof (span_digits_length r1).
    destruct (span_digits r1) as [[|d ds] r']; simpl in *; lia. }
  destruct r as [|c r1]; [apply H; simpl; lia|].
  destruct (Ascii.eqb c "-"); [apply H; simpl; lia|].
  destruct (Ascii.eqb c "+"); apply H; simpl; lia.
Qed.

Lemma scan_scalar_progress s : progress s (scan_scalar s).
Proof.
  unfold scan_scalar.
  repeat match goal with
  | |- context [strip_prefix ?p s] =>
      let E := fresh "E" in
      destruct (strip_prefix p s) eqn:E;
      [apply strip_prefix_length in E; simpl in *; lia|]
  | |- context [match_integer s] =>
      let E := fresh "E" in
      destruct (match_integer s) as [[i r]|] eqn:E
  end; [|exact I].
  apply match_integer_length in E2.
  pose proof (match_frac_length r). destruct (match_frac r) as [frac r1].
  pose proof (match_exp_length r1). destruct (match_exp r1) as [exp r2].
  simpl in *. destruct frac, exp; simpl; try lia.
  destruct (parse_int i); simpl; [lia | exact I].
Qed.

Lemma progress_map {A C} (s s' : string) (r : scan A) (f : A -> C) :
  progress s' r -> len s' <= len s ->
  progress s (match r with
              | Scanned a rest => Scanned (f a) rest
              | DecodeError => DecodeError
              | Raised e => Raised e
              | OutOfFuel => OutOfFuel
              end).
Proof. destruct r; simpl; auto; lia. Qed.

(** With a budget above twice the length of the input, the three scanners
    return or fail to decode; they do not run out of budget. *)
Lemma scan_budget fuel :
  (forall depth s, 2 * len s < fuel -> progress s (scan_once fuel depth s)) /\
  (forall depth s pairs, 2 * len s + 1 < fuel ->
     progress s (object_members fuel depth s pairs)) /\
  (forall depth s items, 2 * len s + 1 < fuel ->
     progress s (array_items fuel depth s items)).
Proof.
  induction fuel as [|fuel (IHscan & IHobj & IHarr)];
    [repeat split; intros; lia|].
  split; [|split].
  - intros depth s Hs. cbn [scan_once]. destruct s as [|c rest]; [exact I|].
    simpl in Hs.
    destruct (Ascii.eqb c dquote).
    { pose proof (scanstring_progress rest EmptyString) as Hp.
      apply (progress_map _ rest); [exact Hp | simpl; lia]. }
    destruct (Ascii.eqb c "{").
    { destruct depth as [|depth]; [exact I|].
      pose proof (skip_ws_length rest) as Hw.
      destruct (skip_ws rest) as [|q r]; [exact I|]. simpl in Hw.
      destruct (Ascii.eqb q "}"); [simpl; lia|].
      destruct (Ascii.eqb q dquote); [|exact I].
      apply (progress_map _ r); [apply IHobj; lia | simpl; lia]. }
    destruct (Ascii.eqb c "[").
    { destruct depth as [|depth]; [exact I|].
      pose proof (skip_ws_length rest) as Hw.
      destruct (skip_ws rest) as [|q r]; [exact I|]. simpl in Hw.
      destruct (Ascii.eqb q "]"); [simpl; lia|].
      apply (progress_map _ (String q r)); [apply IHarr; simpl; lia | simpl; lia]. }
    apply scan_scalar_progress.
  - intros depth s pairs Hs. cbn [object_members].
    pose proof (scanstring_progress s EmptyString) as Hkey.
    destruct (scanstring s EmptyString) as [key r| | |]; simpl in Hkey; auto.
    pose proof (skip_ws_length r) as Hw.
    destruct (skip_ws r) as [|colon r1]; [exact I|]. simpl in Hw.
    destruct (Ascii.eqb colon ":"); [|exact I].
    pose proof (skip_ws_length r1) as Hw1.
    pose proof (IHscan depth (skip_ws r1) ltac:(lia)) as Hv.
    destruct (scan_once fuel depth (skip_ws r1)) as [v r2| | |]; simpl in Hv; auto.
    pose proof (skip_ws_length r2) as Hw2.
    destruct (skip_ws r2) as [|d r3]; [exact I|]. simpl in Hw2.
    destruct (Ascii.eqb d "}"); [simpl; lia|].
    destruct (Ascii.eqb d ","); [|exact I].
    pose proof (skip_ws_length r3) as Hw3.
    destruct (skip_ws r3) as [|q r4]; [exact I|]. simpl in Hw3.
    destruct (Ascii.eqb q dquote); [|exact I].
    pose proof (IHobj depth r4 (dict_set key v pairs) ltac:(lia)) as Hrec.
    destruct (object_members fuel depth r4 _); simpl in *; auto. lia.
  - intros depth s items Hs. cbn [array_items].
    pose proof (IHscan depth s ltac:(lia)) as Hv.
    destruct (scan_once fuel depth s) as [v r| | |]; simpl in Hv; auto.
    pose proof (skip_ws_length r) as Hw.
    destruct (skip_ws r) as [|d r1]; [exact I|]. simpl in Hw.
    destruct (Ascii.eqb d "]"); [simpl; lia|].
    destruct (Ascii.eqb d ","); [|exact I].
    pose proof (skip_ws_length r1) as Hw1.
    pose proof (IHarr depth (skip_ws r1) (items ++ [v]) ltac:(lia)) as Hrec.
    destruct (array_items fuel depth (skip_ws r1) _); simpl in *; auto. lia.
Qed.

(** [decode] never gives up for lack of budget: [loads] returns a value
    or raises what the scanner raised. *)
Lemma decode_total s : decode s <> OutOfFuel.
Proof.
  unfold decode. pose proof (skip_ws_length s) as Hw.
  destruct (scan_budget (S (2 * len s))) as (Hscan & _ & _).
  specialize (Hscan recursion_limit (skip_ws s) ltac:(lia)).
  destruct (scan_once _ _ (skip_ws s)) as [v r| | |]; simpl in Hscan;
    [|discriminate|discriminate|contradiction].
  destruct (skip_ws r); discriminate.
Qed.

End JsonFacts.

(** ** JSONProcessor *)

Module JSONProcessorFacts.
Import Py Exn Json Str JSONProcessor JsonSpec.

Lemma is_space_not_json_start c :
  is_space c = true ->
  is_json_ws c = true \/
  forall fuel depth rest, scan_once (S fuel) depth (String c rest) = DecodeError.
Proof.
  destruct c as [[] [] [] [] [] [] [] []]; intros H; try discriminate H;
    (left; reflexivity) || (right; intros; reflexivity).
Qed.

Lemma lstrip_empty_all_space s :
  lstrip s = EmptyString ->
  forall fuel depth, skip_ws s = EmptyString \/
                     scan_once (S fuel) depth (skip_ws s) = DecodeError.
Proof.
  induction s as [|c s IH]; simpl; intros H fuel depth.
  - now left.
  - destruct (is_space c) eqn:Ec; [|discriminate].
    destruct (is_space_not_json_start c Ec) as [Hws|Hbad].
    + rewrite Hws. now apply IH.
    + destruct (is_json_ws c); [now apply IH|]. right. apply Hbad.
Qed.

Lemma rstrip_empty s : rstrip s = EmptyString -> lstrip s = EmptyString.
Proof.
  induction s as [|c s IH]; simpl; auto.
  destruct (rstrip s) eqn:Er; [|discriminate].
  destruct (is_space c); [auto | discriminate].
Qed.

Lemma lstrip_idem s : lstrip (lstrip s) = lstrip s.
Proof.
  induction s as [|c s IH]; simpl; auto.
  destruct (is_space c) eqn:E; auto. simpl. now rewrite E.
Qed.

(** Blank text (empty, or whitespace only) is not valid JSON. *)
Lemma loads_blank s v : loads s = Ok v -> s <> EmptyString /\ strip s <> EmptyString.
Proof.
  intros H. split.
  - intros ->. discriminate H.
  - intros Hs. unfold strip in Hs. apply rstrip_empty in Hs.
    rewrite lstrip_idem in Hs.
    unfold loads, decode in H.
    destruct (lstrip_empty_all_space s Hs (2 * String.length s) recursion_limit)
      as [Hr | Hr]; rewrite Hr in H; discriminate H.
Qed.

(** On valid JSON, [parse] is the strict parse; [repair_json] is not
    called. *)
Lemma parse_valid s v : loads s = Ok v -> parse s = Ok v.
Proof.
  intros H. destruct (loads_blank s v H) as [Hne Hst].
  unfold parse. destruct s; [congruence|].
  destruct (strip (String a s)); [congruence|]. now rewrite H.
Qed.

(** [parse] returns, or raises what the strict [json.loads] of the text
    raised when that is no [JSONDecodeError]: the handler of [parse] names
    [JSONDecodeError] only, while everything raised during the repair is
    caught. *)
Lemma parse_returns_or_reraises (t : string) :
  (exists v, parse t = Ok v /\
     (loads t = Ok v \/
      (exists fixed, repair_json t = Ok fixed /\ loads fixed = Ok v) \/
      v = empty_response \/ v = json_parsing_failed t)) \/
  (exists e, e <> JSONDecodeError /\ loads t = Raise e /\ parse t = Raise e).
Proof.
  destruct t as [|c t']; [|destruct (strip (String c t')) eqn:Es].
  - left. eexists. split; [reflexivity|]. auto.
  - left. exists empty_response. split; [|auto]. unfold parse. now rewrite Es.
  - unfold parse. rewrite Es.
    destruct (loads (String c t')) as [v|e] eqn:El; [left; eauto|].
    assert (e = JSONDecodeError \/ e <> JSONDecodeError) as [->|Hne]
      by (destruct e; auto; right; discriminate).
    + left. destruct (repair_json (String c t')) as [fixed|e] eqn:Er.
      * destruct (loads fixed) as [v|e] eqn:Ef.
        -- exists v. split; [reflexivity|]. right. left. eauto.
        -- eexists. split; [reflexivity|]. auto.
      * eexists. split; [reflexivity|]. auto.
    + right. exists e. split; [exact Hne|]. split; [reflexivity|].
      destruct e; try reflexivity. now contradiction Hne.
Qed.

(** C5, evaluated on the code: [parse] raises on an integer literal of 4301
    digits, alone or inside an object.  [json.loads] raises [ValueError]
    there, which the handler of [parse] for [JSONDecodeError] does not
    catch; the handler around the repair, which catches every exception, is
    not reached. *)
Theorem parse_raises_on_long_integer :
  String.length long_integer = 4301 /\
  loads long_integer = Raise (int_too_long 4301) /\
  parse long_integer = Raise (int_too_long 4301) /\
  looks_like_json_object long_integer_object = true /\
  parse long_integer_object = Raise (int_too_long 4301) /\
  int_too_long 4301 =
    ValueError ("Exceeds the limit (4300 digits) for integer string conversion: "
                +:+ "value has 4301 digits; use sys.set_int_max_str_digits() "
                +:+ "to increase the limit").
Proof. repeat split; vm_compute; reflexivity. Qed.

(** The two limits of [json.loads] at work: an integer of 4300 digits and
    arrays nested 1000 deep are read; one array more raises
    [RecursionError], which leaves [parse] as the [ValueError] above does. *)
Example loads_limits :
  is_valid_json (string_of_list_ascii (repeat "1"%char 4300)) = true /\
  is_valid_json (nested_arrays 1000) = true /\
  loads (nested_arrays 1001) = Raise (too_deep "array") /\
  parse (nested_arrays 1001) = Raise (too_deep "array").
Proof. repeat split; vm_compute; reflexivity. Qed.

(** What [repair_json] returns has passed [json.loads]. *)
Lemma repair_json_valid s r : repair_json s = Ok r -> is_valid_json r = true.
Proof.
  unfold repair_json, is_valid_json.
  destruct (loads (repair_text s)) eqn:E; [|discriminate].
  intros [= <-]. now rewrite E.
Qed.

(** Counterexample to C4: [repair_json] raises on the valid object
    [{"a": "b:c"}]; on the valid object [{"a": {}, "b": {"c": 1}}] it
    returns the inner [{"c": 1}]; and the valid array [[1,2]] comes back
    wrapped in a [response] object. *)
Lemma repair_json_not_identity_on_valid :
  (is_valid_json colon_in_value = true /\
   repair_json colon_in_value = Raise JSONDecodeError) /\
  (parse nested_objects =
     Ok (VDict [("a", VDict []); ("b", VDict [("c", VInt 1)])]) /\
   repair_json nested_objects = Ok ("{" +:+ quoted "c" +:+ ": 1}") /\
   parse ("{" +:+ quoted "c" +:+ ": 1}") = Ok (VDict [("c", VInt 1)])) /\
  (parse "[1,2]" = Ok (VList [VInt 1; VInt 2]) /\
   repair_json "[1,2]" = Ok ("{" +:+ quoted "response" +:+ ": " +:+ quoted "[1,2]" +:+ "}") /\
   parse ("{" +:+ quoted "response" +:+ ": " +:+ quoted "[1,2]" +:+ "}") =
     Ok (VDict [("response", VStr "[1,2]")])).
Proof. repeat split; vm_compute; reflexivity. Qed.

(** C4, amended: whenever [repair_json] returns, its result is valid JSON
    and [parse] of the result is its strict parse; and [parse] of any valid
    text is the strict parse of that text, whatever [repair_json] does on
    it. *)
Theorem repair_json_result_parses :
  (forall s r, repair_json s = Ok r ->
     is_valid_json r = true /\ exists v, loads r = Ok v /\ parse r = Ok v) /\
  (forall s, is_valid_json s = true -> exists v, loads s = Ok v /\ parse s = Ok v).
Proof.
  split.
  - intros s r H. split; [now apply (repair_json_valid s)|].
    unfold repair_json in H.
    destruct (loads (repair_text s)) as [v|] eqn:E; [|discriminate].
    injection H as <-. exists v. split; [exact E | now apply parse_valid].
  - intros s H. unfold is_valid_json in H.
    destruct (loads s) as [v|] eqn:E; [|discriminate].
    exists v. split; [reflexivity | now apply parse_valid].
Qed.

(** The theorem at work on the single-quoted text [{'key': 'value'}], which
    [repair_json] repairs, and on the valid text [{"a": "b:c"}], on which
    [repair_json] raises. *)
Lemma repair_json_result_parses_witness :
  (repair_json "{'key': 'value'}" =
     Ok ("{" +:+ quoted "key" +:+ ": " +:+ quoted "value" +:+ "}") /\
   is_valid_json ("{" +:+ quoted "key" +:+ ": " +:+ quoted "value" +:+ "}") = true) /\
  (is_valid_json colon_in_value = true /\
   exists v, loads colon_in_value = Ok v /\ parse colon_in_value = Ok v).
Proof.
  destruct repair_json_result_parses as [Hrepair Hvalid].
  split.
  - split; [vm_compute; reflexivity|].
    apply (Hrepair "{'key': 'value'}"). vm_compute. reflexivity.
  - split; [vm_compute; reflexivity|].
    apply Hvalid. vm_compute. reflexivity.
Defined.

End JSONProcessorFacts.

(** ** ModelManager: health tracking *)

Module ModelManagerFacts.
Import Py PyFacts Exn ModelManager ModelManagerSpec.

Lemma unhealthy_get_model_status mm m m' :
  unhealthy mm m -> unhealthy (snd (_get_model_status mm m')) m.
Proof.
  intros (st & Hst & Hh). unfold _get_model_status.
  destruct (model_statuses mm !! m') eqn:E; simpl; [now exists st|].
  exists st. split; [|exact Hh]. simpl.
  rewrite lookup_insert_ne; [exact Hst|congruence].
Qed.

Lemma unhealthy_set_status mm m m' st' :
  unhealthy mm m -> (m' = m -> healthy st' = false) ->
  unhealthy (set_status mm m' st') m.
Proof.
  intros (st & Hst & Hh) Hsame. unfold unhealthy, set_status. simpl.
  destruct (decide (m' = m)) as [->|Hne].
  - exists st'. rewrite lookup_insert_eq. auto.
  - exists st. rewrite lookup_insert_ne; auto.
Qed.

Lemma get_model_status_existing mm m st :
  model_statuses mm !! m = Some st -> _get_model_status mm m = (st, mm).
Proof. intros H. unfold _get_model_status. now rewrite H. Qed.

Lemma get_model_status_fst mm m m' st :
  model_statuses mm !! m = Some st -> m' = m -> fst (_get_model_status mm m') = st.
Proof. intros H ->. now rewrite (get_model_status_existing mm m st). Qed.

Lemma config_get_model_status mm m : config (snd (_get_model_status mm m)) = config mm.
Proof. unfold _get_model_status. now destruct (model_statuses mm !! m). Qed.

Lemma unhealthy_increment mm m m' :
  unhealthy mm m -> unhealthy (_increment_failure_count mm m') m.
Proof.
  intros H. unfold _increment_failure_count.
  destruct (_get_model_status mm m') as [st mm1] eqn:E.
  apply unhealthy_set_status.
  - replace mm1 with (snd (_get_model_status mm m')) by now rewrite E.
    now apply unhealthy_get_model_status.
  - intros Hm. simpl. destruct H as (st0 & Hst0 & Hh).
    pose proof (get_model_status_fst mm m m' st0 Hst0 Hm) as Hf.
    rewrite E in Hf. simpl in Hf. subst st.
    rewrite Hh. now destruct (_ <=? _)%Z.
Qed.

Lemma config_increment mm m : config (_increment_failure_count mm m) = config mm.
Proof.
  unfold _increment_failure_count.
  pose proof (config_get_model_status mm m).
  now destruct (_get_model_status mm m).
Qed.

Lemma unhealthy_update mm m m' kw :
  unhealthy mm m -> unhealthy (_update_model_status mm m' kw) m.
Proof.
  intros H. unfold _update_model_status.
  destruct (_get_model_status mm m') as [st mm1] eqn:E.
  apply unhealthy_set_status.
  - replace mm1 with (snd (_get_model_status mm m')) by now rewrite E.
    now apply unhealthy_get_model_status.
  - intros Hm. destruct H as (st0 & Hst0 & Hh).
    pose proof (get_model_status_fst mm m m' st0 Hst0 Hm) as Hf.
    rewrite E in Hf. simpl in Hf. subst st. now destruct kw.
Qed.

Lemma config_update mm m kw : config (_update_model_status mm m kw) = config mm.
Proof.
  unfold _update_model_status.
  pose proof (config_get_model_status mm m).
  now destruct (_get_model_status mm m).
Qed.

Section Backend.
Context {B : Type}.
Variable _request : string -> string -> option pydict -> B -> pydict * B.
Variable time_time : B -> value.

Abbreviation check_model_health := (check_model_health _request time_time).
Abbreviation apply_op := (apply_op _request time_time).
Abbreviation apply_ops := (apply_ops _request time_time).

(** An unhealthy model is refused without a probe: no request is made and
    nothing changes. *)
Lemma check_unhealthy mm m (b : B) :
  simulation_mode (config mm) = false -> unhealthy mm m ->
  check_model_health mm m b = (false, mm, b).
Proof.
  intros Hsim (st & Hst & Hh). unfold ModelManager.check_model_health.
  rewrite Hsim, (get_model_status_existing mm m st Hst), Hh. reflexivity.
Qed.

Lemma check_preserves mm m m' (b : B) :
  unhealthy mm m ->
  unhealthy (snd (fst (check_model_health mm m' b))) m /\
  config (snd (fst (check_model_health mm m' b))) = config mm.
Proof.
  intros H. unfold ModelManager.check_model_health.
  destruct (simulation_mode (config mm)); [now split|].
  pose proof (unhealthy_get_model_status mm m m' H) as H1.
  pose proof (config_get_model_status mm m') as C1.
  destruct (_get_model_status mm m') as [st mm1] eqn:E. simpl in H1, C1.
  destruct (healthy st) eqn:Eh; simpl; [|now split].
  destruct (_request _ _ _ b) as [result b1].
  assert (m' <> m) as Hne.
  { intros ->. destruct H as (st0 & Hst0 & Hh).
    rewrite (get_model_status_existing mm m st0 Hst0) in E.
    injection E as <- <-. congruence. }
  destruct (dict_in "error" result); simpl; [|destruct (0 <? _)%Z; simpl].
  - rewrite config_increment. split; [|exact C1].
    apply unhealthy_increment, unhealthy_set_status; auto. intros; contradiction.
  - split; [|exact C1].
    repeat apply unhealthy_set_status; auto; intros; contradiction.
  - split; [|exact C1]. apply unhealthy_set_status; auto. intros; contradiction.
Qed.

Lemma unhealthy_loaded_models mm m (s : gset string) :
  unhealthy mm m ->
  unhealthy {| config := config mm; model_statuses := model_statuses mm;
               active_model := active_model mm; loaded_models := s |} m.
Proof. auto. Qed.

Lemma apply_op_preserves op mm m (b : B) :
  unhealthy mm m ->
  unhealthy (fst (apply_op op mm b)) m /\ config (fst (apply_op op mm b)) = config mm.
Proof.
  intros H. destruct op as [m'|m'|m'|m'|m']; simpl.
  - pose proof (check_preserves mm m m' b H) as Hc.
    now destruct (check_model_health mm m' b) as [[? ?] ?].
  - unfold preload_model. destruct (_ || _); [now split|].
    destruct (_request _ _ _ b) as [result b1].
    destruct (dict_in "error" result); simpl.
    + split; [now apply unhealthy_increment | apply config_increment].
    + split; [|now rewrite config_update].
      now apply unhealthy_update, unhealthy_loaded_models.
  - unfold unload_model. destruct (simulation_mode _); [now split|].
    destruct (_request _ _ _ b) as [result b1].
    destruct (dict_in "error" result); simpl; [now split|].
    case_bool_decide; simpl; [|now split].
    split; [|now rewrite config_update].
    now apply unhealthy_update, unhealthy_loaded_models.
  - split; [now apply unhealthy_update | apply config_update].
  - split; [now apply unhealthy_increment | apply config_increment].
Qed.

Lemma apply_ops_preserves ops : forall mm m (b : B),
  unhealthy mm m ->
  unhealthy (fst (apply_ops ops mm b)) m /\ config (fst (apply_ops ops mm b)) = config mm.
Proof.
  induction ops as [|op ops IH]; intros mm m b H; simpl; [now split|].
  pose proof (apply_op_preserves op mm m b H) as [H1 C1].
  destruct (apply_op op mm b) as [mm1 b1]. simpl in *.
  destruct (IH mm1 m b1 H1) as [H2 C2]. split; [exact H2 | congruence].
Qed.

(** An error that brings the failure count to the threshold marks the
    model unhealthy. *)
Lemma increment_marks_unhealthy mm m :
  (fallback_threshold (config mm) <=
     failure_count (fst (_get_model_status mm m)) + 1)%Z ->
  unhealthy (_increment_failure_count mm m) m.
Proof.
  intros Hthr. unfold _increment_failure_count.
  pose proof (config_get_model_status mm m) as C.
  destruct (_get_model_status mm m) as [st mm1]. simpl in *.
  unfold unhealthy, set_status. simpl. eexists. rewrite lookup_insert_eq.
  split; [reflexivity|]. simpl. rewrite C.
  destruct (Z.leb_spec (fallback_threshold (config mm)) (failure_count st + 1));
    [reflexivity | lia].
Qed.

(** A probe answered without error, for a model still marked healthy,
    returns [True] and leaves the model healthy with failure count 0. *)
Lemma check_healthy_success mm m (b : B) status :
  simulation_mode (config mm) = false ->
  model_statuses mm !! m = Some status ->
  healthy status = true -> (0 <= failure_count status)%Z ->
  dict_in "error" (fst (_request "generate" "POST" (Some (hello_probe m)) b)) = false ->
  fst (fst (check_model_health mm m b)) = true /\
  exists status',
    model_statuses (snd (fst (check_model_health mm m b))) !! m = Some status' /\
    healthy status' = true /\ failure_count status' = 0%Z.
Proof.
  intros Hsim Hst Hh Hc Herr. unfold ModelManager.check_model_health.
  rewrite Hsim, (get_model_status_existing mm m status Hst), Hh. simpl.
  destruct (_request "generate" "POST" (Some (hello_probe m)) b) as [result b1].
  simpl in Herr. rewrite Herr.
  destruct (0 <? failure_count status)%Z eqn:E; simpl.
  - split; [reflexivity|]. eexists. rewrite lookup_insert_eq.
    split; [reflexivity|]. split; reflexivity.
  - split; [reflexivity|]. eexists. rewrite lookup_insert_eq.
    split; [reflexivity|]. simpl. split; [reflexivity|].
    apply Z.ltb_ge in E. lia.
Qed.

End Backend.



(** *** The cache key *)

Lemma same_items_same_order (o1 o2 : pydict) :
  NoDup (dict_keys o1) -> dict_keys o1 = dict_keys o2 -> same_items o1 o2 ->
  o1 = o2.
Proof.
  revert o2. induction o1 as [|[k v] o1 IH]; intros [|[k' v'] o2] Hnd Hk Hs;
    try discriminate; [reflexivity|].
  simpl in Hk. injection Hk as <- Hk.
  apply NoDup_cons in Hnd as [Hn Hnd].
  pose proof (Hs k) as Hsk. simpl in Hsk. rewrite String.eqb_refl in Hsk.
  injection Hsk as <-. f_equal. apply IH; auto.
  intros k0. destruct (String.eqb k k0) eqn:E.
  - apply String.eqb_eq in E. subst k0.
    assert (dict_in k o1 = false) as H1 by now apply dict_not_in_keys.
    assert (dict_in k o2 = false) as H2 by (apply dict_not_in_keys; now rewrite <- Hk).
    unfold dict_in in H1, H2.
    destruct (dict_get k o1), (dict_get k o2); congruence.
  - specialize (Hs k0). simpl in Hs. now rewrite E in Hs.
Qed.

Lemma options_a_NoDup : NoDup (dict_keys options_a).
Proof.
  cbn. repeat constructor; rewrite ?elem_of_cons, ?elem_of_nil; intuition discriminate.
Defined.

(** Counterexample to C3: [{temperature: 0.7, top_p: 0.9}] and
    [{top_p: 0.9, temperature: 0.7}] hold the same items, and their cache
    keys differ. *)
Lemma cache_key_depends_on_insertion_order :
  same_items options_a options_b /\
  NoDup (dict_keys options_a) /\ NoDup (dict_keys options_b) /\
  _create_cache_key "llama3" "P" (Some options_a) <>
  _create_cache_key "llama3" "P" (Some options_b).
Proof.
  split; [|split; [|split]].
  - intros k. unfold options_a, options_b. cbn [dict_get].
    destruct (String.eqb "temperature" k) eqn:E1, (String.eqb "top_p" k) eqn:E2;
      try reflexivity.
    apply String.eqb_eq in E1, E2. congruence.
  - apply options_a_NoDup.
  - cbn. repeat constructor; rewrite ?elem_of_cons, ?elem_of_nil; intuition discriminate.
  - vm_compute. discriminate.
Qed.

(** *** The cache key keeps the insertion order of the options *)

(** What [json.dumps] writes for one character of a string is read back
    by the scanner of [json.loads] as that character. *)
Lemma scanstring_escape_char (c : ascii) (k rest acc : string) :
  Json.scanstring (JsonDumps.escape_ascii (String c k) +:+ rest) acc =
  Json.scanstring (JsonDumps.escape_ascii k +:+ rest) (acc +:+ String c EmptyString).
Proof. destruct c as [[] [] [] [] [] [] [] []]; reflexivity. Qed.

(** An encoded string is read back up to its closing quote: no encoded
    string is the beginning of another. *)
Lemma scanstring_escape (k rest : string) : forall acc,
  Json.scanstring (JsonDumps.escape_ascii k +:+ String dquote rest) acc =
  Json.Scanned (acc +:+ k) rest.
Proof.
  induction k as [|c k IH]; intros acc.
  - cbn. now rewrite append_nil_r.
  - rewrite scanstring_escape_char, IH, append_assoc. reflexivity.
Qed.

Lemma encode_str_inj (k1 k2 r1 r2 : string) :
  JsonDumps.encode_str k1 +:+ r1 = JsonDumps.encode_str k2 +:+ r2 ->
  k1 = k2 /\ r1 = r2.
Proof.
  unfold JsonDumps.encode_str. rewrite !append_cons, !append_assoc, !append_cons,
    !append_nil_l.
  intros [= H].
  pose proof (scanstring_escape k1 r1 EmptyString) as H1.
  pose proof (scanstring_escape k2 r2 EmptyString) as H2.
  rewrite H, H2, !append_nil_l in H1. injection H1 as -> ->. auto.
Qed.

Lemma dumps_dict (d : pydict) :
  JsonDumps.dumps (VDict d) = "{" +:+ dumps_items d +:+ "}".
Proof. reflexivity. Qed.

(** The items of a dictionary up to its closing brace: the first item,
    then the brace or a comma and the other items. *)
Lemma dumps_items_cons (k : string) (v : value) (d : pydict) :
  dumps_items ((k, v) :: d) +:+ "}" =
  JsonDumps.encode_str k +:+ ": " +:+ JsonDumps.dumps v +:+
    match d with
    | [] => "}"
    | _ :: _ => ", " +:+ (dumps_items d +:+ "}")
    end.
Proof.
  unfold dumps_items. destruct d as [|kv d]; cbn [map join fst snd];
    now rewrite !append_assoc.
Qed.

Lemma same_items_nil (o : pydict) : same_items [] o -> o = [].
Proof.
  destruct o as [|[k v] o]; [auto|]. intros H. specialize (H k).
  simpl in H. rewrite String.eqb_refl in H. discriminate.
Qed.

Lemma same_items_tail (k : string) (v1 v2 : value) (o1 o2 : pydict) :
  NoDup (dict_keys ((k, v1) :: o1)) -> NoDup (dict_keys ((k, v2) :: o2)) ->
  same_items ((k, v1) :: o1) ((k, v2) :: o2) ->
  v1 = v2 /\ same_items o1 o2.
Proof.
  intros [Hn1 _]%NoDup_cons [Hn2 _]%NoDup_cons Hs. split.
  - specialize (Hs k). simpl in Hs. rewrite String.eqb_refl in Hs. congruence.
  - intros k0. destruct (String.eqb k k0) eqn:E.
    + apply String.eqb_eq in E. subst k0.
      assert (dict_in k o1 = false) as H1 by now apply dict_not_in_keys.
      assert (dict_in k o2 = false) as H2 by now apply dict_not_in_keys.
      unfold dict_in in H1, H2.
      destruct (dict_get k o1), (dict_get k o2); congruence.
    + specialize (Hs k0). simpl in Hs. now rewrite E in Hs.
Qed.

(** Dictionaries with the same items that [json.dumps] writes alike list
    their keys in the same order. *)
Lemma dumps_items_order (o1 : pydict) : forall o2 : pydict,
  NoDup (dict_keys o1) -> NoDup (dict_keys o2) -> same_items o1 o2 ->
  dumps_items o1 +:+ "}" = dumps_items o2 +:+ "}" ->
  same_order o1 o2.
Proof.
  unfold same_order.
  induction o1 as [|[k1 v1] o1 IH]; intros o2 Hn1 Hn2 Hs Hd.
  - now rewrite (same_items_nil o2 Hs).
  - destruct o2 as [|[k2 v2] o2].
    { specialize (Hs k1). simpl in Hs.
      rewrite String.eqb_refl in Hs. discriminate. }
    rewrite !dumps_items_cons in Hd.
    apply encode_str_inj in Hd as [<- Hd].
    destruct (same_items_tail _ _ _ _ _ Hn1 Hn2 Hs) as [<- Hs'].
    do 2 apply append_inv_head in Hd.
    simpl. f_equal.
    apply NoDup_cons in Hn1 as [_ Hn1]. apply NoDup_cons in Hn2 as [_ Hn2].
    destruct o1 as [|kv1 o1], o2 as [|kv2 o2]; [reflexivity| | |].
    + now rewrite (same_items_nil _ Hs').
    + specialize (Hs' (fst kv1)). destruct kv1 as [a1 b1]. simpl in Hs'.
      rewrite String.eqb_refl in Hs'. discriminate.
    + apply IH; auto. now apply append_inv_head in Hd.
Qed.

(** C3, amended: two calls with the same model and prompt whose option
    dictionaries hold the same items get the same cache key, and so the same
    cache file name whatever the hash function, when the options list their
    keys in the same insertion order; and they get different cache keys when
    the insertion orders differ, since the key holds [json.dumps(options)]
    with the keys unsorted. *)
Theorem cache_key_same_insertion_order (md5_hexdigest : string -> string)
    (model_name prompt : string) (o1 o2 : pydict) :
  NoDup (dict_keys o1) -> NoDup (dict_keys o2) -> same_items o1 o2 ->
  (same_order o1 o2 ->
   _create_cache_key model_name prompt (Some o1) =
   _create_cache_key model_name prompt (Some o2) /\
   cache_file_name md5_hexdigest (_create_cache_key model_name prompt (Some o1)) =
   cache_file_name md5_hexdigest (_create_cache_key model_name prompt (Some o2))) /\
  (~ same_order o1 o2 ->
   _create_cache_key model_name prompt (Some o1) <>
   _create_cache_key model_name prompt (Some o2)).
Proof.
  intros Hn1 Hn2 Hs. split.
  - intros Hk. rewrite (same_items_same_order o1 o2 Hn1 Hk Hs). now split.
  - intros Hk Hkey. apply Hk. apply dumps_items_order; auto.
    unfold _create_cache_key in Hkey.
    do 4 apply append_inv_head in Hkey.
    replace (match o1 with [] => [] | _ :: _ => o1 end) with o1 in Hkey
      by now destruct o1.
    replace (match o2 with [] => [] | _ :: _ => o2 end) with o2 in Hkey
      by now destruct o2.
    rewrite !dumps_dict in Hkey. now apply append_inv_head in Hkey.
Qed.

(** The theorem at work on [{temperature: 0.7, top_p: 0.9}] and
    [{top_p: 0.9, temperature: 0.7}]. *)
Lemma cache_key_same_insertion_order_witness :
  NoDup (dict_keys options_a) /\ NoDup (dict_keys options_b) /\
  same_items options_a options_b /\ ~ same_order options_a options_b /\
  _create_cache_key "llama3" "P" (Some options_a) <>
  _create_cache_key "llama3" "P" (Some options_b).
Proof.
  assert (NoDup (dict_keys options_b)) as Hb
    by (cbn; repeat constructor; rewrite ?elem_of_cons, ?elem_of_nil;
        intuition discriminate).
  assert (same_items options_a options_b) as Hs.
  { intros k. unfold options_a, options_b. cbn [dict_get].
    destruct (String.eqb "temperature" k) eqn:E1, (String.eqb "top_p" k) eqn:E2;
      try reflexivity.
    apply String.eqb_eq in E1, E2. congruence. }
  assert (~ same_order options_a options_b) as Ho by (cbv; discriminate).
  split; [apply options_a_NoDup|]. split; [exact Hb|]. split; [exact Hs|].
  split; [exact Ho|].
  apply (cache_key_same_insertion_order (fun s => s) "llama3" "P" options_a options_b
           options_a_NoDup Hb Hs).
  exact Ho.
Defined.

End ModelManagerFacts.

(** ** Steps *)

Module StepsFacts.
Import Py PyFacts Exn Str JSONProcessor Steps StepsSpec.

Section Returns.
Context {W : Type}.

Lemma returns_ret {A} (P : A -> Prop) (a : A) : P a -> returns P (ret (W := W) a).
Proof. intros H w a' w' [= <- _]. exact H. Qed.

Lemma returns_bind {A C} (P : C -> Prop) (m : M W A) (k : A -> M W C) :
  (forall a, returns P (k a)) -> returns P (bind m k).
Proof.
  intros H w c w'. unfold bind. destruct (m w) as [[a|e] w1]; [|discriminate].
  apply H.
Qed.

Lemma returns_try_except {A} (P : A -> Prop) (body : M W A) (handler : exn -> M W A) :
  returns P body -> (forall e, returns P (handler e)) ->
  returns P (try_except body handler).
Proof.
  intros Hb Hh w a w'. unfold try_except.
  destruct (body w) as [[a0|e] w1] eqn:E.
  - intros [= <- <-]. eapply Hb; eauto.
  - apply Hh.
Qed.

Lemma returns_weaken {A} (P Q : A -> Prop) (m : M W A) :
  (forall a, P a -> Q a) -> returns P m -> returns Q m.
Proof. intros H Hm w a w' E. eauto. Qed.

Lemma bind_inv {A C} (m : M W A) (k : A -> M W C) w c w' :
  bind m k w = (Ok c, w') ->
  exists a w1, m w = (Ok a, w1) /\ k a w1 = (Ok c, w').
Proof.
  unfold bind. destruct (m w) as [[a|e] w1]; [eauto | discriminate].
Qed.

Lemma returns_elim {A} (P : A -> Prop) (m : M W A) w a w' :
  returns P m -> m w = (Ok a, w') -> P a.
Proof. intros H E. exact (H w a w' E). Qed.

End Returns.

Lemma fallback_shape_weaken answered own cs cs' r :
  (forall m, m ∈ cs -> m ∈ cs') ->
  fallback_shape answered own cs r -> fallback_shape answered own cs' r.
Proof.
  intros Hsub [Hf [(Hs & m & res & Hm & Hrest)|H]]; split; auto.
  left. split; [exact Hs|]. exists m, res. auto.
Qed.

Section Env.
Context {W : Type}.
Variable check_model_health : string -> M W bool.
Variable generate_with_model : string -> string -> pydict -> M W pydict.
Variable generate_with_chat :
  string -> list value -> pydict -> option pydict -> M W pydict.
Variable time_time : M W value.
Variable py_sub : value -> value -> value.
Variable str_format : string -> pydict -> result string.
Variable capitalize : string -> string.
Variable half_capped : value -> result value.

Abbreviation try_fallbacks :=
  (try_fallbacks check_model_health generate_with_model time_time py_sub
                 str_format capitalize).
Abbreviation get_fallback :=
  (get_fallback check_model_health generate_with_model time_time py_sub
                str_format capitalize).
Abbreviation execute :=
  (execute check_model_health generate_with_model time_time py_sub
           str_format capitalize half_capped).
Abbreviation chat_try_fallbacks :=
  (chat_try_fallbacks check_model_health generate_with_chat time_time py_sub capitalize).
Abbreviation chat_get_fallback :=
  (chat_get_fallback check_model_health generate_with_chat time_time py_sub capitalize).
Abbreviation chat_execute :=
  (chat_execute check_model_health generate_with_model generate_with_chat time_time
                py_sub str_format capitalize half_capped).

Abbreviation completion_answered :=
  (completion_answered check_model_health generate_with_model).
Abbreviation chat_answered :=
  (chat_answered check_model_health generate_with_chat).

Lemma try_fallbacks_shape self data candidates :
  returns (fallback_shape (completion_answered self) (model_name self) candidates)
          (try_fallbacks self data candidates).
Proof.
  induction candidates as [|c cs IH]; simpl.
  - apply returns_ret. split; [reflexivity|]. right.
    split; [reflexivity|]. split; [reflexivity|]. eexists. split; reflexivity.
  - assert (returns (fallback_shape (completion_answered self) (model_name self)
                                    (c :: cs))
                    (try_fallbacks self data cs)) as IH'.
    { eapply returns_weaken; [|exact IH]. intros r.
      apply fallback_shape_weaken. intros m ?. now right. }
    intros w r w' Hrun.
    apply bind_inv in Hrun as (is_healthy & w1 & Hcheck & Hrun).
    destruct is_healthy; simpl in Hrun; [|exact (IH' _ _ _ Hrun)].
    apply bind_inv in Hrun as (prompt & w2 & _ & Hrun).
    apply bind_inv in Hrun as (t0 & w3 & _ & Hrun).
    apply bind_inv in Hrun as (result & w4 & Hgen & Hrun).
    apply bind_inv in Hrun as (t1 & w5 & _ & Hrun).
    destruct (dict_in "error" result) eqn:Herr; simpl in Hrun;
      [exact (IH' _ _ _ Hrun)|].
    injection Hrun as <- _. split; [reflexivity|]. left. split; [reflexivity|].
    exists c, result. split; [now left|]. split; [|split; reflexivity].
    split; [now exists w, w1|]. split; [exact Herr|]. now exists prompt, w3, w4.
Qed.

Lemma get_fallback_shape self data :
  returns (fallback_shape (completion_answered self) (model_name self)
                          (fallback_models self))
          (get_fallback self data).
Proof. apply try_fallbacks_shape. Qed.

Lemma execute_shape self data :
  returns (fallback_or_plain (completion_answered self) (model_name self)
                             (fallback_models self))
          (execute self data).
Proof.
  assert (returns (fallback_or_plain (completion_answered self) (model_name self)
                                     (fallback_models self))
                  (get_fallback self data)) as Hfb.
  { eapply returns_weaken; [|apply get_fallback_shape]. intros r. now right. }
  unfold Steps.execute. apply returns_try_except.
  - apply returns_bind. intros is_healthy.
    destruct (negb is_healthy && _); [exact Hfb|].
    apply returns_bind. intros prompt. apply returns_bind. intros t0.
    apply returns_bind. intros result. apply returns_bind. intros t1.
    destruct (dict_in "error" result && _); [exact Hfb|].
    apply returns_bind. intros result'. apply returns_ret. now left.
  - intros e. destruct (negb _); [exact Hfb|]. apply returns_ret. now left.
Qed.

Lemma chat_try_fallbacks_shape self data candidates :
  returns (fallback_shape (chat_answered self) (chat_model_name self) candidates)
          (chat_try_fallbacks self data candidates).
Proof.
  induction candidates as [|c cs IH]; simpl.
  - apply returns_ret. split; [reflexivity|]. right.
    split; [reflexivity|]. split; [reflexivity|]. eexists. split; reflexivity.
  - assert (returns (fallback_shape (chat_answered self) (chat_model_name self)
                                    (c :: cs))
                    (chat_try_fallbacks self data cs)) as IH'.
    { eapply returns_weaken; [|exact IH]. intros r.
      apply fallback_shape_weaken. intros m ?. now right. }
    intros w r w' Hrun.
    apply bind_inv in Hrun as (is_healthy & w1 & Hcheck & Hrun).
    destruct is_healthy; simpl in Hrun; [|exact (IH' _ _ _ Hrun)].
    apply bind_inv in Hrun as (messages & w2 & _ & Hrun).
    apply bind_inv in Hrun as (t0 & w3 & _ & Hrun).
    apply bind_inv in Hrun as (result & w4 & Hgen & Hrun).
    apply bind_inv in Hrun as (t1 & w5 & _ & Hrun).
    destruct (dict_in "error" result) eqn:Herr; simpl in Hrun;
      [exact (IH' _ _ _ Hrun)|].
    injection Hrun as <- _. split; [reflexivity|]. left. split; [reflexivity|].
    exists c, result. split; [now left|]. split; [|split; reflexivity].
    split; [now exists w, w1|]. split; [exact Herr|]. now exists messages, w3, w4.
Qed.

Lemma chat_execute_shape self data :
  returns (fallback_or_plain (chat_answered self) (chat_model_name self)
                             (chat_fallback_models self))
          (chat_execute self data).
Proof.
  assert (returns (fallback_or_plain (chat_answered self) (chat_model_name self)
                                     (chat_fallback_models self))
                  (chat_get_fallback self data)) as Hfb.
  { eapply returns_weaken; [|apply chat_try_fallbacks_shape]. intros r. now right. }
  unfold Steps.chat_execute. apply returns_try_except.
  - apply returns_bind. intros is_healthy.
    destruct (negb is_healthy && _); [exact Hfb|].
    apply returns_bind. intros messages. apply returns_bind. intros t0.
    apply returns_bind. intros result. apply returns_bind. intros t1.
    destruct (dict_in "error" result && _); [exact Hfb|].
    apply returns_bind. intros result'. apply returns_ret. now left.
  - intros e. destruct (negb _); [exact Hfb|]. apply returns_ret. now left.
Qed.

(** *** Schema handling of the two step classes *)

Lemma bind_assoc {A C D} (m : M W A) (k : A -> M W C) (h : C -> M W D) w :
  bind (bind m k) h w = bind m (fun a => bind (k a) h) w.
Proof. unfold bind. now destruct (m w) as [[a|e] w1]. Qed.

Lemma bind_ext {A C} (m : M W A) (k k' : A -> M W C) w :
  (forall a w1, k a w1 = k' a w1) -> bind m k w = bind m k' w.
Proof. intros H. unfold bind. destruct (m w) as [[a|e] w1]; auto. Qed.

Abbreviation schema_object :=
  (schema_object generate_with_model str_format half_capped).
Abbreviation chat_json_branch :=
  (chat_json_branch generate_with_model str_format half_capped).
Abbreviation completion_json_branch :=
  (completion_json_branch generate_with_model str_format half_capped).

(** The chat step stores the derived object under [parsed_output] and
    otherwise leaves the result alone. *)
Lemma chat_json_branch_factors (c : ChatModelStep) schema (result : pydict) text w :
  chat_json_branch c schema result text w =
  bind (schema_object (chat_model_name c) (chat_options c) schema
          (chat_use_patching c) (chat_max_patching_attempts c)
          (chat_patching_prompt c) text)
       (fun o => match o with
                 | Some p => ret (dict_set "parsed_output" (VDict p) result)
                 | None => ret result
                 end) w.
Proof.
  unfold Steps.chat_json_branch, StepsSpec.schema_object.
  assert (forall w,
    (if chat_use_patching c
     then bind (_patch_json_output generate_with_model str_format half_capped
                  (chat_model_name c) (chat_options c) schema (chat_use_patching c)
                  (chat_max_patching_attempts c) (chat_patching_prompt c) (VStr text))
               (fun patched => match patched with
                               | Some ((_ :: _) as p) =>
                                   ret (dict_set "parsed_output" (VDict p) result)
                               | _ => ret result
                               end)
     else ret result) w =
    bind (if chat_use_patching c
          then bind (_patch_json_output generate_with_model str_format half_capped
                       (chat_model_name c) (chat_options c) schema (chat_use_patching c)
                       (chat_max_patching_attempts c) (chat_patching_prompt c) (VStr text))
                    (fun patched => match patched with
                                    | Some ((_ :: _) as p) => ret (Some p)
                                    | _ => ret None
                                    end)
          else ret None)
         (fun o => match o with
                   | Some p => ret (dict_set "parsed_output" (VDict p) result)
                   | None => ret result
                   end) w) as Hpatch.
  { intros w0. destruct (chat_use_patching c); [|reflexivity].
    rewrite bind_assoc. apply bind_ext. intros [[|kv p]|] w1; reflexivity. }
  destruct (Json.loads text) as [parsed|[]]; try reflexivity; [|apply Hpatch].
  rewrite bind_assoc. apply bind_ext. intros [[] validated] w1; [reflexivity|].
  apply Hpatch.
Qed.

(** The completion step puts the derived object in place of the result and
    otherwise wraps the text when [fallback_to_text] is set. *)
Lemma completion_json_branch_factors (c : ChatModelStep) template schema
    (result : pydict) text w :
  completion_json_branch (as_completion c template) schema result text w =
  bind (schema_object (chat_model_name c) (chat_options c) schema
          (chat_use_patching c) (chat_max_patching_attempts c)
          (chat_patching_prompt c) text)
       (fun o => match o with
                 | Some p => ret p
                 | None => if chat_fallback_to_text c
                           then lift (wrap_text_as_json (VStr text))
                           else ret result
                 end) w.
Proof.
  unfold Steps.completion_json_branch, StepsSpec.schema_object, as_completion.
  cbn [model_name options use_patching max_patching_attempts patching_prompt
       fallback_to_text].
  set (wrap := if chat_fallback_to_text c
               then lift (wrap_text_as_json (VStr text)) else ret result).
  assert (forall w,
    (if chat_use_patching c
     then bind (_patch_json_output generate_with_model str_format half_capped
                  (chat_model_name c) (chat_options c) schema (chat_use_patching c)
                  (chat_max_patching_attempts c) (chat_patching_prompt c) (VStr text))
               (fun patched => match patched with
                               | Some ((_ :: _) as p) => ret p
                               | _ => wrap
                               end)
     else wrap) w =
    bind (if chat_use_patching c
          then bind (_patch_json_output generate_with_model str_format half_capped
                       (chat_model_name c) (chat_options c) schema (chat_use_patching c)
                       (chat_max_patching_attempts c) (chat_patching_prompt c) (VStr text))
                    (fun patched => match patched with
                                    | Some ((_ :: _) as p) => ret (Some p)
                                    | _ => ret None
                                    end)
          else ret None)
         (fun o => match o with
                   | Some p => ret p
                   | None => wrap
                   end) w) as Hpatch.
  { intros w0. destruct (chat_use_patching c); [|reflexivity].
    rewrite bind_assoc. apply bind_ext. intros [[|kv p]|] w1; reflexivity. }
  destruct (Json.loads text) as [parsed|[]]; try reflexivity; [|apply Hpatch].
  rewrite bind_assoc. apply bind_ext. intros [[] validated] w1; [reflexivity|].
  apply Hpatch.
Qed.

Lemma bind_cong {A C} (m m' : M W A) (k k' : A -> M W C) w :
  m w = m' w -> (forall a w1, k a w1 = k' a w1) -> bind m k w = bind m' k' w.
Proof. intros Hm Hk. unfold bind. rewrite Hm. destruct (m' w) as [[a|e] w1]; auto. Qed.

Lemma try_except_cong {A} (body body' : M W A) (h h' : exn -> M W A) w :
  body w = body' w -> (forall e w1, h e w1 = h' e w1) ->
  try_except body h w = try_except body' h' w.
Proof.
  intros Hb Hh. unfold try_except. rewrite Hb.
  destruct (body' w) as [[a|e] w1]; auto.
Qed.

(** [chat_execute] calls [generate_with_chat] with the schema's JSON schema
    as its [format] argument only: another manager that agrees on such
    calls gives the same run. *)
Lemma chat_execute_format (g' : string -> list value -> pydict -> option pydict -> M W pydict)
    (c : ChatModelStep) (data : pydict) :
  (forall model messages opts w,
     generate_with_chat model messages opts (format_options_of c) w =
     g' model messages opts (format_options_of c) w) ->
  forall w,
    chat_execute c data w =
    Steps.chat_execute check_model_health generate_with_model g' time_time py_sub
      str_format capitalize half_capped c data w.
Proof.
  intros Hg.
  assert (forall cs w,
    chat_try_fallbacks c data cs w =
    Steps.chat_try_fallbacks check_model_health g' time_time py_sub capitalize
      c data cs w) as Hfb.
  { induction cs as [|m cs IH]; intros w; simpl; [reflexivity|].
    apply bind_ext. intros is_healthy w1. destruct is_healthy; simpl; [|apply IH].
    apply bind_ext. intros messages w2. apply bind_ext. intros t0 w3.
    apply bind_cong; [apply Hg|]. intros r w4.
    apply bind_ext. intros t1 w5. destruct (negb _); [reflexivity | apply IH]. }
  intros w. unfold Steps.chat_execute. apply try_except_cong.
  - apply bind_ext. intros is_healthy w1.
    destruct (negb is_healthy && _); [apply Hfb|].
    apply bind_ext. intros messages w2. apply bind_ext. intros t0 w3.
    apply bind_cong; [apply Hg|]. intros r w4.
    apply bind_ext. intros t1 w5. destruct (dict_in "error" r && _); [apply Hfb|].
    reflexivity.
  - intros e w1. destruct (negb _); [apply Hfb | reflexivity].
Qed.

(** C6, amended: a result of [execute] or [get_fallback], of a completion
    or a chat step, that has [fallback = True] is either a success whose
    [model] is the fallback candidate that answered (one of the step's
    [fallback_models], whose health check passed and whose generation
    returned, without an [error] key, the dictionary that is the result's
    [output]), or the [all_models_failed] error, whose [model] is the step's
    own [model_name]. *)
Theorem fallback_result_model (self : ModelStep) (chat : ChatModelStep)
    (data : pydict) :
  returns (fun r => dict_get "fallback" r = Some (VBool true) ->
                    fallback_shape (completion_answered self) (model_name self)
                                   (fallback_models self) r)
          (execute self data) /\
  returns (fallback_shape (completion_answered self) (model_name self)
                          (fallback_models self))
          (get_fallback self data) /\
  returns (fun r => dict_get "fallback" r = Some (VBool true) ->
                    fallback_shape (chat_answered chat) (chat_model_name chat)
                                   (chat_fallback_models chat) r)
          (chat_execute chat data) /\
  returns (fallback_shape (chat_answered chat) (chat_model_name chat)
                          (chat_fallback_models chat))
          (chat_get_fallback chat data).
Proof.
  split; [|split; [|split]].
  - eapply returns_weaken; [|apply execute_shape].
    intros r [Hn|Hs] Hf; [congruence | exact Hs].
  - apply get_fallback_shape.
  - eapply returns_weaken; [|apply chat_execute_shape].
    intros r [Hn|Hs] Hf; [congruence | exact Hs].
  - apply chat_try_fallbacks_shape.
Qed.
End Env.

(** Counterexample to C6: a step for model [m] with fallback [f], when
    neither model passes its health check, returns a result with
    [fallback = True] whose [model] is [m], the step's own model. *)
Lemma all_models_failed_names_own_model :
  exists r,
    execute (toy_health 5) (toy_generate (VStr "ok")) toy_time toy_sub toy_format
            toy_capitalize toy_half_capped (toy_step ["f"]) [("query", VStr "q")] 0%nat
    = (Ok r, 2%nat) /\
    dict_get "fallback" r = Some (VBool true) /\
    dict_get "status" r = Some (VStr "error") /\
    dict_get "model" r = Some (VStr (model_name (toy_step ["f"]))).
Proof. eexists. split; [vm_compute; reflexivity|]. repeat split. Qed.


End StepsFacts.

(** ** Pipeline.run *)

Module PipelineFacts.
Import Py PyFacts Exn Pipeline PipelineSpec.

Section Plan.
Context {W : Type}.
Implicit Types (rem : list (string * list string)) (steps : steps_t W).

Lemma ready_steps_in_keys (res : results_t) rem x :
  x ∈ ready_steps res rem -> x ∈ dict_keys rem.
Proof.
  unfold ready_steps, dict_keys. induction rem as [|[k ds] rem IH]; simpl; auto.
  destruct (forallb _ ds); simpl; rewrite !elem_of_cons; tauto.
Qed.

Lemma ready_steps_NoDup (res : results_t) rem :
  NoDup (dict_keys rem) -> NoDup (ready_steps res rem).
Proof.
  unfold ready_steps. induction rem as [|[k ds] rem IH]; simpl; auto.
  intros [Hk Hnd]%NoDup_cons. destruct (forallb _ ds); simpl; auto.
  apply NoDup_cons. split; auto.
  intros Hin. apply Hk. now apply (ready_steps_in_keys res).
Qed.

Lemma del_all_length names rem : length (del_all names rem) <= length rem.
Proof.
  revert rem. induction names as [|n names IH]; simpl; intros rem; auto.
  etransitivity; [apply IH | apply dict_del_length].
Qed.

Lemma del_all_keys_incl names rem x :
  x ∈ dict_keys (del_all names rem) -> x ∈ dict_keys rem.
Proof.
  revert rem. induction names as [|n names IH]; simpl; intros rem; auto.
  intros H. apply IH in H. now apply dict_keys_del_incl in H.
Qed.

Lemma del_all_NoDup names rem :
  NoDup (dict_keys rem) -> NoDup (dict_keys (del_all names rem)).
Proof.
  revert rem. induction names as [|n names IH]; simpl; intros rem Hnd; auto.
  apply IH. now apply dict_keys_del_NoDup.
Qed.

Lemma del_all_removes names rem x :
  NoDup (dict_keys rem) -> x ∈ names -> x ∉ dict_keys (del_all names rem).
Proof.
  revert rem. induction names as [|n names IH]; simpl; intros rem Hnd.
  - now intros ?%elem_of_nil.
  - intros [->|Hin]%elem_of_cons.
    + intros H%del_all_keys_incl. revert H. now apply dict_keys_del_not_in.
    + apply IH; auto. now apply dict_keys_del_NoDup.
Qed.

(** The planning loop always ends within its budget. *)
Lemma plan_loop_total fuel (res : results_t) rem plan :
  length rem <= fuel -> exists p, plan_loop fuel res rem plan = Some p.
Proof.
  revert rem plan. induction fuel as [|fuel IH]; intros rem plan Hlen.
  - destruct rem; simpl in *; [eauto | lia].
  - destruct rem as [|e rem]; [simpl; eauto|].
    cbn [plan_loop]. destruct (ready_steps res (e :: rem)) as [|r rs] eqn:Er; eauto.
    apply IH. change (length (del_all (r :: rs) (e :: rem)) <= fuel).
    assert (dict_in r (e :: rem) = true) as Hin.
    { apply dict_in_keys, (ready_steps_in_keys res). rewrite Er. left. }
    apply dict_del_length_in in Hin. simpl del_all.
    pose proof (del_all_length rs (dict_del r (e :: rem))). simpl in *. lia.
Qed.

(** A plan never names a step twice. *)
Lemma plan_loop_NoDup fuel (res : results_t) rem plan p :
  NoDup (dict_keys rem) -> NoDup plan ->
  (forall x, x ∈ plan -> x ∉ dict_keys rem) ->
  plan_loop fuel res rem plan = Some p -> NoDup p.
Proof.
  revert rem plan. induction fuel as [|fuel IH]; intros rem plan Hrem Hplan Hdisj.
  - destruct rem as [|e rem]; simpl; [congruence|].
    destruct (ready_steps res (e :: rem)); [congruence | discriminate].
  - destruct rem as [|e rem]; [simpl; congruence|].
    cbn [plan_loop]. destruct (ready_steps res (e :: rem)) as [|r rs] eqn:Er;
      [congruence|].
    apply IH.
    + now apply (del_all_NoDup (r :: rs)).
    + apply NoDup_app. split; [auto|]. split.
      * intros x Hx Hx'. apply (Hdisj x Hx).
        apply (ready_steps_in_keys res). now rewrite Er.
      * rewrite <- Er. now apply ready_steps_NoDup.
    + intros x [Hx|Hx]%elem_of_app.
      * intros H%(del_all_keys_incl (r :: rs)). now apply (Hdisj x).
      * now apply (del_all_removes (r :: rs)).
Qed.

Lemma remaining_of_NoDup steps : NoDup (dict_keys (remaining_of steps)).
Proof.
  unfold remaining_of.
  assert (forall acc : list (string * list string),
             NoDup (dict_keys acc) ->
             NoDup (dict_keys (fold_left
               (fun acc (s : string * AnalysisStep W * list string) =>
                  dict_set (fst (fst s)) (snd s) acc) steps acc))) as H.
  { induction steps as [|s steps IH]; simpl; auto.
    intros acc Hacc. apply IH. now apply dict_keys_set_NoDup. }
  apply H. constructor.
Qed.

Lemma execution_plan_total steps (res : results_t) :
  exists p, execution_plan_of steps res = Some p /\ NoDup p.
Proof.
  unfold execution_plan_of.
  destruct (plan_loop_total (length (remaining_of steps)) res
              (remaining_of steps) []) as [p Hp]; [lia|].
  exists p. split; [exact Hp|].
  eapply plan_loop_NoDup; [apply remaining_of_NoDup | constructor | | exact Hp].
  now intros x ?%elem_of_nil.
Qed.
End Plan.

Section RunInvariant.
Context {W : Type}.
Implicit Types (res : results_t) (st : run_state W) (steps : steps_t W).

Lemma dict_get_some_of_key {V} k (d : list (string * V)) :
  k ∈ dict_keys d -> exists v, dict_get k d = Some v.
Proof.
  intros H%dict_in_keys. unfold dict_in in H.
  destruct (dict_get k d); [eauto | discriminate].
Qed.

Lemma robust_data_untouched res (input : pydict) p :
  p ∉ dict_keys res ->
  dict_get p (robust_data_of input res) = dict_get p input.
Proof.
  unfold robust_data_of. revert input.
  induction res as [|[k r] res IH]; simpl; intros input Hp; auto.
  apply not_elem_of_cons in Hp as [Hne Hp].
  rewrite IH by auto. apply dict_get_set_other. congruence.
Qed.

(** Every recorded result reaches the data of the next call, in the
    wrapped form of [prev_output_of]. *)
Lemma robust_data_binds res (input : pydict) p r :
  NoDup (dict_keys res) -> dict_get p res = Some r ->
  dict_get p (robust_data_of input res) = Some (prev_output_of r).
Proof.
  unfold robust_data_of. revert input.
  induction res as [|[k v] res IH]; simpl; intros input Hnd Hget; [discriminate|].
  apply NoDup_cons in Hnd as [Hk Hnd].
  destruct (String.eqb k p) eqn:E.
  - apply String.eqb_eq in E. subst k. injection Hget as ->.
    pose proof (robust_data_untouched res (dict_set p (prev_output_of r) input) p Hk) as H.
    unfold robust_data_of in H. rewrite H. apply dict_get_set_same.
  - now apply IH.
Qed.

Lemma inv_weaken st done done' :
  inv st done -> (forall x, x ∈ done -> x ∈ done') -> inv st done'.
Proof. intros [] H. constructor; auto. Qed.

(** Recording one or two writes for a fresh name [s], with or without a
    new call, keeps the invariant. *)
Lemma inv_record st done s (input : pydict) res' data' calls' (w' : W) :
  inv st done -> s ∉ done ->
  NoDup (dict_keys res') ->
  (forall x, x ∈ dict_keys res' <-> x = s \/ x ∈ dict_keys (results st)) ->
  (forall p, p <> s -> dict_get p res' = dict_get p (results st)) ->
  calls' = calls st \/
    calls' = calls st ++ [(s, robust_data_of input (results st))] ->
  inv {| results := res'; data := data'; calls := calls'; world := w' |}
      (done ++ [s]).
Proof.
  intros [Hnd Hdone Hcalled Hcalls] Hs Hnd' Hkeys Hoff Hc.
  assert (forall p d, bound_to_recorded (results st) d p ->
                      bound_to_recorded res' d p) as Hkeep.
  { intros p d (r & Hr & Hd). exists r. split; auto.
    rewrite Hoff; auto. intros ->. apply Hs, Hdone. eapply dict_get_in; eauto. }
  constructor; simpl; auto.
  - intros x [->|Hx]%Hkeys; rewrite elem_of_app, list_elem_of_singleton; auto.
  - intros n d Hin. apply Hkeys.
    destruct Hc as [->| ->]; [eauto|].
    apply elem_of_app in Hin as [Hin|Hin]; [eauto|].
    apply list_elem_of_singleton in Hin. injection Hin as -> ->. now left.
  - intros l1 n d l2 Heq p dp Hp. destruct Hc as [->| ->]; [eauto|].
    destruct l2 as [|c l2 _] using rev_ind.
    + apply app_inj_tail in Heq as [<- Heq]. injection Heq as <- <-.
      destruct (dict_get_some_of_key p (results st)) as [r Hr]; [eauto|].
      exists r. split.
      * rewrite Hoff; auto. intros ->. apply Hs, Hdone. eauto.
      * now apply robust_data_binds.
    + rewrite app_comm_cons, app_assoc in Heq.
      apply app_inj_tail in Heq as [Heq _]. eauto.
Qed.

Lemma run_step_inv steps (input : pydict) st done s :
  inv st done -> s ∉ done ->
  inv (run_step steps input st s) (done ++ [s]).
Proof.
  intros Hinv Hs. unfold run_step.
  destruct (find_step steps s) as [[[name step] deps]|] eqn:Ef.
  2:{ eapply inv_weaken; [eauto|]. intros x ?. apply elem_of_app. now left. }
  apply find_some in Ef as [_ Ename]. simpl in Ename.
  apply String.eqb_eq in Ename. subst name.
  pose proof (inv_nodup _ _ Hinv) as Hnd.
  assert (forall r, NoDup (dict_keys (dict_set s r (results st)))) as Hnd1
    by (intros; now apply dict_keys_set_NoDup).
  assert (forall r x, x ∈ dict_keys (dict_set s r (results st)) <->
                      x = s \/ x ∈ dict_keys (results st)) as Hk1
    by (intros; apply dict_keys_set_elem).
  assert (forall r p, p <> s ->
            dict_get p (dict_set s r (results st)) = dict_get p (results st)) as Ho1
    by (intros; apply dict_get_set_other; congruence).
  destruct (List.filter _ deps) as [|m ms].
  - destruct (execute step _ (world st)) as [[result| |msg] w'];
      unfold record_result;
      repeat match goal with
             | |- context [match ?x with _ => _ end] => destruct x
             end;
      try (eapply inv_record; eauto; fail).
    all: eapply inv_record; eauto;
      [ now apply dict_keys_set_NoDup
      | intros x; rewrite dict_keys_set_elem, Hk1; tauto
      | intros p Hp; rewrite dict_get_set_other by congruence; auto ].
  - eapply (inv_record _ _ _ input); eauto.
Qed.

Lemma run_fold_inv steps (input : pydict) plan st done :
  inv st done -> NoDup plan -> (forall x, x ∈ plan -> x ∉ done) ->
  inv (fold_left (run_step steps input) plan st) (done ++ plan).
Proof.
  revert st done. induction plan as [|s plan IH]; simpl; intros st done Hinv Hnd Hd.
  - now rewrite app_nil_r.
  - apply NoDup_cons in Hnd as [Hs Hnd].
    replace (done ++ s :: plan) with ((done ++ [s]) ++ plan)
      by now rewrite <- app_assoc.
    apply IH; auto.
    + apply run_step_inv; auto. apply Hd. left.
    + intros x Hx [Hx'| ->%list_elem_of_singleton]%elem_of_app; [|contradiction].
      apply (Hd x); auto. now right.
Qed.

Lemma run_total (self : pipeline W) (input : pydict) (w : W) :
  exists (rr : run_result W) (plan : list string),
    run self input w = Some rr /\ inv (final rr) plan.
Proof.
  unfold run. simpl. set (steps := pipeline_steps self).
  destruct (execution_plan_total steps []) as (p & -> & Hnd).
  eexists. exists ([] ++ p). split; [reflexivity|]. simpl final.
  apply run_fold_inv; auto.
  - constructor; simpl; try constructor; try now intros ? ?%elem_of_nil.
    + now intros ? ? ?%elem_of_nil.
    + intros [|? ?] ? ? ? H; discriminate.
  - now intros x _ ?%elem_of_nil.
Qed.
End RunInvariant.

(** *** Claims about [Pipeline.run] *)

(** C10: in every run, the data passed to an [execute] call binds the name
    of every step executed before it, declared dependency or not, to the
    output recorded for that step in [results]: to the output itself when
    it is a dictionary, to [{"response": str(output)}] when it is anything
    else, and to the empty dictionary when the recorded result has no
    output. *)
Theorem run_binds_previous_outputs {W : Type} (self : pipeline W)
    (input_data : pydict) (w : W) :
  exists rr : run_result W,
    run self input_data w = Some rr /\
    forall l1 n d l2, calls (final rr) = l1 ++ (n, d) :: l2 ->
    forall p dp, (p, dp) ∈ l1 ->
    exists r, dict_get p (results (final rr)) = Some r /\
      (forall out, dict_get "output" r = Some (VDict out) ->
                   dict_get p d = Some (VDict out)) /\
      (forall out, dict_get "output" r = Some out ->
                   (forall o, out <> VDict o) ->
                   dict_get p d = Some (VDict [("response", VStr (py_str out))])) /\
      (dict_get "output" r = None -> dict_get p d = Some (VDict [])).
Proof.
  destruct (run_total self input_data w) as (rr & plan & Hrun & Hinv).
  exists rr. split; [exact Hrun|].
  intros l1 n d l2 Hc p dp Hp.
  destruct (inv_calls _ _ Hinv _ _ _ _ Hc _ _ Hp) as (r & Hr & Hd).
  exists r. split; [exact Hr|]. rewrite Hd. unfold prev_output_of.
  split; [|split].
  - now intros out ->.
  - intros out -> Hnot. destruct out; try reflexivity. now contradiction (Hnot d0).
  - now intros ->.
Qed.

(** C2, evaluated on the code: with [A] timing out and [B] failing, the
    data passed to [C] binds [A] and [B] to their actual error outputs.  The
    [step_failed] placeholders are written to the local [data], which no
    [execute] call ever receives. *)
Theorem failed_step_placeholder_not_passed :
  exists (rr : run_result unit) (dB dC : pydict),
    init failing_pipeline = Some (Ok {| pipeline_steps := failing_pipeline |}) /\
    run {| pipeline_steps := failing_pipeline |} [("query", VStr "q")] tt = Some rr /\
    calls (final rr) = [("A", [("query", VStr "q")]); ("B", dB); ("C", dC)] /\
    dict_get "A" dC = Some (VDict [("response", VStr "Execution timed out after 300s");
                                   ("error", VStr "timeout")]) /\
    dict_get "B" dC = Some (VDict [("response", VStr "Error from B");
                                   ("error", VStr "mock_error")]) /\
    dict_get "A" dC <> Some (step_failed_placeholder "A") /\
    dict_get "B" dC <> Some (step_failed_placeholder "B") /\
    dict_get "A" (data (final rr)) = Some (step_failed_placeholder "A") /\
    dict_get "B" (data (final rr)) = Some (step_failed_placeholder "B").
Proof.
  eexists _, _, _. split; [vm_compute; reflexivity|].
  split; [vm_compute; reflexivity|].
  split; [vm_compute; reflexivity|].
  repeat split; try (vm_compute; reflexivity); vm_compute; discriminate.
Qed.

End PipelineFacts.

(** ** Cycle detection *)

Module DfsFacts.
Import Py PyFacts Exn Pipeline PipelineSpec.

Section Walks.
Variable graph : list (string * list string).
Abbreviation edge := (edge graph).
Abbreviation is_walk := (is_walk graph).

Lemma is_walk_suffix l1 l2 : is_walk (l1 ++ l2) -> is_walk l2.
Proof.
  induction l1 as [|x l1 IH]; simpl; auto.
  destruct (l1 ++ l2) eqn:E; intros H.
  - destruct l1; [simpl in E; subst; exact I | discriminate].
  - apply IH. tauto.
Qed.

Lemma is_walk_snoc l x y :
  is_walk (l ++ [x]) -> edge x y -> is_walk ((l ++ [x]) ++ [y]).
Proof.
  intros Hw He. induction l as [|a l IH]; simpl in *.
  - auto.
  - destruct (l ++ [x]) as [|b l'] eqn:E.
    + destruct l; discriminate.
    + simpl. split; [tauto|]. apply IH. tauto.
Qed.

Lemma walk_tc x l y : is_walk (x :: l ++ [y]) -> tc edge x y.
Proof.
  revert x. induction l as [|a l IH]; intros x; simpl.
  - intros [H _]. now apply tc_once.
  - intros [H Hw]. eapply tc_l; [exact H|]. now apply IH.
Qed.

Lemma closed_walk_cyclic c : closed_walk graph c -> cyclic graph.
Proof. intros (x & mid & -> & Hw). exists x. now apply (walk_tc x mid x). Qed.

Lemma from_first_split node path :
  node ∈ path ->
  exists l1 l2, path = l1 ++ node :: l2 /\ from_first node path = node :: l2.
Proof.
  induction path as [|x path IH]; [now intros ?%elem_of_nil|].
  intros Hin. simpl. destruct (String.eqb x node) eqn:E.
  - apply String.eqb_eq in E. subst x. now exists [], path.
  - apply elem_of_cons in Hin as [->|Hin]; [rewrite String.eqb_refl in E; discriminate|].
    destruct (IH Hin) as (l1 & l2 & -> & Hf). exists (x :: l1), l2. auto.
Qed.

(** Re-entering a step on the path reports a closed walk. *)
Lemma cycle_is_closed_walk node path :
  node ∈ path -> is_walk (path ++ [node]) ->
  closed_walk graph (from_first node path ++ [node]).
Proof.
  intros Hin Hw. destruct (from_first_split node path Hin) as (l1 & l2 & -> & ->).
  exists node, l2. split; [reflexivity|].
  rewrite <- app_assoc in Hw. now apply is_walk_suffix in Hw.
Qed.

Lemma closed_rtc visited path u w :
  closed graph visited path -> black visited path u -> rtc edge u w ->
  black visited path w.
Proof. intros Hc Hb Hr. induction Hr; eauto. Qed.

Lemma unvisited_mono (V V' : gset string) :
  V ⊆ V' -> unvisited graph V' <= unvisited graph V.
Proof. intros H. apply subseteq_size. set_solver. Qed.

Lemma unvisited_add (V : gset string) node :
  dict_in node graph = true -> node ∉ V ->
  unvisited graph ({[node]} ∪ V) < unvisited graph V.
Proof.
  intros Hin Hn. apply subset_size. apply dict_in_keys in Hin.
  assert (node ∈ (list_to_set (dict_keys graph) : gset string)) by
    now apply elem_of_list_to_set.
  set_solver.
Qed.

Lemma size_list_to_set_le (l : list string) :
  size (list_to_set l : gset string) <= length l.
Proof.
  induction l as [|x l IH].
  - rewrite list_to_set_nil, size_empty. simpl. lia.
  - rewrite list_to_set_cons, size_union_alt, size_singleton. simpl.
    assert (size ((list_to_set l : gset string) ∖ {[x]}) <= size (list_to_set l : gset string))
      by (apply subseteq_size; set_solver).
    lia.
Qed.

Lemma unvisited_bound (V : gset string) : unvisited graph V <= length graph.
Proof.
  unfold unvisited.
  transitivity (size (list_to_set (dict_keys graph) : gset string)).
  - apply subseteq_size. set_solver.
  - etransitivity; [apply size_list_to_set_le|].
    unfold dict_keys. now rewrite length_map.
Qed.

(** The loop over the dependencies of [node], given the specification of
    the recursive call. *)
Lemma visit_spec path (rec : gset string -> string -> dfs_result) (V0 : gset string) :
  (forall V dep, V0 ⊆ V -> dict_in dep graph = true -> dfs_pre graph path V ->
                 is_walk (path ++ [dep]) -> dfs_post graph path V dep (rec V dep)) ->
  forall deps V, V0 ⊆ V -> dfs_pre graph path V ->
    (forall d, d ∈ deps -> dict_in d graph = true -> is_walk (path ++ [d])) ->
    visit_post graph path V deps (visit rec graph deps V).
Proof.
  intros Hrec. induction deps as [|dep deps IH]; intros V HV Hpre Hw; simpl.
  - destruct Hpre as (? & ? & ?).
    split; [reflexivity|]. split; [assumption|]. split; [assumption|].
    intros d Hd. now apply elem_of_nil in Hd.
  - assert (forall d, d ∈ deps -> dict_in d graph = true -> is_walk (path ++ [d])) as Hw'.
    { intros d Hd. apply Hw. now right. }
    destruct (dict_in dep graph) eqn:Edep.
    + assert (dep ∈ dep :: deps) as Hdep by now left.
      specialize (Hrec V dep HV Edep Hpre (Hw dep Hdep Edep)).
      destruct (rec V dep) as [V1| |]; simpl in Hrec; auto.
      destruct Hrec as (HVV1 & Hb & Hcl & Hnc).
      assert (dfs_pre graph path V1) as Hpre1.
      { destruct Hpre as (Hp & _ & _). split; [|split]; auto. }
      assert (V0 ⊆ V1) as HV1 by (etransitivity; eauto).
      specialize (IH V1 HV1 Hpre1 Hw').
      destruct (visit rec graph deps V1) as [V2| |]; simpl in *; auto.
      destruct IH as (HV12 & Hcl2 & Hnc2 & Hall).
      split; [etransitivity; eauto|]. split; [assumption|]. split; [assumption|].
      intros d [->|Hd]%elem_of_cons Hin; [|now apply Hall].
      destruct Hb as [Hb1 Hb2]. split; auto.
    + specialize (IH V HV Hpre Hw').
      destruct (visit rec graph deps V) as [V2| |]; simpl in *; auto.
      destruct IH as (HV12 & Hcl2 & Hnc2 & Hall).
      split; [assumption|]. split; [assumption|]. split; [assumption|].
      intros d [->|Hd]%elem_of_cons Hin; [congruence | now apply Hall].
Qed.

Lemma black_push (V : gset string) path node u :
  node ∉ V ->
  black ({[node]} ∪ V) (path ++ [node]) u <-> black V path u.
Proof.
  intros Hn. unfold black.
  rewrite elem_of_union, elem_of_singleton, elem_of_app, list_elem_of_singleton.
  split.
  - intros [[->|Hu] Hp]; [tauto|]. split; auto.
  - intros [Hu Hp]. split; [auto|]. intros [?| ->]; auto.
Qed.

(** The specification of [dfs]: with a budget above the number of
    unvisited steps it returns or reports a closed walk. *)
Lemma dfs_spec fuel : forall path (V : gset string) node,
  unvisited graph V < fuel -> dict_in node graph = true ->
  dfs_pre graph path V -> is_walk (path ++ [node]) ->
  dfs_post graph path V node (dfs fuel graph path V node).
Proof.
  induction fuel as [|fuel IH]; intros path V node Hfuel Hnode Hpre Hw; [lia|].
  cbn [dfs]. destruct Hpre as (Hpath & Hcl & Hnc).
  case_bool_decide as Hin; [now apply cycle_is_closed_walk|].
  case_bool_decide as Hvis.
  { simpl. split; [reflexivity|]. split; [split; auto|]. split; auto. }
  destruct (dict_get node graph) as [deps|] eqn:Edeps.
  2:{ unfold dict_in in Hnode. rewrite Edeps in Hnode. discriminate. }
  set (V1 := {[node]} ∪ V). set (path1 := path ++ [node]).
  assert (dfs_pre graph path1 V1) as Hpre1.
  { split; [|split].
    - intros x [Hx| ->%list_elem_of_singleton]%elem_of_app; subst V1; set_solver.
    - intros u v Hu He. apply black_push; auto. apply black_push in Hu; eauto.
    - intros u Hu. apply black_push in Hu; auto. }
  pose proof (unvisited_add V node Hnode Hvis) as Hlt.
  assert (visit_post graph path1 V1 deps
            (visit (dfs fuel graph path1) graph deps V1)) as Hloop.
  { apply (visit_spec path1 (dfs fuel graph path1) V1); auto.
    - intros V2 dep HV2 Hdep Hpre2 Hw2. apply IH; auto.
      pose proof (unvisited_mono V1 V2 HV2). fold V1 in Hlt. lia.
    - intros d Hd Hdin. apply is_walk_snoc; auto. exists deps. auto. }
  destruct (visit (dfs fuel graph path1) graph deps V1) as [V'| |]; simpl in *; auto.
  destruct Hloop as (HV1 & Hcl' & Hnc' & Hall).
  assert (node ∈ V') as HnodeV by (subst V1; set_solver).
  assert (node ∈ path1) as Hnode1 by (subst path1; set_solver).
  assert (forall u, black V' path u -> u = node \/ black V' path1 u) as Hsplit.
  { intros u [Hu Hp]. destruct (decide (u = node)) as [->|Hne]; [now left|].
    right. split; auto. subst path1. set_solver. }
  assert (forall u, black V' path1 u -> black V' path u) as Hweak.
  { intros u [Hu Hp]. split; auto. subst path1. set_solver. }
  assert (forall v, edge node v -> black V' path1 v) as Hsucc.
  { intros v (deps' & Hd & Hv & Hvin). rewrite Edeps in Hd. injection Hd as <-. auto. }
  split; [subst V1; set_solver|]. split; [split; auto|]. split.
  - intros u v Hu He. apply Hweak. destruct (Hsplit u Hu) as [->|Hb]; eauto.
  - intros u Hu Htc. destruct (Hsplit u Hu) as [->|Hb]; [|now apply (Hnc' u)].
    assert (exists y, edge node y /\ rtc edge y node) as (y & Hy & Hr).
    { inversion Htc; subst; [exists node; split; [auto | apply rtc_refl]|].
      eexists. split; [eauto|]. now apply tc_rtc. }
    destruct (closed_rtc V' path1 y node Hcl' (Hsucc y Hy) Hr) as [_ Hout].
    contradiction.
Qed.

(** The loop [for node in graph: dfs(node)]. *)
Lemma dfs_all_spec fuel nodes : forall (V : gset string),
  length graph < fuel ->
  (forall x, x ∈ nodes -> dict_in x graph = true) ->
  closed graph V [] -> nocyc graph V [] ->
  match dfs_all fuel graph nodes V with
  | NoFuel => False
  | Cycle c => closed_walk graph c
  | Done V' =>
      V ⊆ V' /\ closed graph V' [] /\ nocyc graph V' [] /\
      (forall x, x ∈ nodes -> x ∈ V')
  end.
Proof.
  induction nodes as [|node nodes IH]; intros V Hfuel Hnodes Hcl Hnc; simpl.
  - split; [reflexivity|]. split; [assumption|]. split; [assumption|].
    intros x Hx. now apply elem_of_nil in Hx.
  - assert (dfs_post graph [] V node (dfs fuel graph [] V node)) as Hd.
    { apply dfs_spec.
      - pose proof (unvisited_bound V). lia.
      - apply Hnodes. now left.
      - split; [|split]; auto. intros x Hx. now apply elem_of_nil in Hx.
      - exact I. }
    destruct (dfs fuel graph [] V node) as [V1| |]; simpl in Hd; auto.
    destruct Hd as (HV1 & [Hb _] & Hcl1 & Hnc1).
    assert (forall x, x ∈ nodes -> dict_in x graph = true) as Hnodes'.
    { intros x Hx. apply Hnodes. now right. }
    specialize (IH V1 Hfuel Hnodes' Hcl1 Hnc1).
    destruct (dfs_all fuel graph nodes V1) as [V2| |]; auto.
    destruct IH as (HV2 & Hcl2 & Hnc2 & Hall).
    split; [etransitivity; eauto|]. split; [assumption|]. split; [assumption|].
    intros x [->|Hx]%elem_of_cons; auto.
Qed.

(** [_validate_steps] decides whether the graph has a cycle, and reports
    a closed walk when it has one. *)
Lemma validate_graph_spec :
  match validate_graph graph with
  | NoFuel => False
  | Cycle c => closed_walk graph c
  | Done _ => ~ cyclic graph
  end.
Proof.
  unfold validate_graph.
  pose proof (dfs_all_spec (S (length graph)) (dict_keys graph) ∅) as H.
  assert (forall u, ~ black ∅ [] u) as Hempty.
  { intros u [Hu _]. set_solver. }
  specialize (H ltac:(lia)).
  specialize (H ltac:(intros x Hx; now apply dict_in_keys)).
  specialize (H ltac:(intros u v Hu; now apply Hempty in Hu)).
  specialize (H ltac:(intros u Hu; now apply Hempty in Hu)).
  destruct (dfs_all (S (length graph)) graph (dict_keys graph) ∅) as [V| |]; auto.
  destruct H as (_ & _ & Hnc & Hall). intros [u Hu].
  apply (Hnc u); [|exact Hu]. split; [|apply not_elem_of_nil].
  apply Hall. assert (exists v, edge u v) as [v (deps & Hd & _)].
  { inversion Hu; subst; eauto. }
  eapply dict_get_in; eauto.
Qed.
End Walks.

Lemma graph_of_NoDup {W : Type} (steps : steps_t W) :
  NoDup (dict_keys (graph_of steps)).
Proof. apply (PipelineFacts.remaining_of_NoDup steps). Qed.


(** The two-step cycle of the specification's scenario. *)
Example init_two_step_cycle :
  init [("a", hanging_step "a", ["b"]); ("b", hanging_step "b", ["a"])] =
  Some (Raise (ValueError "Circular dependency detected: a -> b -> a")).
Proof. vm_compute. reflexivity. Qed.

End DfsFacts.

(** ** More about [Pipeline.run]: which steps run, and what is recorded *)

Module RunFacts.
Import Py PyFacts Exn Pipeline PipelineSpec PipelineFacts RunSpec.

Section Planning.
Context {W : Type}.
Implicit Types (rem : list (string * list string)) (steps : steps_t W).

(** While the plan is built, [results] is empty: a step is ready exactly
    when it declares no dependency. *)
Lemma ready_steps_empty_results rem :
  ready_steps ([] : results_t) rem =
  map fst (List.filter (fun nd => no_deps (snd nd)) rem).
Proof.
  unfold ready_steps. f_equal. apply filter_ext. intros [n ds]. simpl.
  now destruct ds.
Qed.

Lemma dict_del_sub (n : string) rem (e : string * list string) :
  e ∈ dict_del n rem -> e ∈ rem.
Proof.
  induction rem as [|[k ds] rem IH]; simpl; auto.
  destruct (String.eqb k n); rewrite !elem_of_cons; intuition.
Qed.

Lemma del_all_sub names rem (e : string * list string) :
  e ∈ del_all names rem -> e ∈ rem.
Proof.
  revert rem. induction names as [|n names IH]; simpl; intros rem H; auto.
  apply IH in H. now apply dict_del_sub in H.
Qed.

Lemma ready_elem rem x :
  x ∈ ready_steps ([] : results_t) rem <-> (x, []) ∈ rem.
Proof.
  rewrite ready_steps_empty_results, list_elem_of_fmap. split.
  - intros ([n ds] & -> & Hin). apply list_elem_of_In, filter_In in Hin as [Hin Hd].
    destruct ds; [|discriminate]. now apply list_elem_of_In.
  - intros Hin. exists (x, []). split; [reflexivity|].
    apply list_elem_of_In, filter_In. split; [now apply list_elem_of_In | reflexivity].
Qed.

(** Once the ready steps are removed, nothing is ready any more. *)
Lemma nothing_ready_after_first_round rem :
  NoDup (dict_keys rem) ->
  ready_steps ([] : results_t)
    (del_all (ready_steps ([] : results_t) rem) rem) = [].
Proof.
  intros Hnd. set (R := ready_steps [] rem).
  destruct (ready_steps [] (del_all R rem)) as [|x l] eqn:E; [reflexivity|].
  exfalso.
  assert (x ∈ ready_steps ([] : results_t) (del_all R rem)) as Hx
    by (rewrite E; left).
  apply ready_elem in Hx as Hpair.
  apply (del_all_removes R rem x Hnd).
  - apply ready_elem. now apply del_all_sub in Hpair.
  - now apply (ready_steps_in_keys []) in Hx.
Qed.

(** The plan of [run]: the steps without dependencies, and no others. *)
Lemma execution_plan_dependency_free steps :
  execution_plan_of steps [] = Some (dependency_free steps).
Proof.
  unfold execution_plan_of, dependency_free.
  rewrite <- ready_steps_empty_results.
  pose proof (remaining_of_NoDup steps) as Hnd.
  destruct (remaining_of steps) as [|e rem] eqn:Er; [reflexivity|].
  cbn [length plan_loop].
  destruct (ready_steps [] (e :: rem)) as [|r rs] eqn:Eready; [reflexivity|].
  pose proof (nothing_ready_after_first_round (e :: rem) Hnd) as Hnone.
  rewrite Eready in Hnone. unfold del_all in Hnone.
  destruct (length rem);
    (cbn [plan_loop]; destruct (fold_left _ (r :: rs) (e :: rem));
     [reflexivity | now rewrite Hnone]).
Qed.

Lemma remaining_of_keys steps x :
  x ∈ dict_keys (remaining_of steps) -> x ∈ step_names steps.
Proof.
  unfold remaining_of, step_names.
  assert (forall acc : list (string * list string),
    x ∈ dict_keys (fold_left
          (fun acc (s : string * AnalysisStep W * list string) =>
             dict_set (fst (fst s)) (snd s) acc) steps acc) ->
    x ∈ dict_keys acc \/ x ∈ map (fun s => fst (fst s)) steps) as H.
  { induction steps as [|s steps IH]; simpl; intros acc Hx; auto.
    apply IH in Hx as [Hx|Hx]; [|right; now right].
    apply dict_keys_set_elem in Hx as [->|Hx]; auto. right. left. }
  intros Hx. apply H in Hx as [Hx|Hx]; auto. now apply elem_of_nil in Hx.
Qed.

Lemma dependency_free_names steps x :
  x ∈ dependency_free steps -> x ∈ step_names steps.
Proof.
  unfold dependency_free. rewrite <- ready_steps_empty_results.
  intros Hx%(ready_steps_in_keys []). now apply remaining_of_keys.
Qed.

Lemma find_step_declared steps x :
  x ∈ step_names steps ->
  exists step deps, find_step steps x = Some (x, step, deps).
Proof.
  unfold find_step, step_names. induction steps as [|[[n st] ds] steps IH]; simpl.
  - now intros ?%elem_of_nil.
  - intros [->|Hx]%elem_of_cons.
    + rewrite String.eqb_refl. eauto.
    + destruct (String.eqb n x) eqn:E; [|auto].
      apply String.eqb_eq in E. subst. eauto.
Qed.

(** With distinct names, the dictionary [remaining_steps] is the list of
    declarations. *)
Lemma remaining_of_distinct steps :
  NoDup (step_names steps) ->
  remaining_of steps = map (fun s => (fst (fst s), snd s)) steps.
Proof.
  unfold remaining_of, step_names.
  assert (forall acc : list (string * list string),
    NoDup (dict_keys acc ++ map (fun s => fst (fst s)) steps) ->
    fold_left (fun acc (s : string * AnalysisStep W * list string) =>
                 dict_set (fst (fst s)) (snd s) acc) steps acc =
    acc ++ map (fun s => (fst (fst s), snd s)) steps) as H.
  { induction steps as [|s steps IH]; simpl; intros acc Hnd.
    - now rewrite app_nil_r.
    - assert (dict_set (fst (fst s)) (snd s) acc = acc ++ [(fst (fst s), snd s)]) as Hset.
      { apply NoDup_app in Hnd as (_ & Hdis & _).
        assert (fst (fst s) ∉ dict_keys acc) as Hno
          by (intros Hin; apply (Hdis _ Hin); left).
        clear -Hno. induction acc as [|[k v] acc IH]; simpl; auto.
        apply not_elem_of_cons in Hno as [Hne Hno].
        destruct (String.eqb k (fst (fst s))) eqn:E.
        - apply String.eqb_eq in E. simpl in Hne. congruence.
        - now rewrite IH. }
      rewrite Hset, IH.
      + now rewrite <- app_assoc.
      + unfold dict_keys in *. rewrite map_app. simpl.
        now rewrite <- app_assoc. }
  intros Hnd. now rewrite H.
Qed.

Lemma find_step_distinct steps n step deps :
  NoDup (step_names steps) -> (n, step, deps) ∈ steps ->
  find_step steps n = Some (n, step, deps).
Proof.
  unfold find_step, step_names. induction steps as [|[[k st] ds] steps IH]; simpl.
  - now intros _ ?%elem_of_nil.
  - intros [Hk Hnd]%NoDup_cons [Heq|Hin]%elem_of_cons.
    + injection Heq as -> -> ->. now rewrite String.eqb_refl.
    + destruct (String.eqb k n) eqn:E; [|auto].
      apply String.eqb_eq in E. subst k. exfalso. apply Hk.
      apply list_elem_of_fmap. now exists (n, step, deps).
Qed.

Lemma dependency_free_find steps x :
  NoDup (step_names steps) -> x ∈ dependency_free steps ->
  exists step, find_step steps x = Some (x, step, []).
Proof.
  intros Hnd. unfold dependency_free. rewrite <- ready_steps_empty_results.
  rewrite ready_elem, (remaining_of_distinct steps Hnd), list_elem_of_fmap.
  intros ([[n st] ds] & Heq & Hin). simpl in Heq. injection Heq as -> ->.
  exists st. now apply find_step_distinct.
Qed.
End Planning.

Section Recording.
Context {W : Type}.
Implicit Types (st : run_state W) (steps : steps_t W).

(** One iteration for a declared step whose name has no result yet: the
    name is added at the end of [results], and at most one call is logged,
    for this step. *)
Lemma run_step_extends steps (input : pydict) st s :
  s ∈ step_names steps -> s ∉ dict_keys (results st) ->
  dict_keys (results (run_step steps input st s)) = dict_keys (results st) ++ [s] /\
  (calls (run_step steps input st s) = calls st \/
   calls (run_step steps input st s) =
     calls st ++ [(s, robust_data_of input (results st))]).
Proof.
  intros Hs Hfresh. destruct (find_step_declared steps s Hs) as (step & deps & Ef).
  assert (dict_in s (results st) = false) as Hin.
  { destruct (dict_in s (results st)) eqn:E; auto.
    apply dict_in_keys in E. contradiction. }
  assert (forall r, dict_keys (dict_set s r (results st)) = dict_keys (results st) ++ [s]) as K1
    by (intros r; now rewrite dict_keys_set, Hin).
  assert (forall r r', dict_keys (dict_set s r' (dict_set s r (results st))) =
                       dict_keys (results st) ++ [s]) as K2.
  { intros r r'. rewrite dict_keys_set.
    rewrite (dict_in_set_same s r (results st)). apply K1. }
  unfold run_step. rewrite Ef.
  destruct (List.filter _ deps) as [|m ms]; [|simpl; auto].
  destruct (execute step _ (world st)) as [[result| |msg] w']; unfold record_result;
    repeat match goal with
           | |- context [match ?x with _ => _ end] => destruct x
           end; simpl; auto.
Qed.

(** The loop over a plan of declared, distinct names yields exactly the
    plan as the keys of [results], and logs calls for planned steps only. *)
Lemma run_fold_keys steps (input : pydict) plan st :
  NoDup plan -> (forall x, x ∈ plan -> x ∈ step_names steps) ->
  (forall x, x ∈ plan -> x ∉ dict_keys (results st)) ->
  let st' := fold_left (run_step steps input) plan st in
  dict_keys (results st') = dict_keys (results st) ++ plan /\
  exists called, map fst (calls st') = map fst (calls st) ++ called /\
                 forall n, n ∈ called -> n ∈ plan.
Proof.
  revert st. induction plan as [|s plan IH]; simpl; intros st Hnd Hdecl Hfresh.
  - rewrite app_nil_r. split; auto. exists []. rewrite app_nil_r.
    split; auto.
  - apply NoDup_cons in Hnd as [Hs Hnd].
    destruct (run_step_extends steps input st s) as [Hk Hc];
      [apply Hdecl; left | apply Hfresh; left |].
    destruct (IH (run_step steps input st s)) as [Hk' (called & Hc' & Hsub)]; auto.
    { intros x Hx. apply Hdecl. now right. }
    { intros x Hx. rewrite Hk. intros [Hin| ->%list_elem_of_singleton]%elem_of_app;
        [|contradiction]. apply (Hfresh x); auto. now right. }
    split.
    + rewrite Hk', Hk, <- app_assoc. reflexivity.
    + destruct Hc as [Hc|Hc]; rewrite Hc in Hc'.
      * exists called. split; auto. intros n Hn. right. auto.
      * exists (s :: called). split.
        -- rewrite Hc', map_app, <- app_assoc. reflexivity.
        -- intros n [->|Hn]%elem_of_cons; [left | right; auto].
Qed.

Lemma run_unfold (self : pipeline W) (input : pydict) (w : W) :
  run self input w =
  let st := fold_left (run_step (pipeline_steps self) input)
                      (dependency_free (pipeline_steps self))
                      {| results := []; data := input; calls := []; world := w |} in
  Some {| final := st; success_count := success_count_of (results st);
          total_count := length (results st) |}.
Proof. unfold run. simpl. now rewrite execution_plan_dependency_free. Qed.

Lemma dependency_free_NoDup steps : NoDup (dependency_free steps).
Proof.
  destruct (execution_plan_total steps []) as (p & Hp & Hnd).
  rewrite execution_plan_dependency_free in Hp. now injection Hp as <-.
Qed.
End Recording.

(** The keys of [results] after a run are the planned names. *)
Lemma run_executes_only_dependency_free_steps_keys {W : Type}
    (self : pipeline W) (input_data : pydict) (w : W) :
  exists rr : run_result W,
    run self input_data w = Some rr /\
    dict_keys (results (final rr)) = dependency_free (pipeline_steps self).
Proof.
  rewrite run_unfold. eexists. split; [reflexivity|]. cbn [final].
  destruct (run_fold_keys (pipeline_steps self) input_data
              (dependency_free (pipeline_steps self))
              {| results := []; data := input_data; calls := []; world := w |})
    as [Hk _].
  - apply dependency_free_NoDup.
  - apply dependency_free_names.
  - intros x _. simpl. apply not_elem_of_nil.
  - exact Hk.
Qed.


(** Which steps run.  The plan is built while [results] is still empty, so
    only the steps that declare no dependency are ready: for every pipeline
    and input, [run] returns, the keys of [results] are exactly the names
    declared without dependencies (in declaration order), [total_count]
    counts them, calls of [execute] are made for such steps only, and a name
    declared with a dependency has no result and is never executed. *)
Theorem run_executes_only_dependency_free_steps {W : Type}
    (self : pipeline W) (input_data : pydict) (w : W) :
  exists rr : run_result W,
    run self input_data w = Some rr /\
    dict_keys (results (final rr)) = dependency_free (pipeline_steps self) /\
    total_count rr = length (dependency_free (pipeline_steps self)) /\
    (forall n d, (n, d) ∈ calls (final rr) ->
                 n ∈ dependency_free (pipeline_steps self)) /\
    (forall n dep deps,
       dict_get n (remaining_of (pipeline_steps self)) = Some (dep :: deps) ->
       dict_get n (results (final rr)) = None /\
       forall d, (n, d) ∉ calls (final rr)).
Proof.
  rewrite run_unfold. eexists. split; [reflexivity|]. cbn [final total_count].
  set (steps := pipeline_steps self).
  destruct (run_fold_keys steps input_data (dependency_free steps)
              {| results := []; data := input_data; calls := []; world := w |})
    as [Hk (called & Hc & Hsub)].
  { apply dependency_free_NoDup. }
  { apply dependency_free_names. }
  { intros x _. simpl. apply not_elem_of_nil. }
  simpl in Hk, Hc.
  assert (forall n d, (n, d) ∈ calls (fold_left (run_step steps input_data)
            (dependency_free steps)
            {| results := []; data := input_data; calls := []; world := w |}) ->
          n ∈ dependency_free steps) as Hcalls.
  { intros n d Hin. apply Hsub. rewrite <- Hc.
    apply list_elem_of_fmap. now exists (n, d). }
  assert (forall n dep deps,
            dict_get n (remaining_of steps) = Some (dep :: deps) ->
            n ∉ dependency_free steps) as Hnot.
  { intros n dep deps Hget Hin. unfold dependency_free in Hin.
    rewrite <- ready_steps_empty_results in Hin. apply ready_elem in Hin.
    pose proof (remaining_of_NoDup steps) as Hnd. revert Hget Hin Hnd.
    generalize (remaining_of steps). intros rem.
    induction rem as [|[k ds] rem IH]; simpl; [discriminate|].
    intros Hget [Heq|Hin]%elem_of_cons [Hk' Hnd]%NoDup_cons.
    - injection Heq as <- <-. rewrite String.eqb_refl in Hget. discriminate.
    - destruct (String.eqb k n) eqn:E; [|auto].
      apply String.eqb_eq in E. subst k. apply Hk'.
      apply list_elem_of_fmap. now exists (n, []). }
  split; [exact Hk|]. split.
  { pose proof (f_equal (@length string) Hk) as HL. unfold dict_keys in HL.
    now rewrite length_map in HL. }
  split; [exact Hcalls|].
  intros n dep deps Hget. specialize (Hnot n dep deps Hget). clear Hget. split.
  - destruct (dict_get n (results _)) as [r|] eqn:E; auto. exfalso. apply Hnot.
    apply dict_get_in in E. exact (eq_ind _ (fun l => n ∈ l) E _ Hk).
  - intros d Hin. apply Hnot. eauto.
Qed.


Section Outcomes.
Context {W : Type}.
Implicit Types (st : run_state W) (steps : steps_t W).

Lemma status_success_cases (v : option value) :
  v = Some (VStr "success") \/ v <> Some (VStr "success").
Proof.
  destruct v as [[| | | |s| |]|]; try (right; discriminate).
  destruct (String.eqb_spec s "success"); [left | right]; congruence.
Qed.

(** The test [result.get("status") == "success"], when it fails. *)
Lemma match_not_success {A : Type} (v : option value) (a b : A) :
  v <> Some (VStr "success") ->
  match v with Some (VStr "success") => a | _ => b end = b.
Proof.
  intros H. destruct v as [[| | | |s| |]|]; try reflexivity.
  repeat (destruct s as [|[[] [] [] [] [] [] [] []] s]; try reflexivity).
  now contradiction H.
Qed.

Lemma record_result_get (step : AnalysisStep W) st name result calls' (w' : W) :
  dict_in name (results st) = false ->
  let st' := record_result name result calls' w' st in
  dict_keys (results st') = dict_keys (results st) ++ [name] /\
  (forall p, p <> name -> dict_get p (results st') = dict_get p (results st)) /\
  dict_get name (results st') = Some (recorded_for step (Returned result)) /\
  calls st' = calls' /\ world st' = w'.
Proof.
  intros Hin.
  assert (forall r, dict_keys (dict_set name r (results st)) =
                    dict_keys (results st) ++ [name]) as K1
    by (intros r; now rewrite dict_keys_set, Hin).
  assert (forall (r : pydict) p, p <> name ->
            dict_get p (dict_set name r (results st)) = dict_get p (results st)) as O1
    by (intros; apply dict_get_set_other; congruence).
  unfold record_result, recorded_for.
  destruct (status_success_cases (dict_get "status" result)) as [E|E].
  - rewrite E. destruct (dict_get "output" result); simpl;
      repeat split; auto using dict_get_set_same.
    + rewrite dict_keys_set, dict_in_set_same. apply K1.
    + intros p Hp. rewrite dict_get_set_other by congruence. auto.
  - rewrite !match_not_success by assumption. simpl.
    repeat split; auto using dict_get_set_same.
Qed.

Lemma call_recorded_other steps (res res' : results_t) n d :
  call_recorded steps res n d -> dict_get n res' = dict_get n res ->
  call_recorded steps res' n d.
Proof.
  intros (step & deps & w & w' & o & Hf & He & Hg) Heq.
  exists step, deps, w, w', o. repeat split; auto. congruence.
Qed.

Lemma run_step_recorded steps (input : pydict) st done s step :
  recorded_inv steps st done -> s ∉ done ->
  find_step steps s = Some (s, step, []) ->
  recorded_inv steps (run_step steps input st s) (done ++ [s]).
Proof.
  intros (Hk & Hc & Hrec) Hs Ef.
  assert (dict_in s (results st) = false) as Hin.
  { destruct (dict_in s (results st)) eqn:E; auto.
    apply dict_in_keys in E. rewrite Hk in E. contradiction. }
  assert (forall n d, (n, d) ∈ calls st -> n <> s) as Hne.
  { intros n d Hin' ->. apply Hs. rewrite <- Hc.
    apply list_elem_of_fmap. now exists (s, d). }
  unfold run_step. rewrite Ef. cbn [List.filter].
  set (rd := robust_data_of input (results st)).
  destruct (execute step rd (world st)) as [o w'] eqn:Ex.
  assert (forall res' : results_t,
            dict_keys res' = dict_keys (results st) ++ [s] ->
            (forall p, p <> s -> dict_get p res' = dict_get p (results st)) ->
            dict_get s res' = Some (recorded_for step o) ->
            forall data',
            recorded_inv steps
              {| results := res'; data := data';
                 calls := calls st ++ [(s, rd)]; world := w' |} (done ++ [s])) as Hgoal.
  { intros res' Hkeys Hoff Hnew data'. split; [|split]; simpl.
    - now rewrite Hkeys, Hk.
    - now rewrite map_app, Hc.
    - intros n d [Hin'|Hin']%elem_of_app.
      + eapply call_recorded_other; [now apply Hrec|]. apply Hoff. eauto.
      + apply list_elem_of_singleton in Hin'. injection Hin' as -> ->.
        exists step, [], (world st), w', o. auto. }
  assert (forall r, dict_keys (dict_set s r (results st)) = dict_keys (results st) ++ [s]) as K1
    by (intros r; now rewrite dict_keys_set, Hin).
  assert (forall (r : pydict) p, p <> s ->
            dict_get p (dict_set s r (results st)) = dict_get p (results st)) as O1
    by (intros; apply dict_get_set_other; congruence).
  destruct o as [result| |msg].
  - destruct (record_result_get step st s result (calls st ++ [(s, rd)]) w' Hin)
      as (Hk' & Ho' & Hg' & Hc' & Hw').
    destruct (record_result s result (calls st ++ [(s, rd)]) w' st)
      as [res' data' c' w''] eqn:Er. simpl in *. subst c' w''.
    now apply Hgoal.
  - unfold record_result. simpl. apply Hgoal; auto using dict_get_set_same.
  - apply Hgoal; auto using dict_get_set_same.
Qed.

Lemma run_fold_recorded steps (input : pydict) plan st done :
  recorded_inv steps st done -> NoDup (done ++ plan) ->
  (forall x, x ∈ plan -> exists step, find_step steps x = Some (x, step, [])) ->
  recorded_inv steps (fold_left (run_step steps input) plan st) (done ++ plan).
Proof.
  revert st done. induction plan as [|s plan IH]; simpl; intros st done Hinv Hnd Hfind.
  - now rewrite app_nil_r.
  - replace (done ++ s :: plan) with ((done ++ [s]) ++ plan) in *
      by now rewrite <- app_assoc.
    destruct (Hfind s) as [step Ef]; [left|].
    apply IH; auto.
    + eapply run_step_recorded; eauto.
      apply NoDup_app in Hnd as (Hnd & _ & _).
      apply NoDup_app in Hnd as (_ & Hdis & _).
      intros Hin. apply (Hdis s Hin). left.
    + intros x Hx. apply Hfind. now right.
Qed.
End Outcomes.




Section PassThrough.
Context {W : Type}.
Implicit Types (st : run_state W) (steps : steps_t W).

Lemma run_step_keys_grow steps (input : pydict) st s k :
  k ∈ dict_keys (results st) -> k ∈ dict_keys (results (run_step steps input st s)).
Proof.
  intros Hk. unfold run_step.
  destruct (find_step steps s) as [[[name step] deps]|]; [|exact Hk].
  assert (forall r, k ∈ dict_keys (dict_set name r (results st))) as K1
    by (intros r; apply dict_keys_set_elem; now right).
  assert (forall r r', k ∈ dict_keys (dict_set name r' (dict_set name r (results st))))
    as K2 by (intros r r'; apply dict_keys_set_elem; right; apply K1).
  destruct (List.filter _ deps); [|apply K1].
  destruct (execute step _ (world st)) as [[result| |msg] w']; unfold record_result;
    repeat match goal with
           | |- context [match ?x with _ => _ end] => destruct x
           end; simpl; auto.
Qed.

Lemma run_step_calls steps (input : pydict) st s :
  calls (run_step steps input st s) = calls st \/
  exists n, calls (run_step steps input st s) =
            calls st ++ [(n, robust_data_of input (results st))].
Proof.
  unfold run_step.
  destruct (find_step steps s) as [[[name step] deps]|]; [|now left].
  destruct (List.filter _ deps); [|now left].
  destruct (execute step _ (world st)) as [[result| |msg] w']; unfold record_result;
    repeat match goal with
           | |- context [match ?x with _ => _ end] => destruct x
           end; simpl; eauto.
Qed.

Lemma run_step_passes_input steps (input : pydict) st s :
  passes_input input st -> passes_input input (run_step steps input st s).
Proof.
  intros H n d Hin k Hk.
  assert (k ∉ dict_keys (results st)) as Hk0
    by (intros Hin'; apply Hk; now apply run_step_keys_grow).
  destruct (run_step_calls steps input st s) as [Hc|[n' Hc]]; rewrite Hc in Hin.
  - now apply (H n d).
  - apply elem_of_app in Hin as [Hin|Hin]; [now apply (H n d)|].
    apply list_elem_of_singleton in Hin. injection Hin as -> ->.
    now apply robust_data_untouched.
Qed.

Lemma run_fold_passes_input steps (input : pydict) plan st :
  passes_input input st ->
  passes_input input (fold_left (run_step steps input) plan st).
Proof.
  revert st. induction plan as [|s plan IH]; simpl; intros st H; auto.
  apply IH. now apply run_step_passes_input.
Qed.
End PassThrough.

(** The input reaches every step.  In every run, the data passed to any
    [execute] call binds each key that is not the name of an executed step
    exactly as [input_data] does (present with the same value, or absent);
    only the names of executed steps are added or overwritten. *)
Theorem run_passes_input_data_through {W : Type}
    (self : pipeline W) (input_data : pydict) (w : W) :
  exists rr : run_result W,
    run self input_data w = Some rr /\
    forall n d, (n, d) ∈ calls (final rr) ->
    forall k, k ∉ dependency_free (pipeline_steps self) ->
              dict_get k d = dict_get k input_data.
Proof.
  destruct (run_executes_only_dependency_free_steps_keys self input_data w)
    as (rr & Hrun & Hkeys).
  exists rr. split; [exact Hrun|]. intros n d Hin k Hk.
  rewrite run_unfold in Hrun. injection Hrun as <-. cbn [final] in *.
  eapply (run_fold_passes_input (pipeline_steps self) input_data); [|exact Hin|].
  - intros n' d' Hin'. now apply elem_of_nil in Hin'.
  - now rewrite Hkeys.
Qed.

End RunFacts.

(** ** More about [JSONProcessor]: what extraction and repair return *)

Module ExtractFacts.
Import Py PyFacts Exn Json Str JSONProcessor JsonSpec JSONProcessorFacts ExtractSpec.

Lemma substring_all (s : string) : substring 0 (String.length s) s = s.
Proof. induction s; simpl; congruence. Qed.

Lemma substring_skip (a s : string) n :
  substring (String.length a) n (a +:+ s) = substring 0 n s.
Proof. induction a as [|x a IH]; [reflexivity | rewrite append_cons; simpl; auto]. Qed.

(** [s.endswith(suffix)] holds of anything that ends in [suffix]. *)
Lemma endswith_append (suffix a : string) : endswith suffix (a +:+ suffix) = true.
Proof.
  unfold endswith. rewrite length_append.
  replace (String.length a + String.length suffix - String.length suffix)
    with (String.length a) by lia.
  rewrite substring_skip, substring_all, String.eqb_refl.
  rewrite andb_true_r. apply Nat.leb_le. lia.
Qed.

Lemma startswith_brace (s : string) :
  startswith "{" s = true <-> exists r, s = String "{" r.
Proof.
  unfold startswith. destruct s as [|c r]; cbn [strip_prefix].
  - split; [discriminate | intros [? ?]; discriminate].
  - destruct (Ascii.eqb_spec "{" c) as [Heq|Hne].
    + subst c. split; eauto.
    + split; [discriminate|]. intros [r' [= Hc _]]. congruence.
Qed.

(** A value scanned from an opening brace is an object. *)
Lemma scan_object_dict fuel depth (r rest : string) (v : value) :
  scan_once fuel depth (String "{" r) = Scanned v rest -> is_dict v.
Proof.
  destruct fuel as [|fuel]; [discriminate|].
  cbn [scan_once].
  change (Ascii.eqb "{" dquote) with false. change (Ascii.eqb "{" "{") with true.
  cbv iota.
  destruct depth as [|depth]; [discriminate|].
  destruct (skip_ws r) as [|q r'].
  { discriminate. }
  destruct (Ascii.eqb q "}").
  - intros [= <- _]. now eexists.
  - destruct (Ascii.eqb q dquote); [|discriminate].
    destruct (object_members fuel depth r' []) as [pairs r''| | |]; try discriminate.
    intros [= <- _]. now eexists.
Qed.

(** Valid JSON that starts with an opening brace is an object. *)
Lemma loads_object (r : string) (v : value) :
  loads (String "{" r) = Ok v -> is_dict v.
Proof.
  unfold loads, decode. change (skip_ws (String "{" r)) with (String "{" r).
  destruct (scan_once _ _ (String "{" r)) as [v' rest| | |] eqn:E; try discriminate.
  apply scan_object_dict in E. destruct (skip_ws rest); [|discriminate].
  now intros [= <-].
Qed.

(** *** The two patterns of [extract_json] *)

Lemma brace_body_spec s body after :
  brace_body s = Some (body, after) ->
  s = body +:+ after /\ exists x, body = x +:+ "}".
Proof.
  revert body after. induction s as [|c s IH]; cbn [brace_body]; intros body after;
    [discriminate|].
  destruct (Ascii.eqb_spec c "}") as [->|_].
  - intros [= <- <-]. split; [reflexivity|]. now exists EmptyString.
  - destruct (brace_body s) as [[b a]|]; [|discriminate].
    intros [= <- <-]. destruct (IH b a eq_refl) as [-> [x ->]].
    split; [reflexivity|]. now exists (String c x).
Qed.

Lemma strip_prefix_spec p s r : strip_prefix p s = Some r -> s = p +:+ r.
Proof.
  revert s. induction p as [|c p IH]; simpl; intros s.
  - now intros [= ->].
  - destruct s as [|c' s]; [discriminate|].
    destruct (Ascii.eqb_spec c c') as [<-|_]; [|discriminate].
    intros H. now rewrite (IH s H).
Qed.

Lemma lstrip_suffix s : exists ws, s = ws +:+ lstrip s.
Proof.
  induction s as [|c s [ws IH]]; simpl.
  - now exists EmptyString.
  - destruct (is_space c).
    + exists (String c ws). now rewrite append_cons, <- IH.
    + now exists EmptyString.
Qed.

Lemma fenced_body_spec s body after :
  fenced_body s = Some (body, after) ->
  (exists mid, s = body +:+ mid +:+ after) /\ exists x, body = x +:+ "}".
Proof.
  revert body after. induction s as [|c s IH]; cbn [fenced_body]; intros body after;
    [discriminate|].
  destruct (if Ascii.eqb c "}" then strip_prefix "```" (lstrip s) else None)
    as [a|] eqn:E.
  - intros [= <- <-]. destruct (Ascii.eqb_spec c "}") as [->|_]; [|discriminate].
    apply strip_prefix_spec in E. destruct (lstrip_suffix s) as [ws Hs].
    split; [|now exists EmptyString].
    exists (ws +:+ "```"). rewrite append_cons, append_nil_l, append_assoc, <- E.
    congruence.
  - destruct (fenced_body s) as [[b a]|]; [|discriminate].
    intros [= <- <-]. destruct (IH b a eq_refl) as [[mid ->] [x ->]].
    split; [now exists mid | now exists (String c x)].
Qed.

Lemma match_naked_spec s group after :
  match_naked s = Some (group, after) -> braced_piece s group.
Proof.
  unfold match_naked. destruct s as [|c s]; [discriminate|].
  destruct (Ascii.eqb_spec c "{") as [->|Hne].
  - cbv iota. destruct (brace_body s) as [[b a]|] eqn:E; [|discriminate].
    intros [= <- <-]. apply brace_body_spec in E as [-> [x ->]].
    split; [|now exists x]. exists EmptyString, a. reflexivity.
  - destruct c as [[] [] [] [] [] [] [] []]; try discriminate. now contradiction Hne.
Qed.

Lemma match_fenced_spec s group after :
  match_fenced s = Some (group, after) -> braced_piece s group.
Proof.
  unfold match_fenced. destruct (strip_prefix "```" s) as [s1|] eqn:E1; [|discriminate].
  apply strip_prefix_spec in E1. subst s.
  assert (exists tag s2, s1 = tag +:+ s2 /\
            match strip_prefix "json" s1 with Some r => r | None => s1 end = s2)
    as (tag & s2 & -> & ->).
  { destruct (strip_prefix "json" s1) as [r|] eqn:E2.
    - apply strip_prefix_spec in E2. now exists "json", r.
    - now exists EmptyString, s1. }
  destruct (lstrip_suffix s2) as [ws Hs2].
  destruct (lstrip s2) as [|c s3] eqn:El; [discriminate|].
  destruct (Ascii.eqb_spec c "{") as [->|Hne].
  - cbv iota. destruct (fenced_body s3) as [[b a]|] eqn:E; [|discriminate].
    intros [= <- <-]. apply fenced_body_spec in E as [[mid ->] [x ->]].
    split; [|now exists x].
    exists ("```" +:+ tag +:+ ws), (mid +:+ a).
    rewrite Hs2. rewrite !append_assoc. rewrite !append_cons. now rewrite !append_assoc.
  - destruct c as [[] [] [] [] [] [] [] []]; try discriminate. now contradiction Hne.
Qed.

Lemma occurs_in_tail c s m : occurs_in m s -> occurs_in m (String c s).
Proof. intros (a & b & ->). now exists (String c a), b. Qed.

(** Every element [re.findall] returns is a group matched somewhere in the
    text. *)
Lemma findall_spec (match_at : string -> option (string * string)) :
  (forall s group after, match_at s = Some (group, after) -> braced_piece s group) ->
  forall text skip m, m ∈ findall match_at skip text -> braced_piece text m.
Proof.
  intros Hm. induction text as [|c text IH]; intros skip m.
  - destruct skip; simpl; now intros ?%elem_of_nil.
  - destruct skip as [|skip]; cbn [findall].
    + destruct (match_at (String c text)) as [[g a]|] eqn:E.
      * intros [->|Hin]%elem_of_cons; [eauto|].
        apply IH in Hin as [Ho Hb]. split; [now apply occurs_in_tail | exact Hb].
      * intros Hin. apply IH in Hin as [Ho Hb].
        split; [now apply occurs_in_tail | exact Hb].
    + intros Hin. apply IH in Hin as [Ho Hb].
      split; [now apply occurs_in_tail | exact Hb].
Qed.

Lemma find_valid_spec l m :
  List.find is_valid_json l = Some m -> m ∈ l /\ is_valid_json m = true.
Proof. intros [Hin Hv]%find_some. split; [now apply list_elem_of_In | exact Hv]. Qed.

(** What [extract_json] returns is a piece of the text that runs from an
    opening brace to a closing brace and is valid JSON for an object. *)
Lemma extract_json_spec text m :
  extract_json text = Some m ->
  braced_piece text m /\ is_valid_json m = true.
Proof.
  unfold extract_json.
  destruct (List.find is_valid_json (findall match_fenced 0 text)) as [m'|] eqn:E.
  - intros [= ->]. apply find_valid_spec in E as [Hin Hv]. split; [|exact Hv].
    eapply findall_spec; [apply match_fenced_spec | exact Hin].
  - intros [Hin Hv]%find_valid_spec. split; [|exact Hv].
    eapply findall_spec; [apply match_naked_spec | exact Hin].
Qed.

Lemma valid_object m :
  is_valid_json m = true -> (exists r, m = String "{" r) ->
  exists d, loads m = Ok (VDict d).
Proof.
  unfold is_valid_json. intros Hv [r ->].
  destruct (loads (String "{" r)) as [v|] eqn:E; [|discriminate].
  destruct (loads_object r v E) as [d ->]. eauto.
Qed.

(** [extract_json] never invents text.  Whatever it returns occurs in the
    input, starts with an opening brace, ends with a closing brace and is
    valid JSON whose value is an object. *)
Theorem extract_json_returns_object_in_text (text m : string) :
  extract_json text = Some m ->
  occurs_in m text /\
  startswith "{" m = true /\ endswith "}" m = true /\
  is_valid_json m = true /\ exists d, loads m = Ok (VDict d).
Proof.
  intros [[Ho [x ->]] Hv]%extract_json_spec.
  split; [exact Ho|]. split; [reflexivity|]. split.
  { change (String "{" (x +:+ "}")) with (String "{" x +:+ "}").
    apply endswith_append. }
  split; [exact Hv|]. apply valid_object; eauto.
Qed.

(** The theorem at work on an answer with a fenced block. *)
Lemma extract_json_returns_object_in_text_witness :
  extract_json fenced_answer = Some ("{" +:+ quoted "x" +:+ ": 3}") /\
  occurs_in ("{" +:+ quoted "x" +:+ ": 3}") fenced_answer.
Proof.
  assert (extract_json fenced_answer = Some ("{" +:+ quoted "x" +:+ ": 3}")) as H
    by (vm_compute; reflexivity).
  split; [exact H|].
  apply (extract_json_returns_object_in_text fenced_answer _ H).
Defined.


(** *** [repair_json] and [parse] *)

Lemma repair_text_braces s :
  startswith "{" (repair_text s) = true /\ endswith "}" (repair_text s) = true.
Proof.
  unfold repair_text.
  set (fixed := sub_quote_keys 0 _).
  destruct (startswith "{" fixed && endswith "}" fixed) eqn:E; cbn [negb].
  - now apply andb_true_iff in E.
  - split; [reflexivity|].
    set (content := replace_char _ _ _).
    replace ("{" +:+ String dquote "response" +:+ String dquote ": "
                 +:+ String dquote content +:+ String dquote "}")
      with (("{" +:+ String dquote "response" +:+ String dquote ": "
                 +:+ String dquote content +:+ String dquote EmptyString) +:+ "}")
      by (now rewrite !append_assoc).
    apply endswith_append.
Qed.

(** What [repair_json] returns is the text of a JSON object. *)
Lemma repair_json_spec s r :
  repair_json s = Ok r ->
  startswith "{" r = true /\ endswith "}" r = true /\ exists d, loads r = Ok (VDict d).
Proof.
  intros H. pose proof (repair_json_valid s r H) as Hv.
  unfold repair_json in H. destruct (loads (repair_text s)); [|discriminate].
  injection H as <-. destruct (repair_text_braces s) as [Hs He].
  split; [exact Hs|]. split; [exact He|].
  apply valid_object; [exact Hv | now apply startswith_brace].
Qed.

Lemma rstrip_head s c r : rstrip s = String c r -> exists r', s = String c r'.
Proof.
  destruct s as [|c' s]; cbn [rstrip]; [discriminate|].
  destruct (rstrip s); [destruct (is_space c')|]; intros [= <- _] || intros [=]; eauto.
Qed.

Lemma json_ws_is_space c : is_json_ws c = true -> is_space c = true.
Proof. destruct c as [[] [] [] [] [] [] [] []]; intros H; try discriminate H; reflexivity. Qed.

(** JSON text whose first character after Python whitespace is an opening
    brace scans to an object. *)
Lemma scan_after_space_dict t r fuel depth v rest :
  lstrip t = String "{" r ->
  scan_once fuel depth (skip_ws t) = Scanned v rest -> is_dict v.
Proof.
  induction t as [|c t IH]; cbn [lstrip skip_ws]; [discriminate|].
  destruct (is_json_ws c) eqn:Ews.
  - rewrite (json_ws_is_space c Ews). exact IH.
  - destruct (is_space c) eqn:Esp.
    + intros _. destruct (is_space_not_json_start c Esp) as [Hws|Hbad]; [congruence|].
      destruct fuel; [discriminate|]. now rewrite Hbad.
    + intros [= -> _]. apply scan_object_dict.
Qed.

Lemma loads_object_like t v :
  looks_like_json_object t = true -> loads t = Ok v -> is_dict v.
Proof.
  unfold looks_like_json_object. intros [Hs _]%andb_true_iff.
  apply startswith_brace in Hs as [r Hr]. unfold strip in Hr.
  apply rstrip_head in Hr as [r' Hr].
  unfold loads, decode.
  destruct (scan_once _ _ (skip_ws t)) as [v' rest| | |] eqn:E; try discriminate.
  apply (scan_after_space_dict t r') in E; [|exact Hr].
  destruct (skip_ws rest); [|discriminate]. now intros [= <-].
Qed.

(** Whatever [parse] returns is the strict parse of the text or a
    dictionary. *)
Lemma parse_strict_or_dict t v :
  parse t = Ok v -> loads t = Ok v \/ is_dict v.
Proof.
  unfold parse.
  destruct t as [|c t']; [intros [= <-]; right; now eexists|].
  destruct (strip (String c t')); [intros [= <-]; right; now eexists|].
  destruct (loads (String c t')) as [v'|e] eqn:El; [intros [= <-]; now left|].
  destruct e; try discriminate.
  destruct (repair_json (String c t')) as [fixed|e] eqn:Er;
    [|intros [= <-]; right; now eexists].
  apply repair_json_spec in Er as (_ & _ & d & ->).
  intros [= <-]. right. now eexists.
Qed.

(** [repair_json] always hands back an object.  When it returns, its
    result starts with an opening brace, ends with a closing brace and is
    valid JSON whose value is a dictionary: text that is no object comes back
    wrapped in a [response] object. *)
Theorem repair_json_returns_object_text (s r : string) :
  repair_json s = Ok r ->
  startswith "{" r = true /\ endswith "}" r = true /\
  exists d, loads r = Ok (VDict d) /\ parse r = Ok (VDict d).
Proof.
  intros (Hs & He & d & Hd)%repair_json_spec.
  split; [exact Hs|]. split; [exact He|]. exists d. split; [exact Hd|].
  now apply parse_valid.
Qed.

(** The theorem at work on the array [[1,2]]. *)
Lemma repair_json_returns_object_text_witness :
  exists r d, repair_json "[1,2]" = Ok r /\ loads r = Ok (VDict d) /\
              d = [("response", VStr "[1,2]")].
Proof.
  assert (repair_json "[1,2]" =
          Ok ("{" +:+ quoted "response" +:+ ": " +:+ quoted "[1,2]" +:+ "}")) as H
    by (vm_compute; reflexivity).
  destruct (repair_json_returns_object_text _ _ H) as (_ & _ & d & Hd & _).
  eexists _, d. split; [exact H|]. split; [exact Hd|].
  vm_compute in Hd. now injection Hd as <-.
Defined.

(** [parse] of text that looks like a JSON object is a dictionary, or the
    exception of the strict parse.  When the stripped text starts with an
    opening brace and ends with a closing brace, [parse] returns a
    dictionary (the parsed object, the repaired one, or the
    [json_parsing_failed] object), unless [json.loads] raises on the text
    something other than [JSONDecodeError], which [parse] raises in turn.
    So whatever [parse] returns for such text is a dictionary.
    ([generate_with_model] relies on it when it adds [execution_time] to the
    parsed response, and catches what [parse] raises.) *)
Theorem parse_of_object_like_text_is_dict (t : string) :
  looks_like_json_object t = true ->
  ((exists d, parse t = Ok (VDict d) /\
              (loads t = Ok (VDict d) \/
               (exists fixed, repair_json t = Ok fixed /\ loads fixed = Ok (VDict d)) \/
               d = [("response", VStr t); ("error", VStr "json_parsing_failed")])) \/
   (exists e, e <> JSONDecodeError /\ loads t = Raise e /\ parse t = Raise e)) /\
  (forall v, parse t = Ok v -> is_dict v).
Proof.
  intros Hlook.
  assert (exists r, strip t = String "{" r) as [r Hstrip].
  { apply andb_true_iff in Hlook as [Hs _]. now apply startswith_brace. }
  split.
  - unfold parse. destruct t as [|c t']; [discriminate|]. rewrite Hstrip.
    destruct (loads (String c t')) as [v|e] eqn:El.
    + left. destruct (loads_object_like _ _ Hlook El) as [d ->]. eauto.
    + assert (e = JSONDecodeError \/ e <> JSONDecodeError) as [->|Hne]
        by (destruct e; auto; right; discriminate).
      * left. destruct (repair_json (String c t')) as [fixed|e] eqn:Er.
        -- apply repair_json_spec in Er as (_ & _ & d & Hd). rewrite Hd.
           exists d. split; [reflexivity|]. right. left. eauto.
        -- eexists. split; [reflexivity|]. right. right. reflexivity.
      * right. exists e. split; [exact Hne|]. split; [reflexivity|].
        destruct e; try reflexivity. now contradiction Hne.
  - intros v Hv. destruct (parse_strict_or_dict t v Hv) as [Hl|Hd]; [|exact Hd].
    now apply (loads_object_like t).
Qed.

(** The theorem at work on text that is no JSON, which comes back in the
    [json_parsing_failed] object. *)
Lemma parse_of_object_like_text_is_dict_witness :
  looks_like_json_object "{oops}" = true /\
  exists d, parse "{oops}" = Ok (VDict d).
Proof.
  assert (looks_like_json_object "{oops}" = true) as H by reflexivity.
  split; [exact H|].
  destruct (parse_of_object_like_text_is_dict "{oops}" H) as [_ Hdict].
  destruct (Hdict (json_parsing_failed "{oops}")) as [d Hd];
    [vm_compute; reflexivity|].
  exists d. rewrite <- Hd. vm_compute. reflexivity.
Defined.

End ExtractFacts.

(** ** More about the model manager: model lists, fallback selection,
       failure counting, loaded models *)

Module ManagerFacts.
Import Py PyFacts Exn ModelManager ModelManagerSpec ModelManagerFacts
       ModelSelection ManagerSpec.

(** *** The model list *)

Lemma model_names_spec models names n :
  model_names models = Some names -> n ∈ names ->
  exists model, VDict model ∈ models /\ dict_get "name" model = Some n.
Proof.
  revert names. induction models as [|v models IH]; simpl; intros names.
  - intros [= <-] ?%elem_of_nil. contradiction.
  - destruct v as [| | | | | |model]; try discriminate.
    destruct (dict_get "name" model) as [n0|] eqn:En; [|discriminate].
    destruct (model_names models) as [ns|]; [|discriminate].
    intros [= <-] [->|Hin]%elem_of_cons.
    + exists model. split; [left | exact En].
    + destruct (IH ns eq_refl Hin) as (md & Hmd & Hn).
      exists md. split; [now right | exact Hn].
Qed.

Lemma filter_models_spec names ms m :
  filter_models names = Some ms -> m ∈ ms ->
  VStr m ∈ names /\ excluded m = false.
Proof.
  revert ms. induction names as [|v names IH]; simpl; intros ms.
  - intros [= <-] ?%elem_of_nil. contradiction.
  - destruct v as [| | | |m0| |]; try discriminate.
    destruct (excluded m0) eqn:Ex.
    + intros H Hin. destruct (IH ms H Hin). split; [now right | assumption].
    + destruct (filter_models names) as [ms'|]; [|discriminate].
      intros [= <-] [->|Hin]%elem_of_cons.
      * split; [left | exact Ex].
      * destruct (IH ms' eq_refl Hin). split; [now right | assumption].
Qed.

Section Backend.
Context {B : Type}.
Variable _request : string -> string -> option pydict -> B -> pydict * B.
Variable time_time : B -> value.

Abbreviation check_model_health := (check_model_health _request time_time).
Abbreviation get_available_models := (get_available_models _request).
Abbreviation healthy_models := (healthy_models _request time_time).
Abbreviation get_fallback_model := (get_fallback_model _request time_time).
Abbreviation preload_model := (preload_model _request).
Abbreviation unload_model := (unload_model _request).
Abbreviation apply_op := (apply_op _request time_time).
Abbreviation apply_ops := (apply_ops _request time_time).

(** The model list never names an embedding or a speech model.  Outside
    simulation mode, every name [get_available_models] returns is the [name]
    of a model in the backend's [tags] answer, and its lower-case form
    contains neither [embed] nor [whisper]. *)
Theorem available_models_are_filtered (mm : manager) (b : B) (m : string) :
  simulation_mode (config mm) = false ->
  m ∈ fst (get_available_models mm b) ->
  contains "embed" (lower m) = false /\ contains "whisper" (lower m) = false /\
  exists models model,
    dict_get "models" (fst (_request "tags" "GET" None b)) = Some (VList models) /\
    VDict model ∈ models /\ dict_get "name" model = Some (VStr m).
Proof.
  intros Hsim. unfold ModelSelection.get_available_models. rewrite Hsim.
  destruct (_request "tags" "GET" None b) as [result b1]. simpl fst at 2.
  destruct (dict_in "error" result); [now intros ?%elem_of_nil|].
  destruct (dict_get "models" result) as [[| | | | |models|]|];
    try (now intros ?%elem_of_nil).
  destruct (model_names models) as [names|] eqn:En; [|now intros ?%elem_of_nil].
  destruct (filter_models names) as [ms|] eqn:Ef; [|now intros ?%elem_of_nil].
  simpl. intros Hin.
  destruct (filter_models_spec names ms m Ef Hin) as [Hname Hex].
  apply orb_false_iff in Hex as [He Hw].
  destruct (model_names_spec models names (VStr m) En Hname) as (model & Hmodel & Hget).
  split; [exact He|]. split; [exact Hw|]. eauto.
Qed.

(** *** Fallback selection *)

Lemma healthy_models_sub candidates : forall mm (b : B) h,
  h ∈ fst (fst (healthy_models candidates mm b)) -> h ∈ candidates.
Proof.
  induction candidates as [|c cs IH]; simpl; intros mm b h.
  - now intros ?%elem_of_nil.
  - destruct (check_model_health mm c b) as [[ok mm1] b1].
    specialize (IH mm1 b1 h).
    destruct (healthy_models cs mm1 b1) as [[hs mm2] b2]. simpl in *.
    destruct ok.
    + intros [->|Hin]%elem_of_cons; [left | right; auto].
    + intros Hin. right. auto.
Qed.

(** Every model the loop collects passed a health check. *)
Lemma healthy_models_passed candidates : forall mm (b : B) h,
  h ∈ fst (fst (healthy_models candidates mm b)) ->
  exists mm0 b0 mm1 b1, check_model_health mm0 h b0 = (true, mm1, b1).
Proof.
  induction candidates as [|c cs IH]; intros mm b h; simpl.
  - now intros ?%elem_of_nil.
  - destruct (check_model_health mm c b) as [[ok mm1] b1] eqn:Ec.
    specialize (IH mm1 b1 h).
    destruct (healthy_models cs mm1 b1) as [[hs mm2] b2]. simpl in *.
    destruct ok; [|exact IH].
    intros [->|Hin]%elem_of_cons; [eauto 6 | auto].
Qed.

(** The loop keeps the order of the candidates. *)
Lemma healthy_models_sublist candidates : forall mm (b : B),
  fst (fst (healthy_models candidates mm b)) `sublist_of` candidates.
Proof.
  induction candidates as [|c cs IH]; intros mm b; simpl; [constructor|].
  destruct (check_model_health mm c b) as [[ok mm1] b1].
  specialize (IH mm1 b1).
  destruct (healthy_models cs mm1 b1) as [[hs mm2] b2]. simpl in *.
  destruct ok; [now apply sublist_skip | now apply sublist_cons].
Qed.

(** What [List.find] finds is the first element that satisfies the test. *)
Lemma find_first {A} (f : A -> bool) (l : list A) (x : A) :
  List.find f l = Some x ->
  exists before after, l = before ++ x :: after /\
                       (forall y, y ∈ before -> f y = false) /\ f x = true.
Proof.
  induction l as [|a l IH]; simpl; [discriminate|].
  destruct (f a) eqn:Ea.
  - intros [= ->]. exists [], l. split; [reflexivity|]. split; [|exact Ea].
    now intros y ?%elem_of_nil.
  - intros (before & after & -> & Hb & Hx)%IH.
    exists (a :: before), after. split; [reflexivity|]. split; [|exact Hx].
    intros y [->|Hy]%elem_of_cons; auto.
Qed.

(** A fallback is never the failed model.  The model [get_fallback_model]
    selects is one of [available_models], differs from [failed_model] and
    passed its health check; among the models that passed (all of them
    passed a health check, and they are listed in the order of
    [available_models]), it is the first lightweight one (no model before it
    is lightweight), or the first of all when none is lightweight. *)
Theorem fallback_model_is_a_healthy_alternative (mm : manager)
    (failed_model : string) (available_models : list string) (b : B)
    (m : string) (mm' : manager) (b' : B) :
  get_fallback_model mm failed_model available_models b = (Some m, mm', b') ->
  m ∈ available_models /\ m <> failed_model /\
  (exists mm0 b0 mm1 b1, check_model_health mm0 m b0 = (true, mm1, b1)) /\
  exists passed,
    healthy_models
      (List.filter (fun m => negb (String.eqb m failed_model)) available_models)
      mm b = (passed, mm', b') /\
    passed `sublist_of` available_models /\
    (forall h, h ∈ passed ->
       exists mm0 b0 mm1 b1, check_model_health mm0 h b0 = (true, mm1, b1)) /\
    ((exists before after,
        passed = before ++ m :: after /\
        (forall h, h ∈ before -> lightweight h = false) /\
        lightweight m = true) \/
     ((forall h, h ∈ passed -> lightweight h = false) /\ head passed = Some m)).
Proof.
  unfold ModelSelection.get_fallback_model.
  set (candidates := List.filter _ available_models).
  assert (forall h, h ∈ candidates -> h ∈ available_models /\ h <> failed_model) as Hc.
  { intros h Hin. apply list_elem_of_In, filter_In in Hin as [Hin Hne].
    split; [now apply list_elem_of_In|].
    intros ->. now rewrite String.eqb_refl in Hne. }
  pose proof (healthy_models_sub candidates mm b) as Hsub.
  pose proof (healthy_models_passed candidates mm b) as Hpassed.
  pose proof (healthy_models_sublist candidates mm b) as Hsl.
  assert (candidates `sublist_of` available_models) as Hfl.
  { unfold candidates. clear. induction available_models as [|a l IH]; simpl;
      [constructor|].
    destruct (negb (String.eqb a failed_model));
      [now apply sublist_skip | now apply sublist_cons]. }
  destruct candidates as [|c cs] eqn:Ec; [discriminate|]. rewrite <- Ec in *.
  destruct (healthy_models candidates mm b) as [[hs mm1] b1].
  simpl in Hsub, Hpassed, Hsl.
  destruct hs as [|first hs]; [discriminate|].
  remember (List.find lightweight (first :: hs)) as found eqn:Ef.
  intros [= Hm <- <-].
  assert (List.find lightweight (first :: hs) = Some m \/
          List.find lightweight (first :: hs) = None /\ m = first) as Hcases.
  { rewrite <- Ef. destruct found; [left | right; split]; congruence. }
  clear Hm Ef found.
  assert (m ∈ first :: hs) as Hin.
  { destruct Hcases as [Ef|[_ ->]]; [|left].
    apply find_some in Ef as [Hin _]. now apply list_elem_of_In. }
  destruct (Hc _ (Hsub _ Hin)) as [Ha Hne].
  split; [exact Ha|]. split; [exact Hne|]. split; [now apply Hpassed|].
  exists (first :: hs). split; [reflexivity|].
  split; [now transitivity candidates|]. split; [exact Hpassed|].
  destruct Hcases as [Ef|[Ef ->]].
  - left. now apply find_first.
  - right. split; [|reflexivity]. intros h Hh.
    apply (find_none _ _ Ef). now apply list_elem_of_In.
Qed.

Lemma healthy_models_all_unhealthy candidates mm (b : B) :
  simulation_mode (config mm) = false ->
  (forall m, m ∈ candidates -> unhealthy mm m) ->
  healthy_models candidates mm b = ([], mm, b).
Proof.
  intros Hsim. induction candidates as [|c cs IH]; simpl; intros Hall; [reflexivity|].
  rewrite check_unhealthy; [|exact Hsim | apply Hall; left].
  rewrite IH; [reflexivity|]. intros m Hm. apply Hall. now right.
Qed.

(** No fallback among unhealthy models.  Outside simulation mode, when
    every available model other than the failed one is marked unhealthy,
    [get_fallback_model] returns [None], sends no request and changes
    nothing. *)
Theorem no_fallback_among_unhealthy_models (mm : manager)
    (failed_model : string) (available_models : list string) (b : B) :
  simulation_mode (config mm) = false ->
  (forall m, m ∈ available_models -> m <> failed_model -> unhealthy mm m) ->
  get_fallback_model mm failed_model available_models b = (None, mm, b).
Proof.
  intros Hsim Hall. unfold ModelSelection.get_fallback_model.
  set (candidates := List.filter _ available_models).
  assert (forall m, m ∈ candidates -> unhealthy mm m) as Hc.
  { intros m Hin. apply list_elem_of_In, filter_In in Hin as [Hin Hne].
    apply Hall; [now apply list_elem_of_In|].
    intros ->. now rewrite String.eqb_refl in Hne. }
  destruct candidates as [|c cs] eqn:Ec; [reflexivity|]. rewrite <- Ec in *.
  now rewrite (healthy_models_all_unhealthy candidates mm b Hsim Hc).
Qed.
End Backend.

(** The theorem at work: with [phi3:mini] among the healthy models, it is
    preferred to the model listed first. *)
Lemma fallback_model_is_a_healthy_alternative_witness :
  ModelSelection.get_fallback_model good_backend (fun _ => VNone) fresh_manager
    "llama3" ["llama3"; "mistral"; "phi3:mini"] 0%nat
  = (Some "phi3:mini", 
     snd (fst (ModelSelection.get_fallback_model good_backend (fun _ => VNone)
                 fresh_manager "llama3" ["llama3"; "mistral"; "phi3:mini"] 0%nat)),
     2%nat) /\
  "phi3:mini" ∈ ["llama3"; "mistral"; "phi3:mini"] /\ "phi3:mini" <> "llama3".
Proof.
  match goal with |- ?eq /\ _ => assert eq as H by (vm_compute; reflexivity) end.
  split; [exact H|].
  destruct (fallback_model_is_a_healthy_alternative _ _ _ _ _ _ _ _ _ H)
    as (Hin & Hne & _).
  split; [exact Hin | exact Hne].
Defined.

(** The theorem at work: after two failed health checks of [M], no
    fallback for [llama3] is found among [llama3] and [M]. *)
Lemma no_fallback_among_unhealthy_models_witness :
  let mm := fst manager_after_two_failures in
  simulation_mode (config mm) = false /\
  ModelSelection.get_fallback_model good_backend (fun _ => VNone) mm
    "llama3" ["llama3"; "M"] 7%nat = (None, mm, 7%nat).
Proof.
  intros mm. split; [reflexivity|].
  apply (no_fallback_among_unhealthy_models good_backend (fun _ => VNone) mm
           "llama3" ["llama3"; "M"] 7%nat); [reflexivity|].
  intros m [->|[->|Hin%elem_of_nil]%elem_of_cons]%elem_of_cons Hne;
    [contradiction | | contradiction].
  eexists. split; [vm_compute; reflexivity | reflexivity].
Defined.

(** The theorem at work on a model list with an embedding model. *)
Lemma available_models_are_filtered_witness :
  fst (ModelSelection.get_available_models tags_backend fresh_manager 0%nat)
    = ["llama3:8b"; "phi3:mini"] /\
  contains "embed" (lower "phi3:mini") = false.
Proof.
  split; [vm_compute; reflexivity|].
  apply (available_models_are_filtered tags_backend fresh_manager 0%nat "phi3:mini");
    [reflexivity|].
  vm_compute. right. left.
Defined.


(** *** Counting failures *)

Lemma increment_existing mm m st :
  model_statuses mm !! m = Some st ->
  model_statuses (_increment_failure_count mm m) !! m =
    Some {| name := name st; loaded := loaded st;
            healthy := if (fallback_threshold (config mm) <=? failure_count st + 1)%Z
                       then false else healthy st;
            failure_count := failure_count st + 1;
            last_checked := last_checked st; last_used := last_used st |}.
Proof.
  intros H. unfold _increment_failure_count.
  rewrite (get_model_status_existing mm m st H). simpl.
  now rewrite lookup_insert_eq.
Qed.

Lemma increment_fresh mm m :
  model_statuses mm !! m = None ->
  model_statuses (_increment_failure_count mm m) !! m =
    Some {| name := m; loaded := false;
            healthy := if (fallback_threshold (config mm) <=? 1)%Z then false else true;
            failure_count := 1; last_checked := None; last_used := None |}.
Proof.
  intros H. unfold _increment_failure_count, _get_model_status. rewrite H. simpl.
  now rewrite lookup_insert_eq.
Qed.

Lemma fail_times_config n : forall mm m, config (fail_times n mm m) = config mm.
Proof.
  induction n as [|n IH]; intros mm m; simpl; auto.
  now rewrite IH, config_increment.
Qed.

Lemma fail_times_counts n : forall mm m st,
  model_statuses mm !! m = Some st ->
  (1 <= failure_count st)%Z ->
  healthy st = (failure_count st <? fallback_threshold (config mm))%Z ->
  exists st',
    model_statuses (fail_times n mm m) !! m = Some st' /\
    failure_count st' = (failure_count st + Z.of_nat n)%Z /\
    healthy st' = (failure_count st' <? fallback_threshold (config mm))%Z.
Proof.
  induction n as [|n IH]; intros mm m st Hst Hpos Hh; cbn [fail_times].
  - exists st. split; [exact Hst|]. split; [lia | exact Hh].
  - pose proof (increment_existing mm m st Hst) as Hinc.
    edestruct (IH _ m _ Hinc) as (st' & Hst' & Hc & Hh').
    + simpl. lia.
    + rewrite config_increment. simpl. rewrite Hh.
      destruct (Z.leb_spec (fallback_threshold (config mm)) (failure_count st + 1));
        destruct (Z.ltb_spec (failure_count st) (fallback_threshold (config mm)));
        destruct (Z.ltb_spec (failure_count st + 1) (fallback_threshold (config mm)));
        try reflexivity; lia.
    + exists st'. split; [exact Hst'|]. simpl in Hc.
      rewrite config_increment in Hh'. split; [lia | exact Hh'].
Qed.

(** How many errors mark a model unhealthy.  For a model the manager has
    not seen before, after [n >= 1] errors in a row its failure count is [n]
    and it is marked healthy exactly when [n] is below [fallback_threshold];
    so a threshold of 1 or less marks it unhealthy at the first error. *)
Theorem failures_mark_unhealthy_at_threshold (mm : manager) (m : string) (n : nat) :
  model_statuses mm !! m = None ->
  exists status,
    model_statuses (fail_times (S n) mm m) !! m = Some status /\
    failure_count status = Z.of_nat (S n) /\
    healthy status = (Z.of_nat (S n) <? fallback_threshold (config mm))%Z.
Proof.
  intros Hnone. cbn [fail_times].
  pose proof (increment_fresh mm m Hnone) as Hinc.
  edestruct (fail_times_counts n _ m _ Hinc) as (st' & Hst' & Hc & Hh').
  - simpl. lia.
  - rewrite config_increment. simpl.
    destruct (Z.leb_spec (fallback_threshold (config mm)) 1);
      destruct (Z.ltb_spec 1 (fallback_threshold (config mm))); try reflexivity; lia.
  - exists st'. split; [exact Hst'|]. simpl in Hc.
    rewrite config_increment in Hh'.
    split; [lia|]. rewrite Hh'. f_equal. lia.
Qed.

(** The theorem at work with the default threshold 2: one error leaves the
    model healthy, the second marks it unhealthy. *)
Lemma failures_mark_unhealthy_at_threshold_witness :
  model_statuses fresh_manager !! "M" = None /\
  (exists status, model_statuses (fail_times 1 fresh_manager "M") !! "M" = Some status /\
                  healthy status = true) /\
  (exists status, model_statuses (fail_times 2 fresh_manager "M") !! "M" = Some status /\
                  healthy status = false).
Proof.
  assert (model_statuses fresh_manager !! "M" = None) as H by reflexivity.
  split; [exact H|]. split.
  - destruct (failures_mark_unhealthy_at_threshold fresh_manager "M" 0 H)
      as (st & Hst & _ & Hh). exists st. split; [exact Hst | exact Hh].
  - destruct (failures_mark_unhealthy_at_threshold fresh_manager "M" 1 H)
      as (st & Hst & _ & Hh). exists st. split; [exact Hst | exact Hh].
Defined.

(** *** Loaded models *)

Lemma loaded_consistent_get mm m :
  loaded_consistent mm ->
  loaded_consistent (snd (_get_model_status mm m)) /\
  loaded_models (snd (_get_model_status mm m)) = loaded_models mm /\
  model_statuses (snd (_get_model_status mm m)) !! m = Some (fst (_get_model_status mm m)).
Proof.
  intros H. unfold _get_model_status.
  destruct (model_statuses mm !! m) as [st|] eqn:E; simpl; [auto|].
  rewrite lookup_insert_eq. split; [|auto].
  intros m'. simpl. rewrite (H m'). destruct (decide (m = m')) as [->|Hne].
  - rewrite lookup_insert_eq, E.
    split; intros (st & Hst & Hl); [discriminate | injection Hst as <-; discriminate].
  - now rewrite lookup_insert_ne.
Qed.

Lemma loaded_consistent_set mm m st st' (s : gset string) :
  loaded_consistent mm -> model_statuses mm !! m = Some st ->
  (forall m', m' <> m -> (m' ∈ s <-> m' ∈ loaded_models mm)) ->
  (m ∈ s <-> loaded st' = true) ->
  loaded_consistent
    {| config := config mm; model_statuses := <[m := st']> (model_statuses mm);
       active_model := active_model mm; loaded_models := s |}.
Proof.
  intros H Hst Hother Hm m'. simpl. destruct (decide (m' = m)) as [->|Hne].
  - rewrite lookup_insert_eq, Hm. split; [eauto|]. now intros (? & [= <-] & ?).
  - rewrite lookup_insert_ne by congruence. rewrite (Hother m' Hne). apply H.
Qed.

(** A change of a status that keeps [loaded], with the set unchanged. *)
Lemma loaded_consistent_touch mm m (f : ModelStatus -> ModelStatus) :
  (forall st, loaded (f st) = loaded st) ->
  loaded_consistent mm ->
  loaded_consistent
    (let (status, mm) := _get_model_status mm m in set_status mm m (f status)).
Proof.
  intros Hf H. destruct (loaded_consistent_get mm m H) as (H1 & Hl & Hst).
  destruct (_get_model_status mm m) as [st mm1]. simpl in *.
  unfold set_status, with_statuses.
  apply (loaded_consistent_set mm1 m st); [exact H1 | exact Hst | reflexivity |].
  rewrite Hf. rewrite (H1 m). split.
  - intros (st0 & Hst0 & Hl0). congruence.
  - eauto.
Qed.

Lemma loaded_consistent_increment mm m :
  loaded_consistent mm -> loaded_consistent (_increment_failure_count mm m).
Proof.
  intros H. unfold _increment_failure_count.
  pose proof (loaded_consistent_touch mm m
    (fun status =>
       {| name := name status; loaded := loaded status;
          healthy := if (fallback_threshold (config (snd (_get_model_status mm m))) <=?
                         failure_count status + 1)%Z
                     then false else healthy status;
          failure_count := failure_count status + 1;
          last_checked := last_checked status; last_used := last_used status |})
    (fun _ => eq_refl) H) as H'.
  now destruct (_get_model_status mm m).
Qed.

Lemma loaded_consistent_last_used mm m t :
  loaded_consistent mm -> loaded_consistent (_update_model_status mm m (set_last_used t)).
Proof.
  intros H. unfold _update_model_status.
  pose proof (loaded_consistent_touch mm m
    (fun status =>
       {| name := name status; loaded := loaded status; healthy := healthy status;
          failure_count := failure_count status;
          last_checked := last_checked status; last_used := Some t |})
    (fun _ => eq_refl) H) as H'.
  now destruct (_get_model_status mm m).
Qed.

(** Setting the flag together with the set. *)
Lemma loaded_consistent_flag mm m (flag : bool) (s : gset string) :
  loaded_consistent mm ->
  (forall m', m' <> m -> (m' ∈ s <-> m' ∈ loaded_models mm)) ->
  (m ∈ s <-> flag = true) ->
  loaded_consistent
    (_update_model_status
       {| config := config mm; model_statuses := model_statuses mm;
          active_model := active_model mm; loaded_models := s |} m (set_loaded flag)).
Proof.
  intros H Hother Hm. unfold _update_model_status, _get_model_status. simpl.
  destruct (model_statuses mm !! m) as [st|] eqn:E; unfold set_status, with_statuses; simpl.
  - apply (loaded_consistent_set
             {| config := config mm; model_statuses := model_statuses mm;
                active_model := active_model mm; loaded_models := loaded_models mm |}
             m st); auto.
  - rewrite insert_insert_eq. intros m'. simpl.
    destruct (decide (m' = m)) as [->|Hne].
    + rewrite lookup_insert_eq, Hm. split; [eauto|]. now intros (? & [= <-] & ?).
    + rewrite lookup_insert_ne by congruence. rewrite (Hother m' Hne). apply H.
Qed.

Section Loaded.
Context {B : Type}.
Variable _request : string -> string -> option pydict -> B -> pydict * B.
Variable time_time : B -> value.

Lemma loaded_consistent_check mm m (b : B) :
  loaded_consistent mm ->
  loaded_consistent (snd (fst (check_model_health _request time_time mm m b))).
Proof.
  intros H. unfold check_model_health.
  destruct (simulation_mode (config mm)); [exact H|].
  destruct (loaded_consistent_get mm m H) as (H1 & Hl & Hst).
  destruct (_get_model_status mm m) as [st mm1]. simpl in H1, Hl, Hst.
  destruct (healthy st); simpl; [|exact H1].
  destruct (_request _ _ _ b) as [result b1].
  assert (forall st', loaded st' = loaded st ->
                      loaded_consistent (set_status mm1 m st')) as Hset.
  { intros st' Hst'. unfold set_status, with_statuses.
    apply (loaded_consistent_set mm1 m st); [exact H1 | exact Hst | reflexivity |].
    rewrite Hst', (H1 m). split; [intros (? & ? & ?); congruence | eauto]. }
  destruct (dict_in "error" result); simpl.
  - apply loaded_consistent_increment. now apply Hset.
  - destruct (0 <? failure_count st)%Z; simpl.
    + unfold set_status at 1, with_statuses. simpl. rewrite insert_insert_eq.
      now apply Hset.
    + now apply Hset.
Qed.

Lemma loaded_consistent_op op mm (b : B) :
  loaded_consistent mm ->
  loaded_consistent (fst (apply_op _request time_time op mm b)).
Proof.
  intros H. destruct op as [m|m|m|m|m]; simpl.
  - pose proof (loaded_consistent_check mm m b H) as Hc.
    now destruct (check_model_health _request time_time mm m b) as [[? ?] ?].
  - unfold preload_model. destruct (_ || _); [exact H|].
    destruct (_request _ _ _ b) as [result b1].
    destruct (dict_in "error" result); simpl.
    + now apply loaded_consistent_increment.
    + apply loaded_consistent_flag; auto; set_solver.
  - unfold unload_model. destruct (simulation_mode _); [exact H|].
    destruct (_request _ _ _ b) as [result b1].
    destruct (dict_in "error" result); simpl; [exact H|].
    case_bool_decide; simpl; [|exact H].
    apply loaded_consistent_flag; auto; [set_solver|].
    split; [set_solver | discriminate].
  - now apply loaded_consistent_last_used.
  - now apply loaded_consistent_increment.
Qed.

(** The set of loaded models and the status table agree.  Starting from a
    manager in which [loaded_models] holds exactly the models whose status
    has [loaded = True] (a new manager is one), this stays so through any
    sequence of health checks, preloads, unloads, uses and failures. *)
Theorem loaded_models_match_status_flags (ops : list manager_op)
    (mm : manager) (b : B) :
  loaded_consistent mm ->
  loaded_consistent (fst (apply_ops _request time_time ops mm b)).
Proof.
  revert mm b. induction ops as [|op ops IH]; intros mm b H; simpl; [exact H|].
  pose proof (loaded_consistent_op op mm b H) as H1.
  destruct (apply_op _request time_time op mm b) as [mm1 b1]. now apply IH.
Qed.

(** Preloading and unloading.  Outside simulation mode, after a preload
    that reports success the model is in [loaded_models], and preloading it
    again sends no request and changes nothing; after an unload that reports
    success the model is no longer in [loaded_models]. *)
Theorem preload_and_unload_track_loaded_models (mm : manager) (m : string) (b : B) :
  simulation_mode (config mm) = false ->
  (forall mm1 b1, preload_model _request mm m b = (true, mm1, b1) ->
     m ∈ loaded_models mm1 /\
     forall b2, preload_model _request mm1 m b2 = (true, mm1, b2)) /\
  (forall mm1 b1, unload_model _request mm m b = (true, mm1, b1) ->
     m ∉ loaded_models mm1).
Proof.
  intros Hsim. split.
  - intros mm1 b1. unfold preload_model at 1. rewrite Hsim. simpl.
    case_bool_decide as Hin.
    + intros [= <- <-]. split; [exact Hin|]. intros b2.
      unfold preload_model. rewrite bool_decide_true by exact Hin.
      now rewrite orb_true_r.
    + destruct (_request _ _ _ b) as [result b'].
      destruct (dict_in "error" result); [discriminate|].
      intros [= <- <-].
      assert (m ∈ loaded_models
                (_update_model_status
                   {| config := config mm; model_statuses := model_statuses mm;
                      active_model := active_model mm;
                      loaded_models := {[m]} ∪ loaded_models mm |} m (set_loaded true)))
        as Hl.
      { unfold _update_model_status, _get_model_status. simpl.
        destruct (model_statuses mm !! m); simpl; set_solver. }
      split; [exact Hl|]. intros b2. unfold preload_model.
      rewrite bool_decide_true by exact Hl. now rewrite orb_true_r.
  - intros mm1 b1. unfold unload_model. rewrite Hsim.
    destruct (_request _ _ _ b) as [result b'].
    destruct (dict_in "error" result); [discriminate|].
    case_bool_decide as Hin.
    + intros [= <- <-]. unfold _update_model_status, _get_model_status. simpl.
      destruct (model_statuses mm !! m); simpl; set_solver.
    + now intros [= <- <-].
Qed.
End Loaded.

(** The theorem at work on a new manager. *)
Lemma loaded_models_match_status_flags_witness :
  loaded_consistent fresh_manager /\
  loaded_consistent
    (fst (apply_ops good_backend (fun _ => VNone)
            [op_preload_model "M"; op_check_model_health "N"; op_unload_model "M"]
            fresh_manager 0%nat)).
Proof.
  assert (loaded_consistent fresh_manager) as H.
  { intros m. simpl. split; [set_solver|]. intros (st & Hst & _).
    rewrite lookup_empty in Hst. discriminate. }
  split; [exact H|].
  now apply (loaded_models_match_status_flags good_backend (fun _ => VNone)).
Defined.

(** The theorem at work: a preload answered by the backend. *)
Lemma preload_and_unload_track_loaded_models_witness :
  simulation_mode (config fresh_manager) = false /\
  "M" ∈ loaded_models (snd (fst (preload_model good_backend fresh_manager "M" 0%nat))).
Proof.
  split; [reflexivity|].
  destruct (preload_and_unload_track_loaded_models good_backend (fun _ => VNone)
              fresh_manager "M" 0%nat eq_refl) as [Hpre _].
  destruct (preload_model good_backend fresh_manager "M" 0%nat) as [[ok mm1] b1] eqn:E.
  assert (ok = true) as -> by (vm_compute in E; congruence).
  exact (proj1 (Hpre mm1 b1 eq_refl)).
Defined.

End ManagerFacts.

(** ** More about the steps: errors, statuses, messages, request counts *)

Module StepsMoreFacts.
Import Py PyFacts Exn Str JSONProcessor Steps StepsSpec StepsFacts StepsMoreSpec.

Section Env.
Context {W : Type}.
Variable check_model_health : string -> M W bool.
Variable generate_with_model : string -> string -> pydict -> M W pydict.
Variable generate_with_chat :
  string -> list value -> pydict -> option pydict -> M W pydict.
Variable time_time : M W value.
Variable py_sub : value -> value -> value.
Variable str_format : string -> pydict -> result string.
Variable capitalize : string -> string.
Variable half_capped : value -> result value.

Abbreviation try_fallbacks :=
  (try_fallbacks check_model_health generate_with_model time_time py_sub
                 str_format capitalize).
Abbreviation get_fallback :=
  (get_fallback check_model_health generate_with_model time_time py_sub
                str_format capitalize).
Abbreviation execute :=
  (execute check_model_health generate_with_model time_time py_sub
           str_format capitalize half_capped).
Abbreviation chat_try_fallbacks :=
  (chat_try_fallbacks check_model_health generate_with_chat time_time py_sub capitalize).
Abbreviation chat_get_fallback :=
  (chat_get_fallback check_model_health generate_with_chat time_time py_sub capitalize).
Abbreviation chat_execute :=
  (chat_execute check_model_health generate_with_model generate_with_chat time_time
                py_sub str_format capitalize half_capped).

(** *** A step without fallback models turns every exception into a result *)

Lemma try_except_total {A} (body : M W A) (handler : exn -> M W A) :
  (forall e, never_raises (handler e)) -> never_raises (try_except body handler).
Proof.
  intros H w. unfold try_except. destruct (body w) as [[a|e] w1]; [eauto|].
  apply H.
Qed.

(** A step without fallback models never raises.  Whatever the model
    manager does (return, report an error, raise) and whatever the prompt
    template or the data, [execute] of a completion step and of a chat step
    with an empty [fallback_models] returns a result dictionary. *)
Theorem step_without_fallbacks_never_raises (self : ModelStep)
    (chat : ChatModelStep) (data : pydict) :
  (fallback_models self = [] -> never_raises (execute self data)) /\
  (chat_fallback_models chat = [] -> never_raises (chat_execute chat data)).
Proof.
  split; intros Hnone.
  - unfold Steps.execute. apply try_except_total. intros e w.
    rewrite Hnone. simpl. eauto.
  - unfold Steps.chat_execute. apply try_except_total. intros e w.
    rewrite Hnone. simpl. eauto.
Qed.

(** *** Status and output agree *)

Lemma try_fallbacks_consistent self data candidates :
  returns consistent_result (try_fallbacks self data candidates).
Proof.
  induction candidates as [|c cs IH]; simpl.
  - apply returns_ret. eexists. split; reflexivity.
  - apply returns_bind. intros is_healthy. destruct is_healthy; simpl; [|exact IH].
    apply returns_bind. intros prompt. apply returns_bind. intros t0.
    apply returns_bind. intros result. apply returns_bind. intros t1.
    destruct (dict_in "error" result) eqn:E; simpl; [exact IH|].
    apply returns_ret. exists result. split; [reflexivity|]. now rewrite E.
Qed.

Lemma chat_try_fallbacks_consistent self data candidates :
  returns consistent_result (chat_try_fallbacks self data candidates).
Proof.
  induction candidates as [|c cs IH]; simpl.
  - apply returns_ret. eexists. split; reflexivity.
  - apply returns_bind. intros is_healthy. destruct is_healthy; simpl; [|exact IH].
    apply returns_bind. intros messages. apply returns_bind. intros t0.
    apply returns_bind. intros result. apply returns_bind. intros t1.
    destruct (dict_in "error" result) eqn:E; simpl; [exact IH|].
    apply returns_ret. exists result. split; [reflexivity|]. now rewrite E.
Qed.

(** Status and output never disagree.  In every result that [execute] or
    [get_fallback] of a completion or chat step returns, [output] is a
    dictionary and [status] is [error] exactly when that dictionary has an
    [error] key, [success] otherwise. *)
Theorem step_status_matches_output (self : ModelStep) (chat : ChatModelStep)
    (data : pydict) :
  returns consistent_result (execute self data) /\
  returns consistent_result (get_fallback self data) /\
  returns consistent_result (chat_execute chat data) /\
  returns consistent_result (chat_get_fallback chat data).
Proof.
  split; [|split; [apply try_fallbacks_consistent|split;
                   [|apply chat_try_fallbacks_consistent]]].
  - unfold Steps.execute. apply returns_try_except.
    + apply returns_bind. intros is_healthy.
      destruct (negb is_healthy && _); [apply try_fallbacks_consistent|].
      apply returns_bind. intros prompt. apply returns_bind. intros t0.
      apply returns_bind. intros result. apply returns_bind. intros t1.
      destruct (dict_in "error" result && _); [apply try_fallbacks_consistent|].
      apply returns_bind. intros result'. apply returns_ret.
      exists result'. split; reflexivity.
    + intros e. destruct (negb _); [apply try_fallbacks_consistent|].
      apply returns_ret. eexists. split; reflexivity.
  - unfold Steps.chat_execute. apply returns_try_except.
    + apply returns_bind. intros is_healthy.
      destruct (negb is_healthy && _); [apply chat_try_fallbacks_consistent|].
      apply returns_bind. intros messages. apply returns_bind. intros t0.
      apply returns_bind. intros result. apply returns_bind. intros t1.
      destruct (dict_in "error" result && _); [apply chat_try_fallbacks_consistent|].
      apply returns_bind. intros result'. apply returns_ret.
      exists result'. split; reflexivity.
    + intros e. destruct (negb _); [apply chat_try_fallbacks_consistent|].
      apply returns_ret. eexists. split; reflexivity.
Qed.
End Env.


(** *** The messages of a chat step *)

Section Messages.
Variable capitalize : string -> string.

(** The test [m.get("role") != "system"], as a boolean. *)
Lemma role_match {A : Type} (v : option value) (a b : A) :
  match v with Some (VStr "system") => a | _ => b end =
  if match v with Some (VStr "system") => true | _ => false end then a else b.
Proof.
  destruct v as [[| | | |s| |]|]; try reflexivity.
  repeat (destruct s as [|[[] [] [] [] [] [] [] []] s]; try reflexivity).
Qed.

Lemma prepare_messages_system (self : ChatModelStep) (data : pydict)
    (p : string) (ms : list value) :
  system_prompt self = Some p -> p <> EmptyString ->
  _prepare_messages capitalize self data = Ok ms ->
  exists rest,
    ms = VDict [("role", VStr "system"); ("content", VStr p)] :: rest /\
    forall m, m ∈ rest -> is_system m = false.
Proof.
  intros Hp Hne. unfold _prepare_messages. rewrite Hp.
  destruct p as [|c p']; [contradiction|].
  set (sys := VDict [("role", VStr "system"); ("content", VStr (String c p'))]).
  assert (forall given acc r,
    (forall m, m ∈ acc -> is_system m = false) ->
    (fix keep (ms : list value) (acc : list value) {struct ms} : result (list value) :=
       match ms with
       | [] => Ok ([sys] ++ acc)
       | (VDict d as m) :: ms' =>
           match dict_get "role" d with
           | Some (VStr "system") => keep ms' acc
           | _ => keep ms' (acc ++ [m])
           end
       | m :: _ => Raise (attribute_error m "get")
       end) given acc = Ok r ->
    exists rest, r = sys :: rest /\ forall m, m ∈ rest -> is_system m = false) as Hkeep.
  { induction given as [|m given IH]; intros acc r Hacc.
    - intros [= <-]. exists acc. split; [reflexivity | exact Hacc].
    - destruct m as [| | | | | |d]; try discriminate.
      rewrite role_match.
      destruct (match dict_get "role" d with
                | Some (VStr "system") => true
                | _ => false
                end) eqn:Er.
      + apply IH. exact Hacc.
      + apply IH. intros m [Hm|Hm]%elem_of_app; [auto|].
        apply list_elem_of_singleton in Hm. subst m. exact Er. }
  destruct (dict_get "messages" data) as [[| | | | |given|]|].
  6: { intros H. apply (Hkeep given [] ms); [|exact H]. now intros m ?%elem_of_nil. }
  all: destruct (analysis_lines capitalize " analysis: " true data);
    intros [= <-]; eexists; (split; [reflexivity|]);
    destruct (dict_get "query" data); simpl;
    intros m Hm; repeat (apply elem_of_cons in Hm as [->|Hm]; [reflexivity|]);
    now apply elem_of_nil in Hm.
Qed.

(** One system message.  When a chat step has a (non-empty) system
    prompt, the messages it prepares start with that system message and hold
    no other message with the role [system]: system messages supplied in
    [data["messages"]] are dropped. *)
Theorem chat_messages_have_one_system_message (self : ChatModelStep)
    (data : pydict) (p : string) (ms : list value) :
  system_prompt self = Some p -> p <> EmptyString ->
  _prepare_messages capitalize self data = Ok ms ->
  head ms = Some (VDict [("role", VStr "system"); ("content", VStr p)]) /\
  length (List.filter is_system ms) = 1.
Proof.
  intros Hp Hne H. destruct (prepare_messages_system self data p ms Hp Hne H)
    as (rest & -> & Hrest).
  split; [reflexivity|].
  assert (List.filter is_system rest = []) as Hnone.
  { clear H. induction rest as [|m rest IH]; [reflexivity|]. cbn [List.filter].
    rewrite (Hrest m) by left. apply IH. intros m' Hm'. apply Hrest. now right. }
  cbn [List.filter]. rewrite Hnone. reflexivity.
Qed.
End Messages.

(** The theorem at work: the system message supplied with the data is
    dropped. *)
Lemma chat_messages_have_one_system_message_witness :
  let self := {| chat_model_name := "m"; system_prompt := Some "Be brief.";
                 chat_options := []; chat_fallback_models := [];
                 chat_output_schema := None; chat_use_patching := false;
                 chat_max_patching_attempts := 0;
                 chat_patching_prompt := EmptyString; chat_fallback_to_text := true |} in
  let data := [("messages",
                VList [VDict [("role", VStr "system"); ("content", VStr "Be verbose.")];
                       VDict [("role", VStr "user"); ("content", VStr "Hi")]])] in
  _prepare_messages toy_capitalize self data =
    Ok [VDict [("role", VStr "system"); ("content", VStr "Be brief.")];
        VDict [("role", VStr "user"); ("content", VStr "Hi")]] /\
  length (List.filter is_system
            [VDict [("role", VStr "system"); ("content", VStr "Be brief.")];
             VDict [("role", VStr "user"); ("content", VStr "Hi")]]) = 1.
Proof.
  intros self data.
  assert (_prepare_messages toy_capitalize self data =
    Ok [VDict [("role", VStr "system"); ("content", VStr "Be brief.")];
        VDict [("role", VStr "user"); ("content", VStr "Hi")]]) as H
    by (vm_compute; reflexivity).
  split; [exact H|].
  apply (chat_messages_have_one_system_message toy_capitalize self data "Be brief." _
           eq_refl); [discriminate | exact H].
Defined.


(** *** How many requests a step makes *)

Section Costs.
Context {W : Type}.

Lemma costs_ret {A} (a : A) : costs (W := W) 0 (ret a).
Proof. intros w n r w' n' [= <- <- <-]. lia. Qed.

Lemma costs_lift {A} (x : result A) : costs (W := W) 0 (lift x).
Proof. intros w n r w' n' [= <- <- <-]. lia. Qed.

Lemma costs_throw {A} (e : exn) : costs (W := W) (A := A) 0 (throw e).
Proof. intros w n r w' n' [= <- <- <-]. lia. Qed.

Lemma costs_uncounted {A} (m : M W A) : costs 0 (uncounted m).
Proof.
  intros w n r w' n'. unfold uncounted. simpl.
  destruct (m w) as [r0 w0]. intros [= <- <- <-]. lia.
Qed.

Lemma costs_counted {A} (m : M W A) : costs 1 (counted m).
Proof.
  intros w n r w' n'. unfold counted. simpl.
  destruct (m w) as [r0 w0]. intros [= <- <- <-]. lia.
Qed.

Lemma costs_weaken {A} k k' (m : M (W * nat) A) :
  k <= k' -> costs k m -> costs k' m.
Proof. intros Hle H w n r w' n' E. specialize (H w n r w' n' E). lia. Qed.

Lemma costs_bind {A C} k1 k2 (m : M (W * nat) A) (f : A -> M (W * nat) C) :
  costs k1 m -> (forall a, costs k2 (f a)) -> costs (k1 + k2) (bind m f).
Proof.
  intros Hm Hf w n r w' n'. unfold bind.
  destruct (m (w, n)) as [[a|e] [w1 n1]] eqn:E.
  - intros E2. specialize (Hm _ _ _ _ _ E). specialize (Hf a _ _ _ _ _ E2). lia.
  - intros [= <- <- <-]. specialize (Hm _ _ _ _ _ E). lia.
Qed.

Lemma costs_try_except {A} k1 k2 (body : M (W * nat) A) (h : exn -> M (W * nat) A) :
  costs k1 body -> (forall e, costs k2 (h e)) -> costs (k1 + k2) (try_except body h).
Proof.
  intros Hb Hh w n r w' n'. unfold try_except.
  destruct (body (w, n)) as [[a|e] [w1 n1]] eqn:E.
  - intros [= <- <- <-]. specialize (Hb _ _ _ _ _ E). lia.
  - intros E2. specialize (Hb _ _ _ _ _ E). specialize (Hh e _ _ _ _ _ E2). lia.
Qed.

Variable check_model_health : string -> M W bool.
Variable generate_with_model : string -> string -> pydict -> M W pydict.
Variable generate_with_chat :
  string -> list value -> pydict -> option pydict -> M W pydict.
Variable time_time : M W value.
Variable py_sub : value -> value -> value.
Variable str_format : string -> pydict -> result string.
Variable capitalize : string -> string.
Variable half_capped : value -> result value.

Abbreviation check' := (counting_check check_model_health).
Abbreviation generate' := (counting_generate generate_with_model).
Abbreviation chat' := (counting_chat generate_with_chat).
Abbreviation time' := (uncounted time_time).

Ltac cost0 := first [ apply costs_ret | apply costs_lift | apply costs_throw
                    | apply costs_uncounted ].

Lemma patch_json_with_model_cost model text schema prompt opts :
  costs 1 (patch_json_with_model generate' str_format model text schema prompt opts).
Proof.
  unfold patch_json_with_model.
  apply (costs_bind 0 1); [cost0|]. intros head.
  apply (costs_try_except 1 0); [|intros e; cost0].
  apply (costs_bind 1 0); [apply costs_counted|]. intros result.
  destruct (dict_in "error" result); [cost0|].
  destruct (match dict_get "response" result with Some t => t | None => VStr EmptyString end);
    try cost0.
  destruct (match extract_json s with
            | Some (String _ _ as json_str) => Json.loads json_str
            | _ => Json.loads s
            end) as [fixed|[]]; try cost0.
  apply (costs_bind 0 0); [cost0|]. intros [[] validated]; cost0.
Qed.

Lemma patch_attempts_cost n model schema prompt opts text :
  costs n (patch_attempts generate' str_format n model schema prompt opts text).
Proof.
  revert text. induction n as [|n IH]; intros text; cbn [patch_attempts]; [cost0|].
  apply (costs_bind 1 n); [apply patch_json_with_model_cost|].
  intros [patched|patched]; [eapply costs_weaken; [|cost0]; lia | apply IH].
Qed.

Lemma patch_json_output_cost model opts schema patching n prompt text :
  costs n (_patch_json_output generate' str_format half_capped model opts schema
             patching n prompt text).
Proof.
  unfold _patch_json_output.
  destruct (negb patching || (n =? 0)%nat); [eapply costs_weaken; [|cost0]; lia|].
  apply (costs_bind 0 n); [cost0|]. intros t. apply patch_attempts_cost.
Qed.

Lemma try_fallbacks_cost self data candidates :
  costs (length candidates)
    (try_fallbacks check' generate' time' py_sub str_format capitalize
       self data candidates).
Proof.
  induction candidates as [|c cs IH]; cbn [Steps.try_fallbacks length]; [cost0|].
  assert (costs (1 + length cs)
            (Steps.try_fallbacks check' generate' time' py_sub str_format capitalize
               self data cs)) as IH'
    by (eapply costs_weaken; [|exact IH]; lia).
  apply (costs_bind 0 (1 + length cs)); [cost0|]. intros is_healthy.
  destruct (negb is_healthy); [exact IH'|].
  apply (costs_bind 0 (1 + length cs)); [cost0|]. intros prompt.
  apply (costs_bind 0 (1 + length cs)); [cost0|]. intros t0.
  apply (costs_bind 1 (length cs)); [apply costs_counted|]. intros result.
  apply (costs_bind 0 (length cs)); [cost0|]. intros t1.
  destruct (negb _); [eapply costs_weaken; [|cost0]; lia | exact IH].
Qed.

Lemma chat_try_fallbacks_cost self data candidates :
  costs (length candidates)
    (chat_try_fallbacks check' chat' time' py_sub capitalize self data candidates).
Proof.
  induction candidates as [|c cs IH]; cbn [Steps.chat_try_fallbacks length]; [cost0|].
  assert (costs (1 + length cs)
            (Steps.chat_try_fallbacks check' chat' time' py_sub capitalize
               self data cs)) as IH'
    by (eapply costs_weaken; [|exact IH]; lia).
  apply (costs_bind 0 (1 + length cs)); [cost0|]. intros is_healthy.
  destruct (negb is_healthy); [exact IH'|].
  apply (costs_bind 0 (1 + length cs)); [cost0|]. intros messages.
  apply (costs_bind 0 (1 + length cs)); [cost0|]. intros t0.
  apply (costs_bind 1 (length cs)); [apply costs_counted|]. intros result.
  apply (costs_bind 0 (length cs)); [cost0|]. intros t1.
  destruct (negb _); [eapply costs_weaken; [|cost0]; lia | exact IH].
Qed.

Lemma completion_postprocess_cost self result :
  costs (max_patching_attempts self)
    (completion_postprocess generate' str_format half_capped self result).
Proof.
  set (P := max_patching_attempts self).
  assert (forall A (m : M (W * nat) A), costs 0 m -> costs P m) as Hz
    by (intros A m; apply costs_weaken; lia).
  assert (forall v, costs P (if fallback_to_text self
                             then lift (wrap_text_as_json v) else ret result)) as Hwrap
    by (intros v; destruct (fallback_to_text self); apply Hz; cost0).
  unfold completion_postprocess. destruct (output_schema self) as [schema|];
    [|apply Hz; cost0].
  replace P with (P + 0) by lia.
  apply costs_try_except; [|intros e; destruct (fallback_to_text self); cost0].
  destruct (match dict_get "response" result with
            | Some r => r | None => VStr EmptyString end) as [| | | |s| |];
    try apply Hwrap.
  destruct (looks_like_json_object s); [|apply Hwrap].
  unfold completion_json_branch.
  assert (costs P
    (if use_patching self
     then bind (_patch_json_output generate' str_format half_capped (model_name self)
                  (options self) schema (use_patching self) (max_patching_attempts self)
                  (patching_prompt self) (VStr s))
               (fun patched => match patched with
                               | Some ((_ :: _) as p) => ret p
                               | _ => if fallback_to_text self
                                      then lift (wrap_text_as_json (VStr s))
                                      else ret result
                               end)
     else if fallback_to_text self
          then lift (wrap_text_as_json (VStr s)) else ret result)) as Hpatch.
  { destruct (use_patching self); [|apply Hwrap].
    replace P with (P + 0) by lia.
    apply costs_bind; [apply patch_json_output_cost|].
    intros [[|kv p]|]; try cost0; destruct (fallback_to_text self); cost0. }
  destruct (Json.loads s) as [parsed|[]]; try (apply Hz; cost0); [|exact Hpatch].
  replace P with (0 + P) by lia. apply costs_bind; [cost0|].
  intros [[] validated]; [apply Hz; cost0 | exact Hpatch].
Qed.

Lemma chat_postprocess_cost self result :
  costs (chat_max_patching_attempts self)
    (chat_postprocess generate' str_format half_capped self result).
Proof.
  set (P := chat_max_patching_attempts self).
  assert (forall A (m : M (W * nat) A), costs 0 m -> costs P m) as Hz
    by (intros A m; apply costs_weaken; lia).
  unfold chat_postprocess. destruct (chat_output_schema self) as [schema|];
    [|apply Hz; cost0].
  destruct (dict_get "response" result) as [[| | | |s| |]|]; try (apply Hz; cost0).
  destruct (looks_like_json_object s); [|apply Hz; cost0].
  unfold chat_json_branch.
  assert (costs P
    (if chat_use_patching self
     then bind (_patch_json_output generate' str_format half_capped
                  (chat_model_name self) (chat_options self) schema
                  (chat_use_patching self) (chat_max_patching_attempts self)
                  (chat_patching_prompt self) (VStr s))
               (fun patched => match patched with
                               | Some ((_ :: _) as p) =>
                                   ret (dict_set "parsed_output" (VDict p) result)
                               | _ => ret result
                               end)
     else ret result)) as Hpatch.
  { destruct (chat_use_patching self); [|apply Hz; cost0].
    replace P with (P + 0) by lia.
    apply costs_bind; [apply patch_json_output_cost|].
    intros [[|kv p]|]; cost0. }
  destruct (Json.loads s) as [parsed|[]]; try (apply Hz; cost0); [|exact Hpatch].
  replace P with (0 + P) by lia. apply costs_bind; [cost0|].
  intros [[] validated]; [apply Hz; cost0 | exact Hpatch].
Qed.

(** A bound on the requests of a step.  With every [generate_with_model]
    and [generate_with_chat] call counted, one [execute] of a completion step
    or of a chat step makes at most one call for its own model, one per
    patching attempt, and two per fallback model (the fallbacks may be tried
    once in the body and once more in the exception handler); [get_fallback]
    alone makes at most one per fallback model and the patch loop at most
    [max_patching_attempts]. *)
Theorem step_request_budget (self : ModelStep) (chat : ChatModelStep)
    (data : pydict) (text : value) :
  costs (1 + max_patching_attempts self + 2 * length (fallback_models self))
    (execute check' generate' time' py_sub str_format capitalize half_capped
       self data) /\
  costs (1 + chat_max_patching_attempts chat + 2 * length (chat_fallback_models chat))
    (chat_execute check' generate' chat' time' py_sub str_format capitalize half_capped
       chat data) /\
  costs (length (fallback_models self))
    (get_fallback check' generate' time' py_sub str_format capitalize self data) /\
  match output_schema self with
  | Some schema =>
      costs (max_patching_attempts self)
        (_patch_json_output generate' str_format half_capped (model_name self)
           (options self) schema (use_patching self) (max_patching_attempts self)
           (patching_prompt self) text)
  | None => True
  end.
Proof.
  split; [|split; [|split]].
  - set (P := max_patching_attempts self). set (L := length (fallback_models self)).
    pose proof (try_fallbacks_cost self data (fallback_models self)) as Hfb.
    fold L in Hfb.
    replace (1 + P + 2 * L) with ((1 + P + L) + L) by lia.
    unfold Steps.execute. apply costs_try_except.
    2:{ intros e. destruct (negb _); [exact Hfb|].
        eapply costs_weaken; [|cost0]. lia. }
    replace (1 + P + L) with (0 + (1 + P + L)) by lia.
    apply costs_bind; [cost0|]. intros is_healthy.
    destruct (negb is_healthy && _); [eapply costs_weaken; [|exact Hfb]; lia|].
    replace (1 + P + L) with (0 + (1 + P + L)) by lia.
    apply costs_bind; [cost0|]. intros prompt.
    replace (1 + P + L) with (0 + (1 + P + L)) by lia.
    apply costs_bind; [cost0|]. intros t0.
    replace (1 + P + L) with (1 + (P + L)) by lia.
    apply costs_bind; [apply costs_counted|]. intros result.
    replace (P + L) with (0 + (P + L)) by lia.
    apply costs_bind; [cost0|]. intros t1.
    destruct (dict_in "error" result && _); [eapply costs_weaken; [|exact Hfb]; lia|].
    eapply costs_weaken with (k := P + 0); [lia|].
    apply costs_bind; [apply completion_postprocess_cost|]. intros r. cost0.
  - set (P := chat_max_patching_attempts chat).
    set (L := length (chat_fallback_models chat)).
    pose proof (chat_try_fallbacks_cost chat data (chat_fallback_models chat)) as Hfb.
    fold L in Hfb.
    replace (1 + P + 2 * L) with ((1 + P + L) + L) by lia.
    unfold Steps.chat_execute. apply costs_try_except.
    2:{ intros e. destruct (negb _); [exact Hfb|].
        eapply costs_weaken; [|cost0]. lia. }
    replace (1 + P + L) with (0 + (1 + P + L)) by lia.
    apply costs_bind; [cost0|]. intros is_healthy.
    destruct (negb is_healthy && _); [eapply costs_weaken; [|exact Hfb]; lia|].
    replace (1 + P + L) with (0 + (1 + P + L)) by lia.
    apply costs_bind; [cost0|]. intros messages.
    replace (1 + P + L) with (0 + (1 + P + L)) by lia.
    apply costs_bind; [cost0|]. intros t0.
    replace (1 + P + L) with (1 + (P + L)) by lia.
    apply costs_bind; [apply costs_counted|]. intros result.
    replace (P + L) with (0 + (P + L)) by lia.
    apply costs_bind; [cost0|]. intros t1.
    destruct (dict_in "error" result && _); [eapply costs_weaken; [|exact Hfb]; lia|].
    eapply costs_weaken with (k := P + 0); [lia|].
    apply costs_bind; [apply chat_postprocess_cost|]. intros r. cost0.
  - apply try_fallbacks_cost.
  - destruct (output_schema self); [apply patch_json_output_cost | exact I].
Qed.
End Costs.


(** *** What the schema handling leaves in the result *)

Lemma validate_true v schema d :
  validate_with_schema v schema = Ok (true, d) -> model_validate schema v = Ok d.
Proof.
  unfold validate_with_schema.
  destruct (model_validate schema v) as [d'|[]]; try discriminate; congruence.
Qed.

Lemma wrap_text_wrapper v d : wrap_text_as_json v = Ok d -> text_wrapper d.
Proof.
  unfold wrap_text_as_json. destruct (negb (truthy v)).
  - intros [= <-]. now right.
  - destruct v; try discriminate. intros [= <-]. left. eauto.
Qed.

Section SchemaResults.
Context {W : Type}.
Variable generate_with_model : string -> string -> pydict -> M W pydict.
Variable str_format : string -> pydict -> result string.
Variable half_capped : value -> result value.

Abbreviation patch_json_with_model :=
  (patch_json_with_model generate_with_model str_format).
Abbreviation patch_attempts := (patch_attempts generate_with_model str_format).
Abbreviation _patch_json_output :=
  (_patch_json_output generate_with_model str_format half_capped).
Abbreviation completion_postprocess :=
  (completion_postprocess generate_with_model str_format half_capped).
Abbreviation chat_postprocess :=
  (chat_postprocess generate_with_model str_format half_capped).

Lemma returns_lift {A} (P : A -> Prop) (x : result A) :
  (forall a, x = Ok a -> P a) -> returns (W := W) P (lift x).
Proof. intros H w a w' [= Hx _]. auto. Qed.

Lemma returns_throw {A} (P : A -> Prop) (e : exn) : returns (W := W) P (throw e).
Proof. intros w a w' [=]. Qed.

Lemma patch_json_with_model_valid model text schema prompt opts :
  returns (fun a => forall d, a = inl d -> schema_valid schema d)
          (patch_json_with_model model text schema prompt opts).
Proof.
  unfold Steps.patch_json_with_model. apply returns_bind. intros head.
  apply returns_try_except; [|intros e; apply returns_ret; discriminate].
  apply returns_bind. intros result.
  destruct (dict_in "error" result); [apply returns_ret; discriminate|].
  destruct (match dict_get "response" result with Some t => t | None => VStr EmptyString end);
    try apply returns_throw.
  destruct (match extract_json s with
            | Some (String _ _ as json_str) => Json.loads json_str
            | _ => Json.loads s
            end) as [fixed|[]];
    try apply returns_throw; try (apply returns_ret; discriminate).
  unfold bind, lift. intros w a w'.
  destruct (validate_with_schema fixed schema) as [[[] validated]|e] eqn:Ev;
    try discriminate.
  - intros [= <- _] d [= <-]. exists fixed. now apply validate_true.
  - intros [= <- _] d [=].
Qed.

Lemma patch_attempts_valid n model schema prompt opts : forall text,
  returns (fun o => forall d, o = Some d -> schema_valid schema d)
          (patch_attempts n model schema prompt opts text).
Proof.
  induction n as [|n IH]; intros text; cbn [Steps.patch_attempts].
  - apply returns_ret. discriminate.
  - intros w o w'. unfold bind at 1.
    destruct (patch_json_with_model model text schema prompt opts w)
      as [[[d|v]|e] w1] eqn:E; try discriminate.
    + intros [= <- _] d' [= <-].
      exact (patch_json_with_model_valid _ _ _ _ _ _ _ _ E d eq_refl).
    + apply IH.
Qed.

Lemma patch_json_output_valid model opts schema patching n prompt text :
  returns (fun o => forall d, o = Some d -> schema_valid schema d)
          (_patch_json_output model opts schema patching n prompt text).
Proof.
  unfold Steps._patch_json_output.
  destruct (negb patching || (n =? 0)%nat); [apply returns_ret; discriminate|].
  apply returns_bind. intros t. apply patch_attempts_valid.
Qed.

(** The schema handling never leaves an unchecked object.  For a
    completion step with an output schema, what the schema block of [execute]
    makes of a backend result is an object the schema's validation returned,
    or (with [fallback_to_text]) the wrapped text, or (without it) the result
    unchanged.  For a chat step it is the result unchanged, or the result
    with [parsed_output] set to an object the schema's validation returned. *)
Theorem schema_block_yields_validated_or_wrapped (self : ModelStep)
    (chat : ChatModelStep) (schema : Schema) (result : pydict) :
  (output_schema self = Some schema ->
   returns (fun r => schema_valid schema r \/
                     (fallback_to_text self = true /\ text_wrapper r) \/
                     (fallback_to_text self = false /\ r = result))
           (completion_postprocess self result)) /\
  (chat_output_schema chat = Some schema ->
   returns (fun r => r = result \/
                     exists p, r = dict_set "parsed_output" (VDict p) result /\
                               schema_valid schema p)
           (chat_postprocess chat result)).
Proof.
  split; intros Hschema.
  - set (P := fun r => schema_valid schema r \/
                       (fallback_to_text self = true /\ text_wrapper r) \/
                       (fallback_to_text self = false /\ r = result)).
    assert (forall v, returns (W := W) P (if fallback_to_text self
                                 then lift (wrap_text_as_json v) else ret result))
      as Hwrap.
    { intros v. destruct (fallback_to_text self) eqn:Ef.
      - apply returns_lift. intros d Hd. right. left.
        split; [reflexivity | now apply (wrap_text_wrapper v)].
      - apply returns_ret. right. right. auto. }
    unfold Steps.completion_postprocess. rewrite Hschema.
    apply returns_try_except; [|intros e; apply Hwrap].
    destruct (match dict_get "response" result with
              | Some r => r | None => VStr EmptyString end) as [| | | |s| |];
      try apply Hwrap.
    destruct (looks_like_json_object s); [|apply Hwrap].
    unfold completion_json_branch.
    assert (returns P
      (if use_patching self
       then bind (_patch_json_output (model_name self) (options self) schema
                    (use_patching self) (max_patching_attempts self)
                    (patching_prompt self) (VStr s))
                 (fun patched => match patched with
                                 | Some ((_ :: _) as p) => ret p
                                 | _ => if fallback_to_text self
                                        then lift (wrap_text_as_json (VStr s))
                                        else ret result
                                 end)
       else if fallback_to_text self
            then lift (wrap_text_as_json (VStr s)) else ret result)) as Hpatch.
    { destruct (use_patching self); [|apply Hwrap].
      intros w r w'. unfold bind at 1.
      destruct (_patch_json_output _ _ _ _ _ _ _ w) as [[[[|kv p]|]|e] w1] eqn:E;
        try discriminate; try apply Hwrap.
      intros [= <- _]. left.
      exact (patch_json_output_valid _ _ _ _ _ _ _ _ _ _ E _ eq_refl). }
    destruct (Json.loads s) as [parsed|[]];
      try apply returns_throw; [|exact Hpatch].
    intros w r w'. unfold bind at 1, lift at 1.
    destruct (validate_with_schema parsed schema) as [[[] validated]|e] eqn:Ev;
      try discriminate.
    + intros [= <- _]. left. exists parsed. now apply validate_true.
    + apply Hpatch.
  - set (P := fun r => r = result \/
                       exists p, r = dict_set "parsed_output" (VDict p) result /\
                                 schema_valid schema p).
    assert (returns (W := W) P (ret result)) as Hsame
      by (apply returns_ret; now left).
    unfold Steps.chat_postprocess. rewrite Hschema.
    destruct (dict_get "response" result) as [[| | | |s| |]|]; try exact Hsame.
    destruct (looks_like_json_object s); [|exact Hsame].
    unfold chat_json_branch.
    assert (returns P
      (if chat_use_patching chat
       then bind (_patch_json_output (chat_model_name chat) (chat_options chat) schema
                    (chat_use_patching chat) (chat_max_patching_attempts chat)
                    (chat_patching_prompt chat) (VStr s))
                 (fun patched => match patched with
                                 | Some ((_ :: _) as p) =>
                                     ret (dict_set "parsed_output" (VDict p) result)
                                 | _ => ret result
                                 end)
       else ret result)) as Hpatch.
    { destruct (chat_use_patching chat); [|exact Hsame].
      intros w r w'. unfold bind at 1.
      destruct (_patch_json_output _ _ _ _ _ _ _ w) as [[[[|kv p]|]|e] w1] eqn:E;
        try discriminate; try apply Hsame.
      intros [= <- _]. right. eexists. split; [reflexivity|].
      exact (patch_json_output_valid _ _ _ _ _ _ _ _ _ _ E _ eq_refl). }
    destruct (Json.loads s) as [parsed|[]];
      try apply returns_throw; [|exact Hpatch].
    intros w r w'. unfold bind at 1, lift at 1.
    destruct (validate_with_schema parsed schema) as [[[] validated]|e] eqn:Ev;
      try discriminate.
    + intros [= <- _]. right. eexists. split; [reflexivity|].
      exists parsed. now apply validate_true.
    + apply Hpatch.
Qed.
End SchemaResults.

(** X20 at a response [{"x": 3}] that satisfies the schema: the block
    returns the object the validation returned. *)
Lemma schema_block_yields_validated_or_wrapped_witness :
  output_schema (as_completion toy_chat_step "t") = Some toy_schema /\
  Steps.completion_postprocess (W := nat) (toy_generate VNone) toy_format
    toy_half_capped (as_completion toy_chat_step "t") x3_result 0%nat
  = (Ok [("x", VInt 3)], 0%nat) /\
  schema_valid toy_schema [("x", VInt 3)].
Proof.
  split; [reflexivity|]. split; [vm_compute; reflexivity|].
  destruct (schema_block_yields_validated_or_wrapped (toy_generate VNone)
              toy_format toy_half_capped (as_completion toy_chat_step "t")
              toy_chat_step toy_schema x3_result) as [H _].
  destruct (H eq_refl 0%nat [("x", VInt 3)] 0%nat ltac:(vm_compute; reflexivity))
    as [Hv|[[_ [[s Hs]|Hs]]|[Hf _]]]; try discriminate.
  exact Hv.
Defined.

End StepsMoreFacts.

(** ** [generate_with_model]: what it returns, what it records *)

Module GenerateFacts.
Import Py PyFacts Exn Str JSONProcessor ModelManager ModelManagerSpec ModelManagerFacts
       Steps StepsSpec StepsFacts ManagerSpec ManagerFacts Generate GenerateSpec.

Section Ensures.
Context {W : Type}.

Lemma ensures_ret {A} (Q : A -> W -> Prop) (a : A) :
  (forall w, Q a w) -> ensures Q (ret a).
Proof. intros H w a' w' [= <- <-]. apply H. Qed.

Lemma ensures_bind {A C} (Q : C -> W -> Prop) (m : M W A) (k : A -> M W C) :
  (forall a, ensures Q (k a)) -> ensures Q (bind m k).
Proof.
  intros H w c w'. unfold bind. destruct (m w) as [[a|e] w1]; [|discriminate].
  apply H.
Qed.
End Ensures.

Lemma add_metadata_keeps result output k :
  dict_in k output = true -> dict_in k (add_metadata result output) = true.
Proof.
  unfold add_metadata. generalize ["eval_count"; "eval_duration"; "total_duration"].
  intros keys. revert output. induction keys as [|key keys IH]; simpl; intros out H; auto.
  apply IH. destruct (dict_get key result); auto.
  destruct (String.eqb_spec key k) as [->|Hne].
  - apply dict_in_set_same.
  - now rewrite dict_in_set_other.
Qed.

Section Backend.
Context {B : Type}.
Variable _request : string -> string -> option pydict -> B -> pydict * B.
Variable time_time : B -> value.
Variable py_sub : value -> value -> value.
Variable cache_get : string -> B -> value * B.
Variable cache_set : string -> value -> Z -> B -> B.
Variable asyncio_sleep : delay -> B -> B.

Abbreviation generate_loop :=
  (generate_loop _request time_time py_sub cache_set asyncio_sleep).
Abbreviation ensure_loaded := (ensure_loaded (B := B) _request).
Abbreviation generate_with_model :=
  (generate_with_model _request time_time py_sub cache_get cache_set asyncio_sleep).

(** *** The shape of the result *)

Lemma generate_loop_shape cfg model prompt options key fuel : forall retry_count,
  (retry_count <= max_retries cfg)%Z ->
  (max_retries cfg + 1 - retry_count <= Z.of_nat fuel)%Z ->
  returns (fun o => exists v, o = Some v /\ generated_shape v)
          (generate_loop fuel cfg model prompt options key retry_count).
Proof.
  induction fuel as [|fuel IH]; intros rc Hrc Hfuel; [lia|].
  cbn [Generate.generate_loop].
  destruct (Z.leb_spec rc (max_retries cfg)); [|lia].
  apply returns_bind. intros t0. apply returns_bind. intros result.
  apply returns_bind. intros t1.
  assert (forall final,
    dict_in "error" final = true ->
    returns (fun o => exists v, o = Some v /\ generated_shape v)
      (if (rc + 1 <=? max_retries cfg)%Z
       then bind (sleep asyncio_sleep (Backoff (rc + 1)))
                 (fun _ => generate_loop fuel cfg model prompt options key (rc + 1)%Z)
       else ret (Some (VDict final)))) as Hretry.
  { intros final Hfinal. destruct (Z.leb_spec (rc + 1) (max_retries cfg)).
    - apply returns_bind. intros _. apply IH; lia.
    - apply returns_ret. eexists. split; [reflexivity|]. exists final. auto. }
  destruct (dict_in "error" result).
  - apply returns_bind. intros _. now apply Hretry.
  - destruct (dict_get "response" result) as [response_text|]; [|now apply Hretry].
    apply returns_bind. intros text.
    destruct (_ || _); [now apply Hretry|].
    apply returns_bind. intros output. apply returns_bind. intros _.
    apply returns_ret. eexists. split; [reflexivity|]. eexists. split; [reflexivity|].
    right. left. apply add_metadata_keeps, dict_in_set_same.
Qed.

(** The result is an error report or an answer.  When the cache has no
    (true) value for the request and [max_retries] is not negative,
    [generate_with_model] does not raise a budget failure of the model, and
    whatever it returns is a dictionary with an [error] key, or with
    [execution_time] (a processed answer), or the simulated [response]:
    never [None]. *)
Theorem generate_returns_error_or_answer (model_name prompt : string)
    (options : option pydict) (mm : manager) (b : B) (o : option value)
    (w' : manager * B) :
  truthy (fst (cache_get (_create_cache_key model_name prompt options) b)) = false ->
  (0 <= max_retries (config mm))%Z ->
  generate_with_model model_name prompt options (mm, b) = (Ok o, w') ->
  exists v, o = Some v /\ generated_shape v.
Proof.
  intros Hmiss Hmax H. unfold Generate.generate_with_model in H.
  apply bind_inv in H as (cached & w1 & Hc & H).
  unfold cache_lookup in Hc. simpl in Hc.
  destruct (cache_get _ b) as [cached' b1]. injection Hc as <- <-.
  simpl in Hmiss. rewrite Hmiss in H.
  apply bind_inv in H as (mm0 & w2 & Hm & H). injection Hm as <- <-. simpl fst in H.
  destruct (simulation_mode (config mm)).
  - eapply (returns_elim (fun o => exists v, o = Some v /\ generated_shape v)) in H;
      [exact H|].
    apply returns_bind. intros _. apply returns_bind. intros _.
    apply returns_ret. eexists. split; [reflexivity|]. eexists. split; [reflexivity|].
    right. right. reflexivity.
  - eapply (returns_elim (fun o => exists v, o = Some v /\ generated_shape v)) in H;
      [exact H|].
    apply returns_bind. intros t. apply returns_bind. intros _.
    apply returns_bind. intros loaded. destruct loaded.
    + apply generate_loop_shape; lia.
    + apply returns_ret. eexists. split; [reflexivity|]. eexists. split; [reflexivity|].
      left. reflexivity.
Qed.
End Backend.


(** *** A backend that is down *)

Lemma get_status_after_increment mm m :
  failure_count (fst (_get_model_status (_increment_failure_count mm m) m)) =
  (failure_count (fst (_get_model_status mm m)) + 1)%Z.
Proof.
  unfold _increment_failure_count, _get_model_status at 2 3.
  destruct (model_statuses mm !! m) as [st|] eqn:E; simpl;
    unfold _get_model_status; simpl; rewrite lookup_insert_eq; reflexivity.
Qed.

Lemma fail_times_unhealthy n : forall mm m,
  (fallback_threshold (config mm) <=
     failure_count (fst (_get_model_status mm m)) + Z.of_nat (S n))%Z ->
  unhealthy (fail_times (S n) mm m) m.
Proof.
  induction n as [|n IH]; intros mm m H.
  - cbn [fail_times]. apply increment_marks_unhealthy. lia.
  - change (fail_times (S (S n)) mm m)
      with (fail_times (S n) (_increment_failure_count mm m) m).
    apply IH. rewrite config_increment, get_status_after_increment. lia.
Qed.

Lemma fail_times_count n : forall mm m,
  failure_count (fst (_get_model_status (fail_times n mm m) m)) =
  (failure_count (fst (_get_model_status mm m)) + Z.of_nat n)%Z.
Proof.
  induction n as [|n IH]; intros mm m; cbn [fail_times]; [lia|].
  rewrite IH, get_status_after_increment. lia.
Qed.

Lemma get_status_after_update mm m kw :
  failure_count (fst (_get_model_status (_update_model_status mm m kw) m)) =
  failure_count (fst (_get_model_status mm m)).
Proof.
  unfold _update_model_status, _get_model_status at 2 3.
  destruct (model_statuses mm !! m) as [st|] eqn:E; simpl;
    unfold _get_model_status; simpl; rewrite lookup_insert_eq; now destruct kw.
Qed.

Lemma active_model_update mm m kw :
  active_model (_update_model_status mm m kw) = active_model mm.
Proof.
  unfold _update_model_status, _get_model_status.
  now destruct (model_statuses mm !! m).
Qed.

Section Down.
Context {B : Type}.
Variable _request : string -> string -> option pydict -> B -> pydict * B.
Variable time_time : B -> value.
Variable py_sub : value -> value -> value.
Variable cache_get : string -> B -> value * B.
Variable cache_set : string -> value -> Z -> B -> B.
Variable asyncio_sleep : delay -> B -> B.

Abbreviation generate_loop :=
  (generate_loop _request time_time py_sub cache_set asyncio_sleep).
Abbreviation generate_with_model :=
  (generate_with_model _request time_time py_sub cache_get cache_set asyncio_sleep).

Lemma generate_loop_backend_down cfg model prompt options key :
  backend_down _request ->
  forall fuel retry_count mm (b : B),
    (retry_count <= max_retries cfg)%Z ->
    (max_retries cfg + 1 - retry_count <= Z.of_nat fuel)%Z ->
    exists d b',
      generate_loop fuel cfg model prompt options key retry_count (mm, b) =
        (Ok (Some (VDict d)),
         (fail_times (Z.to_nat (max_retries cfg + 1 - retry_count)) mm model, b')) /\
      dict_in "error" d = true.
Proof.
  intros Hdown. induction fuel as [|fuel IH]; intros rc mm b Hrc Hfuel; [lia|].
  cbn [Generate.generate_loop].
  destruct (Z.leb_spec rc (max_retries cfg)); [|lia].
  unfold bind at 1, now at 1. cbn [fst snd].
  unfold bind at 1, request at 1. cbn [fst snd].
  pose proof (Hdown "generate" "POST"
                (Some (generate_payload model prompt options)) b) as Herr.
  destruct (_request "generate" "POST"
              (Some (generate_payload model prompt options)) b) as [result b1].
  cbn [fst] in Herr.
  unfold bind at 1, now at 1. cbn [fst snd]. rewrite Herr.
  unfold bind at 1, update at 1. cbn [fst snd].
  destruct (Z.leb_spec (rc + 1) (max_retries cfg)).
  - unfold bind at 1, sleep at 1. cbn [fst snd].
    destruct (IH (rc + 1)%Z (_increment_failure_count mm model)
                 (asyncio_sleep (Backoff (rc + 1)) b1)) as (d & b' & Hrun & Hd);
      [lia | lia |].
    exists d, b'. split; [|exact Hd]. rewrite Hrun. do 2 f_equal.
    replace (max_retries cfg + 1 - rc)%Z
      with (Z.succ (max_retries cfg + 1 - (rc + 1)))%Z by lia.
    rewrite Z2Nat.inj_succ by lia. reflexivity.
  - eexists _, b1.
    split; [replace (max_retries cfg + 1 - rc)%Z with 1%Z by lia; reflexivity
           | reflexivity].
Qed.

(** When the backend is down.  Outside simulation mode, with
    [max_retries] not negative, nothing in the cache, the model already
    active (or preloading switched off) and every request answered with an
    error, [generate_with_model] returns an error dictionary after
    [max_retries + 1] attempts, each of which counts as a failure of the
    model; and when these bring its failure count to [fallback_threshold] the
    model is left marked unhealthy. *)
Theorem generate_on_dead_backend_marks_model_unhealthy
    (model_name prompt : string) (options : option pydict) (mm : manager) (b : B) :
  simulation_mode (config mm) = false ->
  preload_models (config mm) = false \/ active_model mm = Some model_name ->
  truthy (fst (cache_get (_create_cache_key model_name prompt options) b)) = false ->
  (0 <= max_retries (config mm))%Z ->
  backend_down _request ->
  exists d mm' b',
    generate_with_model model_name prompt options (mm, b) =
      (Ok (Some (VDict d)), (mm', b')) /\
    dict_in "error" d = true /\
    failure_count (fst (_get_model_status mm' model_name)) =
      (failure_count (fst (_get_model_status mm model_name))
       + max_retries (config mm) + 1)%Z /\
    ((fallback_threshold (config mm) <=
        failure_count (fst (_get_model_status mm model_name))
        + max_retries (config mm) + 1)%Z ->
     unhealthy mm' model_name).
Proof.
  intros Hsim Hload Hmiss Hmax Hdown.
  unfold Generate.generate_with_model.
  unfold bind at 1, cache_lookup. cbn [fst snd].
  destruct (cache_get _ b) as [cached b1]. cbn [fst] in Hmiss. rewrite Hmiss.
  unfold bind at 1, the_manager at 1. cbn [fst snd]. rewrite Hsim.
  unfold bind at 1, now at 1. cbn [fst snd].
  unfold bind at 1, update at 1. cbn [fst snd].
  set (mm1 := _update_model_status mm model_name (set_last_used (time_time b1))).
  assert (config mm1 = config mm) as Hcfg by apply config_update.
  assert (ensure_loaded _request model_name (mm1, b1) = (Ok true, (mm1, b1))) as Hens.
  { unfold ensure_loaded. unfold bind at 1, the_manager at 1. cbn [fst snd].
    rewrite Hcfg. unfold mm1. rewrite active_model_update.
    destruct Hload as [-> | ->]; [reflexivity|].
    rewrite String.eqb_refl. now rewrite andb_false_r. }
  unfold bind at 1. rewrite Hens.
  destruct (generate_loop_backend_down (config mm) model_name prompt options
              (_create_cache_key model_name prompt options) Hdown
              (Z.to_nat (max_retries (config mm) + 1)) 0%Z mm1 b1)
    as (d & b' & Hrun & Hd); [lia | lia |].
  eexists d, _, b'. split; [exact Hrun|]. split; [exact Hd|].
  replace (max_retries (config mm) + 1 - 0)%Z with (max_retries (config mm) + 1)%Z by lia.
  destruct (Z.to_nat (max_retries (config mm) + 1)) as [|n] eqn:En; [lia|].
  split.
  - rewrite fail_times_count. unfold mm1. rewrite get_status_after_update. lia.
  - intros Hthr. apply fail_times_unhealthy. rewrite Hcfg. unfold mm1.
    rewrite get_status_after_update. lia.
Qed.
End Down.

(** The theorem at work with the default limits (two retries, threshold
    two): one call against a backend that is down makes three requests and
    leaves the model unhealthy. *)
Lemma generate_on_dead_backend_marks_model_unhealthy_witness :
  backend_down dead_backend /\
  exists d mm',
    Generate.generate_with_model dead_backend (fun _ => VNone) (fun _ _ => VInt 0)
      no_cache_get no_cache_set no_sleep "M" "Hi" None (no_preload_manager, 0%nat)
    = (Ok (Some (VDict d)), (mm', 3%nat)) /\
    dict_in "error" d = true /\ unhealthy mm' "M".
Proof.
  assert (backend_down dead_backend) as Hdown by (intros ? ? ? ?; reflexivity).
  split; [exact Hdown|].
  destruct (generate_on_dead_backend_marks_model_unhealthy dead_backend (fun _ => VNone)
              (fun _ _ => VInt 0) no_cache_get no_cache_set no_sleep "M" "Hi" None
              no_preload_manager 0%nat)
    as (d & mm' & b' & Hrun & Hd & _ & Hun);
    [reflexivity | now left | reflexivity | discriminate | exact Hdown |].
  exists d, mm'. split; [|split; [exact Hd | apply Hun; vm_compute; discriminate]].
  rewrite Hrun. vm_compute in Hrun. injection Hrun as _ _ <-. reflexivity.
Defined.


(** *** Answers are cached *)

Section Cached.
Context {B : Type}.
Variable _request : string -> string -> option pydict -> B -> pydict * B.
Variable time_time : B -> value.
Variable py_sub : value -> value -> value.
Variable cache_get : string -> B -> value * B.
Variable cache_set : string -> value -> Z -> B -> B.
Variable asyncio_sleep : delay -> B -> B.

Abbreviation generate_loop :=
  (generate_loop _request time_time py_sub cache_set asyncio_sleep).
Abbreviation generate_with_model :=
  (generate_with_model _request time_time py_sub cache_get cache_set asyncio_sleep).
Abbreviation cached key := (fun o (w : manager * B) => just_cached cache_set key o (snd w)).

Lemma ensures_error key (final : pydict) :
  dict_in "error" final = true ->
  ensures (W := manager * B) (cached key) (ret (Some (VDict final))).
Proof.
  intros He. apply ensures_ret. intros w d [= <-] Hd. congruence.
Qed.

Lemma ensures_store key (output : pydict) :
  ensures (cached key)
    (bind (cache_store cache_set key (VDict output) 3600)
          (fun _ => ret (Some (VDict output)))).
Proof.
  intros w o w'. unfold bind, cache_store, ret. intros [= <- <-].
  intros d [= <-] _. simpl. eauto.
Qed.

Lemma generate_loop_cached cfg model prompt options key fuel : forall retry_count,
  ensures (cached key) (generate_loop fuel cfg model prompt options key retry_count).
Proof.
  induction fuel as [|fuel IH]; intros rc; cbn [Generate.generate_loop].
  - destruct (rc <=? max_retries cfg)%Z; apply ensures_ret; intros w d [=].
  - destruct (rc <=? max_retries cfg)%Z; [|apply ensures_ret; intros w d [=]].
    apply ensures_bind. intros t0. apply ensures_bind. intros result.
    apply ensures_bind. intros t1.
    assert (forall final,
      dict_in "error" final = true ->
      ensures (cached key)
        (if (rc + 1 <=? max_retries cfg)%Z
         then bind (sleep asyncio_sleep (Backoff (rc + 1)))
                   (fun _ => generate_loop fuel cfg model prompt options key (rc + 1)%Z)
         else ret (Some (VDict final)))) as Hretry.
    { intros final Hfinal. destruct (rc + 1 <=? max_retries cfg)%Z.
      - apply ensures_bind. intros _. apply IH.
      - now apply ensures_error. }
    destruct (dict_in "error" result).
    + apply ensures_bind. intros _. now apply Hretry.
    + destruct (dict_get "response" result) as [response_text|]; [|now apply Hretry].
      apply ensures_bind. intros text.
      destruct (_ || _); [now apply Hretry|].
      apply ensures_bind. intros output. apply ensures_store.
Qed.

(** Answers are cached before they are returned.  When the cache has no
    (true) value for the request, every dictionary without an [error] key
    that [generate_with_model] returns (a processed answer, or the simulated
    response) has just been written to the cache, under the key of the
    request and with a time to live of 3600 seconds; error reports are not
    cached by this path. *)
Theorem generated_answers_are_cached (model_name prompt : string)
    (options : option pydict) (mm : manager) (b : B) (d : pydict)
    (mm' : manager) (b' : B) :
  truthy (fst (cache_get (_create_cache_key model_name prompt options) b)) = false ->
  generate_with_model model_name prompt options (mm, b) =
    (Ok (Some (VDict d)), (mm', b')) ->
  dict_in "error" d = false ->
  exists b0,
    b' = cache_set (_create_cache_key model_name prompt options) (VDict d) 3600 b0.
Proof.
  intros Hmiss H Herr. unfold Generate.generate_with_model in H.
  apply bind_inv in H as (cached' & w1 & Hc & H).
  unfold cache_lookup in Hc. simpl in Hc.
  destruct (cache_get _ b) as [cached'' b1]. injection Hc as <- <-.
  simpl in Hmiss. rewrite Hmiss in H.
  apply bind_inv in H as (mm0 & w2 & Hm & H). injection Hm as <- <-. simpl fst in H.
  enough (ensures (cached (_create_cache_key model_name prompt options))
            (if simulation_mode (config mm)
             then _ else _)) as He
    by (exact (He _ _ _ H d eq_refl Herr)).
  destruct (simulation_mode (config mm)).
  - apply ensures_bind. intros _. apply ensures_store.
  - apply ensures_bind. intros t. apply ensures_bind. intros _.
    apply ensures_bind. intros loaded. destruct loaded.
    + apply generate_loop_cached.
    + now apply ensures_error.
Qed.
End Cached.

(** The theorem at work: the answer of a backend that responds is the
    last value written to the cache. *)
Lemma generated_answers_are_cached_witness :
  exists mm' b0,
    Generate.generate_with_model chatty_with_cache (fun _ => VNone) (fun _ _ => VInt 0)
      (fun _ b => (VNone, b)) last_cache_set (fun _ b => b)
      "M" "Hi" None (no_preload_manager, (0%nat, None))
    = (Ok (Some (VDict paris_answer)),
       (mm', (1%nat, Some (_create_cache_key "M" "Hi" None, VDict paris_answer)))) /\
    (1%nat, Some (_create_cache_key "M" "Hi" None, VDict paris_answer)) =
      last_cache_set (_create_cache_key "M" "Hi" None) (VDict paris_answer) 3600 b0.
Proof.
  assert (exists mm',
    Generate.generate_with_model chatty_with_cache (fun _ => VNone) (fun _ _ => VInt 0)
      (fun _ b => (VNone, b)) last_cache_set (fun _ b => b)
      "M" "Hi" None (no_preload_manager, (0%nat, None))
    = (Ok (Some (VDict paris_answer)),
       (mm', (1%nat, Some (_create_cache_key "M" "Hi" None, VDict paris_answer)))))
    as [mm' Hrun] by (eexists; vm_compute; reflexivity).
  destruct (generated_answers_are_cached chatty_with_cache (fun _ => VNone)
              (fun _ _ => VInt 0) (fun _ b => (VNone, b)) last_cache_set (fun _ b => b)
              "M" "Hi" None no_preload_manager (0%nat, None) paris_answer mm' _
              eq_refl Hrun eq_refl) as [b0 Hb0].
  exists mm', b0. split; [exact Hrun | exact Hb0].
Defined.

(** The theorem at work on the same run. *)
Lemma generate_returns_error_or_answer_witness :
  (0 <= max_retries (config no_preload_manager))%Z /\
  generated_shape (VDict paris_answer).
Proof.
  split; [discriminate|].
  assert (exists mm',
    Generate.generate_with_model chatty_with_cache (fun _ => VNone) (fun _ _ => VInt 0)
      (fun _ b => (VNone, b)) last_cache_set (fun _ b => b)
      "M" "Hi" None (no_preload_manager, (0%nat, None))
    = (Ok (Some (VDict paris_answer)),
       (mm', (1%nat, Some (_create_cache_key "M" "Hi" None, VDict paris_answer)))))
    as [mm' Hrun] by (eexists; vm_compute; reflexivity).
  destruct (generate_returns_error_or_answer chatty_with_cache (fun _ => VNone)
              (fun _ _ => VInt 0) (fun _ b => (VNone, b)) last_cache_set (fun _ b => b)
              "M" "Hi" None no_preload_manager (0%nat, None) _ _
              eq_refl ltac:(discriminate) Hrun) as (v & Hv & Hs).
  injection Hv as <-. exact Hs.
Defined.

End GenerateFacts.

(** ** [generate_with_chat]: what it returns *)

Module GenerateChatFacts.
Import Py PyFacts Exn Str JSONProcessor ModelManager ModelManagerSpec ModelManagerFacts
       Steps StepsSpec StepsFacts Generate GenerateSpec GenerateFacts
       GenerateChat GenerateChatSpec.

Lemma chat_error_shape cfg error text execution_time :
  chat_shape cfg (VDict (chat_error error text execution_time)).
Proof.
  exists (chat_error error text execution_time), text.
  split; [reflexivity|]. split; [|now left].
  exists [("content", VStr text)]. split; reflexivity.
Qed.

Lemma response_str_str content text : response_str content = Ok text -> content = VStr text.
Proof. destruct content; simpl; congruence. Qed.

Lemma message_content_get message content text :
  message_content message = Ok content -> content = VStr text -> text <> EmptyString ->
  exists m, message = VDict m /\ dict_get "content" m = Some (VStr text).
Proof.
  destruct message as [| | | | | |m]; try discriminate.
  simpl. intros [= <-] Hc Hne. exists m. split; [reflexivity|].
  destruct (dict_get "content" m) as [c|]; [now subst|].
  injection Hc as <-. now contradiction Hne.
Qed.

Lemma simulated_chat_content model_name messages response :
  simulated_chat model_name messages = Ok response ->
  exists content, has_content response content.
Proof.
  unfold simulated_chat. destruct (last_user_message _) as [m|e]; [|discriminate].
  destruct (first_50 _) as [shown|e]; [|discriminate].
  intros [= <-]. eexists. eexists. split; reflexivity.
Qed.

Section Backend.
Context {B : Type}.
Variable _request : string -> string -> option pydict -> B -> pydict * B.
Variable time_time : B -> value.
Variable py_sub : value -> value -> value.
Variable cache_get : string -> B -> value * B.
Variable cache_set : string -> value -> Z -> B -> B.
Variable asyncio_sleep : delay -> B -> B.

Abbreviation chat_loop :=
  (chat_loop _request time_time py_sub cache_set asyncio_sleep).
Abbreviation generate_with_chat :=
  (generate_with_chat _request time_time py_sub cache_get cache_set asyncio_sleep).

Lemma chat_loop_shape cfg model messages options format key fuel : forall retry_count,
  (retry_count <= max_retries cfg)%Z ->
  (max_retries cfg + 1 - retry_count <= Z.of_nat fuel)%Z ->
  returns (fun o => exists v, o = Some v /\ chat_shape cfg v)
          (chat_loop fuel cfg model messages options format key retry_count).
Proof.
  induction fuel as [|fuel IH]; intros rc Hrc Hfuel; [lia|].
  cbn [GenerateChat.chat_loop].
  destruct (Z.leb_spec rc (max_retries cfg)); [|lia].
  apply returns_bind. intros t0. apply returns_bind. intros result.
  apply returns_bind. intros t1.
  assert (forall error text,
    returns (fun o => exists v, o = Some v /\ chat_shape cfg v)
      (if (rc + 1 <=? max_retries cfg)%Z
       then bind (sleep asyncio_sleep (Backoff (rc + 1)))
                 (fun _ => chat_loop fuel cfg model messages options format key
                             (rc + 1)%Z)
       else ret (Some (VDict (chat_error error text (py_sub t1 t0)))))) as Hretry.
  { intros error text. destruct (Z.leb_spec (rc + 1) (max_retries cfg)).
    - apply returns_bind. intros _. apply IH; lia.
    - apply returns_ret. eexists. split; [reflexivity|]. apply chat_error_shape. }
  destruct (dict_in "error" result) eqn:Herr.
  - apply returns_bind. intros _. apply Hretry.
  - destruct (dict_get "message" result) as [message|] eqn:Hmsg; [|apply Hretry].
    intros w o w' Hrun.
    apply bind_inv in Hrun as (content & w1 & Hcontent & Hrun).
    apply bind_inv in Hrun as (text & w2 & Htext & Hrun).
    unfold lift in Hcontent, Htext.
    destruct (message_content message) as [c|] eqn:Hc; [|discriminate].
    injection Hcontent as -> <-.
    destruct (response_str content) as [s|] eqn:Hs; [|discriminate].
    injection Htext as -> <-.
    apply response_str_str in Hs.
    destruct (String.eqb_spec text EmptyString) as [Hempty|Hne].
    { exact (Hretry _ _ _ _ _ Hrun). }
    cbn [orb] in Hrun.
    destruct (Z.ltb_spec (Z.of_nat (String.length (strip text))) (min_response_length cfg))
      as [Hshort|Hlong].
    { exact (Hretry _ _ _ _ _ Hrun). }
    apply bind_inv in Hrun as (u & w3 & _ & Hrun). injection Hrun as <- _.
    destruct (message_content_get _ _ _ Hc Hs Hne) as (m & -> & Hm).
    eexists. split; [reflexivity|]. eexists _, text. split; [reflexivity|].
    split.
    + exists m. split; [|exact Hm].
      rewrite !dict_get_set_other by discriminate. exact Hmsg.
    + right. right. subst content. split; [apply dict_get_set_same|].
      split; [|split; [lia|exact Hne]].
      rewrite dict_in_set_other by discriminate. apply dict_in_set_same.
Qed.

(** The result of a chat always carries a message with a text.  When the
    cache has no (true) value for the request and [max_retries] is not
    negative, whatever [generate_with_chat] returns is a dictionary whose
    [message] has a string [content]; and it is an error report (with an
    [error] key), or the simulated message (in simulation mode), or the
    backend's answer, in which [response] is that same content, non-empty and
    of at least [min_response_length] characters once stripped, and
    [execution_time] is set. *)
Theorem chat_result_carries_message_content (model_name : string)
    (messages : list value) (options format : option pydict) (mm : manager) (b : B)
    (o : option value) (w' : manager * B) :
  truthy (fst (cache_get (chat_cache_key model_name messages options format) b))
    = false ->
  (0 <= max_retries (config mm))%Z ->
  generate_with_chat model_name messages options format (mm, b) = (Ok o, w') ->
  exists v, o = Some v /\ chat_shape (config mm) v.
Proof.
  intros Hmiss Hmax H. unfold GenerateChat.generate_with_chat in H.
  apply bind_inv in H as (cached & w1 & Hc & H).
  unfold cache_lookup in Hc. simpl in Hc.
  destruct (cache_get _ b) as [cached' b1]. injection Hc as <- <-.
  simpl in Hmiss. rewrite Hmiss in H.
  apply bind_inv in H as (mm0 & w2 & Hm & H). injection Hm as <- <-. simpl fst in H.
  destruct (simulation_mode (config mm)) eqn:Hsim.
  - apply bind_inv in H as (u & w3 & _ & H).
    apply bind_inv in H as (response & w4 & Hr & H).
    apply bind_inv in H as (u' & w5 & _ & H). injection H as <- _.
    unfold lift in Hr.
    destruct (simulated_chat model_name messages) as [r|] eqn:Hs; [|discriminate].
    injection Hr as -> _.
    destruct (simulated_chat_content _ _ _ Hs) as [content Hcontent].
    eexists. split; [reflexivity|]. exists response, content. auto.
  - eapply (returns_elim (fun o => exists v, o = Some v /\ chat_shape (config mm) v))
      in H; [exact H|].
    apply returns_bind. intros t. apply returns_bind. intros _.
    apply returns_bind. intros loaded. destruct loaded.
    + apply chat_loop_shape; lia.
    + apply returns_ret. eexists. split; [reflexivity|].
      eexists _, _. split; [reflexivity|]. split; [|now left].
      eexists. split; reflexivity.
Qed.
End Backend.

(** The theorem at a backend that answers, with no cache and no preload:
    the answer's [response] is the content of its message. *)
Lemma chat_result_carries_message_content_witness :
  (0 <= max_retries (config no_preload_manager))%Z /\
  exists d, chat_shape no_preload_config (VDict d) /\
            dict_get "response" d = Some (VStr "Paris is the capital of France.").
Proof.
  split; [discriminate|].
  assert (exists mm' d,
    GenerateChat.generate_with_chat chat_backend (fun _ => VNone) (fun _ _ => VInt 0)
      no_cache_get no_cache_set no_sleep
      "M" [VDict [("role", VStr "user"); ("content", VStr "Capital of France?")]]
      None None (no_preload_manager, 0%nat)
    = (Ok (Some (VDict d)), (mm', 1%nat)) /\
    dict_get "response" d = Some (VStr "Paris is the capital of France."))
    as (mm' & d & Hrun & Hd) by (do 2 eexists; vm_compute; split; reflexivity).
  destruct (chat_result_carries_message_content chat_backend (fun _ => VNone)
              (fun _ _ => VInt 0) no_cache_get no_cache_set no_sleep
              "M" _ None None no_preload_manager 0%nat _ _
              eq_refl ltac:(discriminate) Hrun) as (v & Hv & Hs).
  injection Hv as <-. exists d. split; [exact Hs | exact Hd].
Defined.

End GenerateChatFacts.

(** ** The output schema of a chat step: request format and post-processing *)

Module ChatSchemaFacts.
Import Py PyFacts Exn Str JSONProcessor ModelManager Steps StepsSpec StepsFacts
       StepsMoreSpec StepsMoreFacts Generate GenerateChat.

(** The request body of a chat carries a non-empty [format] under the key
    [format]. *)
Lemma chat_payload_format (model_name : string) (messages : list value)
    (options : option pydict) (format : pydict) :
  format <> [] ->
  dict_get "format" (chat_payload model_name messages options (Some format)) =
  Some (VDict format).
Proof.
  intros Hne. destruct format as [|kv format]; [contradiction|].
  unfold chat_payload. destruct options as [[|o os]|]; reflexivity.
Qed.

Section Backend.
Context {B : Type}.
Variable _request _request' : string -> string -> option pydict -> B -> pydict * B.
Variable time_time : B -> value.
Variable py_sub : value -> value -> value.
Variable cache_set : string -> value -> Z -> B -> B.
Variable asyncio_sleep : delay -> B -> B.

(** The loop of [generate_with_chat] sends the backend nothing but [POST]
    requests to [chat] whose body is [chat_payload]: a backend that
    answers those alike gives the same run. *)
Lemma chat_loop_payload cfg model_name messages options format cache_key :
  (forall b,
     _request "chat" "POST"
       (Some (chat_payload model_name messages options format)) b =
     _request' "chat" "POST"
       (Some (chat_payload model_name messages options format)) b) ->
  forall fuel retry_count w,
    chat_loop _request time_time py_sub cache_set asyncio_sleep fuel cfg
      model_name messages options format cache_key retry_count w =
    chat_loop _request' time_time py_sub cache_set asyncio_sleep fuel cfg
      model_name messages options format cache_key retry_count w.
Proof.
  intros Hreq. induction fuel as [|fuel IH]; intros rc w; cbn [chat_loop].
  - reflexivity.
  - destruct (rc <=? max_retries cfg)%Z; [|reflexivity].
    apply bind_ext. intros t0 w1. apply bind_cong.
    { unfold request. now rewrite Hreq. }
    intros result w2. apply bind_ext. intros t1 w3.
    assert (forall final w4,
      (if (rc + 1 <=? max_retries cfg)%Z
       then bind (sleep asyncio_sleep (Backoff (rc + 1)))
              (fun _ => chat_loop _request time_time py_sub cache_set asyncio_sleep
                          fuel cfg model_name messages options format cache_key
                          (rc + 1)%Z)
       else ret (Some (VDict final))) w4 =
      (if (rc + 1 <=? max_retries cfg)%Z
       then bind (sleep asyncio_sleep (Backoff (rc + 1)))
              (fun _ => chat_loop _request' time_time py_sub cache_set asyncio_sleep
                          fuel cfg model_name messages options format cache_key
                          (rc + 1)%Z)
       else ret (Some (VDict final))) w4) as Hretry.
    { intros final w4. destruct (rc + 1 <=? max_retries cfg)%Z; [|reflexivity].
      apply bind_ext. intros _ w5. apply IH. }
    destruct (dict_in "error" result).
    + apply bind_ext. intros _ w4. apply Hretry.
    + destruct (dict_get "message" result) as [message|]; [|apply Hretry].
      apply bind_ext. intros content w4. apply bind_ext. intros text w5.
      destruct (_ || _); [apply Hretry | reflexivity].
Qed.
End Backend.

Section Env.
Context {W : Type}.
Variable check_model_health : string -> M W bool.
Variable generate_with_model : string -> string -> pydict -> M W pydict.
Variable generate_with_chat :
  string -> list value -> pydict -> option pydict -> M W pydict.
Variable time_time : M W value.
Variable py_sub : value -> value -> value.
Variable str_format : string -> pydict -> result string.
Variable capitalize : string -> string.
Variable half_capped : value -> result value.

Abbreviation schema_object :=
  (schema_object generate_with_model str_format half_capped).
Abbreviation chat_postprocess :=
  (chat_postprocess generate_with_model str_format half_capped).
Abbreviation completion_postprocess :=
  (completion_postprocess generate_with_model str_format half_capped).
Abbreviation chat_execute :=
  (chat_execute check_model_health generate_with_model generate_with_chat time_time
                py_sub str_format capitalize half_capped).

(** The object both step classes derive has passed the validation of the
    schema. *)
Lemma schema_object_valid model opts schema patching attempts prompt text :
  returns (fun o => forall p, o = Some p -> schema_valid schema p)
          (schema_object model opts schema patching attempts prompt text).
Proof.
  unfold StepsSpec.schema_object.
  assert (returns (W := W) (fun o => forall p, o = Some p -> schema_valid schema p)
    (if patching
     then bind (_patch_json_output generate_with_model str_format half_capped
                  model opts schema patching attempts prompt (VStr text))
               (fun patched => match patched with
                               | Some ((_ :: _) as p) => ret (Some p)
                               | _ => ret None
                               end)
     else ret None)) as Hpatch.
  { destruct patching; [|apply returns_ret; discriminate].
    intros w o w' Hrun.
    apply bind_inv in Hrun as (patched & w1 & Hp & Hrun).
    destruct patched as [[|kv p]|]; injection Hrun as <- _; try discriminate.
    intros p' [= <-].
    exact (patch_json_output_valid _ _ _ _ _ _ _ _ _ _ _ _ _ Hp _ eq_refl). }
  destruct (Json.loads text) as [parsed|[]];
    try apply returns_throw; [|exact Hpatch].
  intros w o w' Hrun.
  apply bind_inv in Hrun as ([[] validated] & w1 & Hv & Hrun).
  - injection Hrun as <- _. intros p [= <-]. exists parsed.
    apply validate_true. unfold lift in Hv. now injection Hv as ->.
  - exact (Hpatch _ _ _ Hrun).
Qed.

End Env.

End ChatSchemaFacts.
